(** * Resilient data-access layer: fallback cache, degraded client,
      connection pool with circuit breaker, connection tracker and the
      tenant-namespaced Redis cache.

    Shallow embedding of
      - [backend/app/core/circuit_breaker_fallback.py]
      - [backend/app/core/supabase_connection_pool.py]
      - [backend/app/core/async_supabase.py]
      - [backend/app/core/redis_cache.py]

    Conventions.
    - Readings of [time.time()] are passed in explicitly and are integers
      (clock ticks of one second); every comparison the code makes on them
      is kept as written.
    - Python dictionaries whose keys are strings and whose insertion order
      is observable (JSON-shaped payloads, [query_params]) are association
      lists updated in place; dictionaries used as keyed stores
      ([self.cache], [retry_counts], the Redis key space) are [gmap]s.
    - Logging calls have no effect on the modelled state and are left out. *)

From Stdlib Require Import ZArith Ascii.
From stdpp Require Import gmap strings list pretty.

Set Warnings "-register-all".
Set Warnings "-clear-no-such-hyp".
Local Open Scope string_scope.
Local Open Scope Z_scope.

(* ===================================================================== *)
(** ** Python values *)
(* ===================================================================== *)

Module Py.

(** JSON-shaped Python values, plus tuples (which [query_params] holds). *)
Inductive pyval : Type :=
| PNone
| PBool (b : bool)
| PInt (z : Z)
| PStr (s : string)
| PList (l : list pyval)
| PTuple (l : list pyval)
| PDict (d : list (string * pyval)).

Definition pydict : Type := list (string * pyval).

(** Python truth value: [None], [False], [0], [''], and empty containers
    are falsy. *)
Definition truthy (v : pyval) : bool :=
  match v with
  | PNone => false
  | PBool b => b
  | PInt z => negb (z =? 0)
  | PStr s => negb (String.eqb s "")
  | PList l => match l with [] => false | _ => true end
  | PTuple l => match l with [] => false | _ => true end
  | PDict d => match d with [] => false | _ => true end
  end.

(** [d.get(k)] *)
Fixpoint dict_get (d : pydict) (k : string) : option pyval :=
  match d with
  | [] => None
  | (k', v) :: d' => if String.eqb k' k then Some v else dict_get d' k
  end.

(** [k in d] *)
Definition dict_mem (k : string) (d : pydict) : bool :=
  match dict_get d k with Some _ => true | None => false end.

(** [d[k] = v]: an existing key keeps its position, a new key goes last. *)
Fixpoint dict_set (d : pydict) (k : string) (v : pyval) : pydict :=
  match d with
  | [] => [(k, v)]
  | (k', v') :: d' =>
      if String.eqb k' k then (k', v) :: d' else (k', v') :: dict_set d' k v
  end.

(** [isinstance(v, list)] *)
Definition is_list (v : pyval) : bool :=
  match v with PList _ => true | _ => false end.

(** [c.lower()] on one ASCII character. *)
Definition lower_ascii (c : ascii) : ascii :=
  let n := nat_of_ascii c in
  if ((65 <=? n)%nat && (n <=? 90)%nat)%bool then ascii_of_nat (n + 32) else c.

(** [s.lower()] *)
Fixpoint lower (s : string) : string :=
  match s with
  | EmptyString => EmptyString
  | String c s' => String (lower_ascii c) (lower s')
  end.

(** [phrase in s] on strings. *)
Fixpoint contains (phrase s : string) : bool :=
  (String.prefix phrase s
   || match s with
      | EmptyString => false
      | String _ s' => contains phrase s'
      end)%bool.

(** [x in xs] for a list of strings. *)
Definition str_in (x : string) (xs : list string) : bool :=
  existsb (String.eqb x) xs.

(** [len(v)]; [None] is the [TypeError] of a value without a length. *)
Definition len (v : pyval) : option Z :=
  match v with
  | PList l | PTuple l => Some (Z.of_nat (length l))
  | PDict d => Some (Z.of_nat (length d))
  | PStr s => Some (Z.of_nat (String.length s))
  | _ => None
  end.

(** [f"{n}"] for an integer. *)
Definition str_of_int (n : Z) : string := pretty n.

End Py.

(* ===================================================================== *)
(** ** circuit_breaker_fallback.py *)
(* ===================================================================== *)

Module CircuitBreakerFallback.
Import Py.

(** One entry of [self.cache]: [{'data': response, 'timestamp': t}]. *)
Record cached_item : Type := CachedItem {
  data : pydict;
  timestamp : Z
}.

Record t : Type := Make {
  cache : gmap string cached_item;
  cache_ttl : Z
}.

Definition set_cache (self : t) (c : gmap string cached_item) : t :=
  {| cache := c; cache_ttl := cache_ttl self |}.

(** [__init__] *)
Definition __init__ : t := {| cache := ∅; cache_ttl := 300 |}.

(** The two annotations [get_cached_response] writes on an entry it
    serves. *)
Definition annotate (d : pydict) (ts : Z) : pydict :=
  dict_set (dict_set d "_fallback_cached" (PBool true)) "_cached_at" (PInt ts).

(** Truth value of [response.get('error')]. *)
Definition flagged_with_error (d : pydict) : bool :=
  match dict_get d "error" with
  | Some e => truthy e
  | None => false
  end.

(** [get_cached_response].  The annotations are written into the stored
    dictionary itself (the returned object is the cached one), so the
    store is updated as well. *)
Definition get_cached_response (self : t) (cache_key : string) (now : Z)
  : option pydict * t :=
  match cache self !! cache_key with
  | Some cached_item =>
      if now - timestamp cached_item <? cache_ttl self then
        let d := annotate (data cached_item) (timestamp cached_item) in
        (Some d,
         set_cache self
           (<[cache_key := CachedItem d (timestamp cached_item)]> (cache self)))
      else
        (None, set_cache self (delete cache_key (cache self)))
  | None => (None, self)
  end.

(** [cache_response] *)
Definition cache_response (self : t) (cache_key : string) (response : pyval)
    (now : Z) : t :=
  match response with
  | PDict d =>
      if negb (flagged_with_error d)
      then set_cache self (<[cache_key := CachedItem d now]> (cache self))
      else self
  | _ => self
  end.

(** No cached entry carries a truthy ['error'] field. *)
Definition error_free (self : t) : Prop :=
  map_Forall (λ (_ : string) (item : cached_item),
                flagged_with_error (data item) = false) (cache self).

(** [clear_cache] *)
Definition clear_cache (self : t) : t := set_cache self ∅.

(** [cleanup_expired_cache] *)
Definition cleanup_expired_cache (self : t) (current_time : Z) : t :=
  let expired_keys :=
    (map_to_list
       (filter (λ kv : string * cached_item,
                  current_time - timestamp kv.2 >= cache_ttl self)
               (cache self))).*1 in
  set_cache self (foldr delete (cache self) expired_keys).

Section WithHash.
(** [hash(json.dumps(params, sort_keys=True))]: Python's string hash is
    salted per process, so it is a parameter of the model. *)
Variable hash_json : pydict → Z.

(** [_generate_cache_key]; [params] is [None] or a dictionary. *)
Definition _generate_cache_key (operation_type : string)
    (params : option pydict) : string :=
  match params with
  | Some ((_ :: _) as p) =>
      operation_type ++ ":" ++ str_of_int (hash_json p)
  | _ => operation_type
  end.

Definition params_val (params : option pydict) : pyval :=
  match params with Some p => PDict p | None => PNone end.

Definition _get_reservations_fallback (now : Z) : pydict :=
  [ ("data", PList []); ("count", PInt 0); ("error", PNone);
    ("fallback", PBool true); ("fallback_type", PStr "reservations");
    ("message", PStr "Reservations data temporarily unavailable. Showing cached data or empty results.");
    ("retry_after", PInt 60); ("timestamp", PInt now) ].

Definition _get_properties_fallback (now : Z) : pydict :=
  [ ("data", PList []); ("count", PInt 0); ("error", PNone);
    ("fallback", PBool true); ("fallback_type", PStr "properties");
    ("message", PStr "Properties data temporarily unavailable. Showing cached data or empty results.");
    ("retry_after", PInt 60); ("timestamp", PInt now) ].

Definition _get_users_fallback (now : Z) : pydict :=
  [ ("data", PList []); ("count", PInt 0); ("error", PNone);
    ("fallback", PBool true); ("fallback_type", PStr "users");
    ("message", PStr "User data temporarily unavailable. Please try again in a moment.");
    ("retry_after", PInt 30); ("timestamp", PInt now) ].

Definition _get_health_fallback (now : Z) : pydict :=
  [ ("status", PStr "degraded"); ("fallback", PBool true);
    ("message", PStr "Database connections are experiencing issues. Running in degraded mode.");
    ("retry_after", PInt 30); ("timestamp", PInt now);
    ("details", PDict [ ("database", PStr "degraded");
                        ("circuit_breaker", PStr "open");
                        ("fallback_active", PBool true) ]) ].

Definition _get_default_fallback (operation_type : string)
    (params : option pydict) (now : Z) : pydict :=
  [ ("error", PStr ("Service temporarily unavailable for " ++ operation_type));
    ("fallback", PBool true); ("fallback_type", PStr "default");
    ("message", PStr "The requested service is temporarily unavailable due to database issues.");
    ("retry_after", PInt 60); ("timestamp", PInt now);
    ("operation_type", PStr operation_type);
    ("params", params_val params) ].

(** [get_fallback_response] *)
Definition get_fallback_response (self : t) (operation_type : string)
    (params : option pydict) (now : Z) : pydict * t :=
  let cache_key := _generate_cache_key operation_type params in
  match get_cached_response self cache_key now with
  | (Some ((_ :: _) as cached_response), self') => (cached_response, self')
  | (_, self') =>
      let ot := lower operation_type in
      if str_in ot ["reservation"; "reservations"] then
        (_get_reservations_fallback now, self')
      else if str_in ot ["property"; "properties"] then
        (_get_properties_fallback now, self')
      else if str_in ot ["user"; "users"] then
        (_get_users_fallback now, self')
      else if str_in ot ["health"; "status"] then
        (_get_health_fallback now, self')
      else
        (_get_default_fallback operation_type params now, self')
  end.
(** The calls the rest of the program makes on the service. *)
Inductive op : Type :=
| GetCachedResponse (cache_key : string) (now : Z)
| CacheResponse (cache_key : string) (response : pyval) (now : Z)
| GetFallbackResponse (operation_type : string) (params : option pydict)
    (now : Z)
| ClearCache
| CleanupExpiredCache (now : Z).

Definition step (self : t) (o : op) : t :=
  match o with
  | GetCachedResponse k now => (get_cached_response self k now).2
  | CacheResponse k r now => cache_response self k r now
  | GetFallbackResponse ot params now =>
      (get_fallback_response self ot params now).2
  | ClearCache => clear_cache self
  | CleanupExpiredCache now => cleanup_expired_cache self now
  end.

Definition run (self : t) (ops : list op) : t := foldl step self ops.
End WithHash.

(** The dictionary [get_cache_status] returns. *)
Record cache_status : Type := CacheStatus {
  total_entries : Z;
  valid_entries : Z;
  expired_entries : Z;
  status_cache_ttl : Z;
  last_cleanup : Z
}.

(** The loop of [get_cache_status] over [self.cache.items()]. *)
Definition count_entries (self : t) (current_time : Z)
    (items : list (string * cached_item)) : Z * Z :=
  foldl (λ (acc : Z * Z) (kv : string * cached_item),
           if current_time - timestamp kv.2 <? cache_ttl self
           then (acc.1 + 1, acc.2)
           else (acc.1, acc.2 + 1))
        (0, 0) items.

(** [get_cache_status] *)
Definition get_cache_status (self : t) (current_time : Z) : cache_status :=
  let counts := count_entries self current_time (map_to_list (cache self)) in
  {| total_entries := Z.of_nat (size (cache self));
     valid_entries := counts.1;
     expired_entries := counts.2;
     status_cache_ttl := cache_ttl self;
     last_cleanup := current_time |}.

End CircuitBreakerFallback.

(* ===================================================================== *)
(** ** supabase_connection_pool.py: the degraded client *)
(* ===================================================================== *)

Module FallbackResponse.
Import Py.

Record t : Type := Make {
  data : pyval;
  count : Z;
  _fallback : bool
}.

(** [__init__]:
    [self.data = data if isinstance(data, list) else [data] if data else []]
    [self.count = len(self.data) if isinstance(self.data, list) else 1] *)
Definition __init__ (payload : pyval) : t :=
  let d := if is_list payload then payload
           else if truthy payload then PList [payload]
           else PList [] in
  {| data := d;
     count := match d with
              | PList l => Z.of_nat (length l)
              | _ => 1
              end;
     _fallback := true |}.

(** Attribute access.  [__getattr__] is consulted only for names that are
    not instance attributes and answers with the response itself. *)
Inductive attribute : Type :=
| AData (v : pyval)
| ACount (n : Z)
| AFallback (b : bool)
| ASelf (r : t).

Definition getattr (self : t) (name : string) : attribute :=
  if String.eqb name "data" then AData (data self)
  else if String.eqb name "count" then ACount (count self)
  else if String.eqb name "_fallback" then AFallback (_fallback self)
  else ASelf self.

End FallbackResponse.

Module GracefulDegradationTable.
Import Py.

Record t : Type := Make {
  table_name : string;
  query_params : pydict
}.

Definition __init__ (table_name : string) : t :=
  {| table_name := table_name; query_params := [] |}.

Definition set_param (self : t) (k : string) (v : pyval) : t :=
  {| table_name := table_name self;
     query_params := dict_set (query_params self) k v |}.

Definition select (self : t) (columns : list pyval) : t :=
  set_param self "select" (PTuple columns).

Definition insert (self : t) (data : pyval) : t :=
  set_param self "insert" data.

Definition update (self : t) (data : pyval) : t :=
  set_param self "update" data.

Definition delete (self : t) : t :=
  set_param self "delete" (PBool true).

(** [eq]: [None] stands for the [AttributeError] of [.append] on a
    ['filters'] entry that is not a list. *)
Definition eq (self : t) (column value : pyval) : option t :=
  let self1 :=
    if negb (dict_mem "filters" (query_params self))
    then set_param self "filters" (PList [])
    else self in
  match dict_get (query_params self1) "filters" with
  | Some (PList l) =>
      Some (set_param self1 "filters"
              (PList (l ++ [PTuple [PStr "eq"; column; value]])))
  | _ => None
  end.

Definition limit (self : t) (count : pyval) : t :=
  set_param self "limit" count.

Definition order (self : t) (column : pyval) (desc : bool) : t :=
  set_param self "order" (PTuple [column; PBool desc]).

(** The payload of a refused write. *)
Definition write_unavailable : pydict :=
  [ ("error", PStr "Write operations temporarily unavailable");
    ("fallback", PBool true);
    ("message", PStr "Database is in degraded mode. Write operations are disabled.");
    ("retry_after", PInt 60) ].

(** [any(key in self.query_params for key in ['insert','update','delete'])] *)
Definition is_write (self : t) : bool :=
  existsb (fun key => dict_mem key (query_params self))
          ["insert"; "update"; "delete"].

(** [execute] against the fallback service [fs]. *)
Definition execute (hash_json : pydict → Z) (self : t)
    (fs : CircuitBreakerFallback.t) (now : Z)
  : FallbackResponse.t * CircuitBreakerFallback.t :=
  if is_write self then
    (FallbackResponse.__init__ (PDict write_unavailable), fs)
  else
    let '(r, fs') :=
      CircuitBreakerFallback.get_fallback_response hash_json fs
        (table_name self) (Some (query_params self)) now in
    (FallbackResponse.__init__ (PDict r), fs').

(** A chain of builder calls, as calling code writes it. *)
Inductive call : Type :=
| Select (columns : list pyval)
| Insert (data : pyval)
| Update (data : pyval)
| Delete
| Eq (column value : pyval)
| Limit (count : pyval)
| Order (column : pyval) (desc : bool).

Definition apply_call (self : t) (c : call) : option t :=
  match c with
  | Select columns => Some (select self columns)
  | Insert d => Some (insert self d)
  | Update d => Some (update self d)
  | Delete => Some (delete self)
  | Eq column value => eq self column value
  | Limit n => Some (limit self n)
  | Order column desc => Some (order self column desc)
  end.

Fixpoint chain (self : t) (cs : list call) : option t :=
  match cs with
  | [] => Some self
  | c :: cs' =>
      match apply_call self c with
      | Some self' => chain self' cs'
      | None => None
      end
  end.

Definition is_write_call (c : call) : bool :=
  match c with
  | Insert _ | Update _ | Delete => true
  | _ => false
  end.

(** What the builder methods maintain: ['filters'], once present, holds a
    list. *)
Definition filters_ok (self : t) : Prop :=
  match dict_get (query_params self) "filters" with
  | Some (PList _) | None => True
  | Some _ => False
  end.

End GracefulDegradationTable.

Module GracefulDegradationRPC.
Import Py.

Record t : Type := Make {
  function_name : string;
  params : pydict
}.

Definition __init__ (function_name : string) (params : pydict) : t :=
  {| function_name := function_name; params := params |}.

Definition execute (hash_json : pydict → Z) (self : t)
    (fs : CircuitBreakerFallback.t) (now : Z)
  : FallbackResponse.t * CircuitBreakerFallback.t :=
  let '(r, fs') :=
    CircuitBreakerFallback.get_fallback_response hash_json fs
      ("rpc_" ++ function_name self) (Some (params self)) now in
  (FallbackResponse.__init__ (PDict r), fs').

End GracefulDegradationRPC.

Module GracefulDegradationAuth.
Import Py.

Definition sign_in_with_password : FallbackResponse.t :=
  FallbackResponse.__init__
    (PDict [ ("error", PStr "Authentication temporarily unavailable");
             ("fallback", PBool true);
             ("message", PStr "Please try logging in again in a few moments.");
             ("retry_after", PInt 30) ]).

End GracefulDegradationAuth.

Module GracefulDegradationStorage.
Import Py.

Definition upload : FallbackResponse.t :=
  FallbackResponse.__init__
    (PDict [ ("error", PStr "File upload temporarily unavailable");
             ("fallback", PBool true);
             ("message", PStr "File operations are disabled while in degraded mode.");
             ("retry_after", PInt 60) ]).

End GracefulDegradationStorage.

Module GracefulDegradationClient.
Import Py.

Definition table (table_name : string) : GracefulDegradationTable.t :=
  GracefulDegradationTable.__init__ table_name.

Definition from_ (table_name : string) : GracefulDegradationTable.t :=
  table table_name.

(** [rpc]: [params or {}] *)
Definition rpc (function_name : string) (params : option pydict)
  : GracefulDegradationRPC.t :=
  GracefulDegradationRPC.__init__ function_name
    (match params with Some ((_ :: _) as p) => p | _ => [] end).

End GracefulDegradationClient.

(** What the real Supabase query hands back to the caching wrappers. *)
Module Live.
Import Py.

(** A response object: its [data] attribute, and its [count] attribute
    when it has one. *)
Record api_response : Type := Response {
  data : pyval;
  count : option pyval
}.

(** [self._table.execute()]: an exception, or a result; [None] is a result
    that is falsy or has no [data] attribute. *)
Inductive result : Type :=
| Raises (msg : string)
| Returns (r : option api_response).

(** What the wrapper's [execute] does in turn. *)
Inductive outcome : Type :=
| Returned (r : option api_response)
| Raised (msg : string).

End Live.

Module CachingTableWrapper.
Import Py.

Record t : Type := Make {
  _table_name : string;
  _query_params : pydict
}.

Definition __init__ (table_name : string) : t :=
  {| _table_name := table_name; _query_params := [] |}.

Definition set_param (self : t) (k : string) (v : pyval) : t :=
  {| _table_name := _table_name self;
     _query_params := dict_set (_query_params self) k v |}.

Definition select (self : t) (columns : list pyval) : t :=
  set_param self "select" (PTuple columns).

(** [eq]: [None] stands for the [AttributeError] of [.append] on a
    ['filters'] entry that is not a list. *)
Definition eq (self : t) (column value : pyval) : option t :=
  let self1 :=
    if negb (dict_mem "filters" (_query_params self))
    then set_param self "filters" (PList [])
    else self in
  match dict_get (_query_params self1) "filters" with
  | Some (PList l) =>
      Some (set_param self1 "filters"
              (PList (l ++ [PTuple [PStr "eq"; column; value]])))
  | _ => None
  end.

Definition limit (self : t) (count : pyval) : t :=
  set_param self "limit" count.

Definition order (self : t) (column : pyval) (desc : bool) : t :=
  set_param self "order" (PTuple [column; PBool desc]).

(** [__getattr__] for a method the wrapper does not define: the call goes
    to the real table and the wrapper's own record of the query stays as it
    is. *)
Definition passthrough (self : t) : t := self.

(** The default handed to [getattr(result, 'count', ...)], which Python
    evaluates before the lookup:
    [len(result.data) if result.data else 0]. *)
Definition default_count (r : Live.api_response) : option pyval :=
  if truthy (Live.data r) then
    match len (Live.data r) with
    | Some n => Some (PInt n)
    | None => None
    end
  else Some (PInt 0).

(** The dictionary cached for a read. *)
Definition cached_payload (r : Live.api_response) (dflt : pyval) : pydict :=
  [ ("data", Live.data r);
    ("count", match Live.count r with Some c => c | None => dflt end) ].

(** [execute], given what the real query does. *)
Definition execute (hash_json : pydict → Z) (self : t)
    (fs : CircuitBreakerFallback.t) (live : Live.result) (now : Z)
  : Live.outcome * CircuitBreakerFallback.t :=
  match live with
  | Live.Raises msg => (Live.Raised msg, fs)
  | Live.Returns None => (Live.Returned None, fs)
  | Live.Returns (Some r) =>
      if dict_mem "select" (_query_params self) then
        let cache_key :=
          CircuitBreakerFallback._generate_cache_key hash_json
            (_table_name self) (Some (_query_params self)) in
        match default_count r with
        | Some dflt =>
            (Live.Returned (Some r),
             CircuitBreakerFallback.cache_response fs cache_key
               (PDict (cached_payload r dflt)) now)
        | None => (Live.Raised "TypeError", fs)
        end
      else (Live.Returned (Some r), fs)
  end.

(** A chain of builder calls on the wrapper; insert, update and delete are
    not methods of the wrapper and go through [__getattr__]. *)
Definition apply_call (self : t) (c : GracefulDegradationTable.call)
  : option t :=
  match c with
  | GracefulDegradationTable.Select columns => Some (select self columns)
  | GracefulDegradationTable.Eq column value => eq self column value
  | GracefulDegradationTable.Limit n => Some (limit self n)
  | GracefulDegradationTable.Order column desc => Some (order self column desc)
  | GracefulDegradationTable.Insert _
  | GracefulDegradationTable.Update _
  | GracefulDegradationTable.Delete => Some (passthrough self)
  end.

Fixpoint chain (self : t) (cs : list GracefulDegradationTable.call)
  : option t :=
  match cs with
  | [] => Some self
  | c :: cs' =>
      match apply_call self c with
      | Some self' => chain self' cs'
      | None => None
      end
  end.

End CachingTableWrapper.

Module CachingRPCWrapper.
Import Py.

Record t : Type := Make {
  _function_name : string;
  _params : option pydict
}.

Definition __init__ (function_name : string) (params : option pydict) : t :=
  {| _function_name := function_name; _params := params |}.

(** [execute], given what the real call does. *)
Definition execute (hash_json : pydict → Z) (self : t)
    (fs : CircuitBreakerFallback.t) (live : Live.result) (now : Z)
  : Live.outcome * CircuitBreakerFallback.t :=
  match live with
  | Live.Raises msg => (Live.Raised msg, fs)
  | Live.Returns None => (Live.Returned None, fs)
  | Live.Returns (Some r) =>
      let cache_key :=
        CircuitBreakerFallback._generate_cache_key hash_json
          ("rpc_" ++ _function_name self) (_params self) in
      (Live.Returned (Some r),
       CircuitBreakerFallback.cache_response fs cache_key
         (PDict [ ("data", Live.data r);
                  ("function", PStr (_function_name self)) ]) now)
  end.

End CachingRPCWrapper.

Module SuccessfulClientWrapper.
Import Py.

Definition table (table_name : string) : CachingTableWrapper.t :=
  CachingTableWrapper.__init__ table_name.

Definition from_ (table_name : string) : CachingTableWrapper.t :=
  table table_name.

Definition rpc (function_name : string) (params : option pydict)
  : CachingRPCWrapper.t :=
  CachingRPCWrapper.__init__ function_name params.

End SuccessfulClientWrapper.

(* ===================================================================== *)
(** ** supabase_connection_pool.py: the pool and its circuit breaker *)
(* ===================================================================== *)

Module SupabaseConnectionPool.

(** A client object, known by its identity. *)
Definition Client : Type := nat.

(** [ConnectionMetrics].  [average_response_time], a float that no
    decision of the pool reads, is not part of the model. *)
Record ConnectionMetrics : Type := Metrics {
  total_connections : Z;
  active_connections : Z;
  failed_connections : Z;
  successful_operations : Z;
  failed_operations : Z;
  last_health_check : Z
}.

Record t : Type := Make {
  max_connections : Z;
  timeout : Z;
  recycle_interval : Z;
  (** items of [asyncio.Queue(maxsize=max_connections)], next out first *)
  _pool : list Client;
  _clients : list Client;
  _client_created_times : gmap Client Z;
  _active_clients : gset Client;
  metrics : ConnectionMetrics;
  _failed_operations_count : Z;
  _circuit_breaker_open : bool;
  _circuit_breaker_opened_at : option Z;
  _circuit_breaker_threshold : Z;
  _circuit_breaker_timeout : Z;
  (** identity of the object the next [create_client] call returns *)
  next_client : Client
}.

(** [__init__], for the three values read from [settings]. *)
Definition __init__ (max_connections timeout recycle_interval now : Z) : t :=
  {| max_connections := max_connections;
     timeout := timeout;
     recycle_interval := recycle_interval;
     _pool := [];
     _clients := [];
     _client_created_times := ∅;
     _active_clients := ∅;
     metrics := Metrics 0 0 0 0 0 now;
     _failed_operations_count := 0;
     _circuit_breaker_open := false;
     _circuit_breaker_opened_at := None;
     _circuit_breaker_threshold := 10;
     _circuit_breaker_timeout := 60;
     next_client := 0%nat |}.

(** The mutable groups of attributes. *)
Definition set_breaker (self : t) (count : Z) (is_open : bool)
    (opened_at : option Z) : t :=
  {| max_connections := max_connections self;
     timeout := timeout self;
     recycle_interval := recycle_interval self;
     _pool := _pool self;
     _clients := _clients self;
     _client_created_times := _client_created_times self;
     _active_clients := _active_clients self;
     metrics := metrics self;
     _failed_operations_count := count;
     _circuit_breaker_open := is_open;
     _circuit_breaker_opened_at := opened_at;
     _circuit_breaker_threshold := _circuit_breaker_threshold self;
     _circuit_breaker_timeout := _circuit_breaker_timeout self;
     next_client := next_client self |}.

Definition set_tracking (self : t) (pool clients : list Client)
    (created : gmap Client Z) (active : gset Client) (next : Client) : t :=
  {| max_connections := max_connections self;
     timeout := timeout self;
     recycle_interval := recycle_interval self;
     _pool := pool;
     _clients := clients;
     _client_created_times := created;
     _active_clients := active;
     metrics := metrics self;
     _failed_operations_count := _failed_operations_count self;
     _circuit_breaker_open := _circuit_breaker_open self;
     _circuit_breaker_opened_at := _circuit_breaker_opened_at self;
     _circuit_breaker_threshold := _circuit_breaker_threshold self;
     _circuit_breaker_timeout := _circuit_breaker_timeout self;
     next_client := next |}.

Definition set_metrics (self : t) (m : ConnectionMetrics) : t :=
  {| max_connections := max_connections self;
     timeout := timeout self;
     recycle_interval := recycle_interval self;
     _pool := _pool self;
     _clients := _clients self;
     _client_created_times := _client_created_times self;
     _active_clients := _active_clients self;
     metrics := m;
     _failed_operations_count := _failed_operations_count self;
     _circuit_breaker_open := _circuit_breaker_open self;
     _circuit_breaker_opened_at := _circuit_breaker_opened_at self;
     _circuit_breaker_threshold := _circuit_breaker_threshold self;
     _circuit_breaker_timeout := _circuit_breaker_timeout self;
     next_client := next_client self |}.

Definition add_total (m : ConnectionMetrics) (d : Z) : ConnectionMetrics :=
  Metrics (total_connections m + d) (active_connections m)
          (failed_connections m) (successful_operations m)
          (failed_operations m) (last_health_check m).

Definition add_active (m : ConnectionMetrics) (d : Z) : ConnectionMetrics :=
  Metrics (total_connections m) (active_connections m + d)
          (failed_connections m) (successful_operations m)
          (failed_operations m) (last_health_check m).

Definition add_successful (m : ConnectionMetrics) : ConnectionMetrics :=
  Metrics (total_connections m) (active_connections m)
          (failed_connections m) (successful_operations m + 1)
          (failed_operations m) (last_health_check m).

Definition add_failed (m : ConnectionMetrics) : ConnectionMetrics :=
  Metrics (total_connections m) (active_connections m)
          (failed_connections m) (successful_operations m)
          (failed_operations m + 1) (last_health_check m).

(** [list.remove(x)]: the first occurrence only. *)
Fixpoint list_remove (x : Client) (l : list Client) : list Client :=
  match l with
  | [] => []
  | y :: l' => if Nat.eqb y x then l' else y :: list_remove x l'
  end.

(** [x in l] *)
Definition list_mem (x : Client) (l : list Client) : bool :=
  existsb (Nat.eqb x) l.

(** [_create_client]: a fresh object; creation itself is taken to succeed. *)
Definition _create_client (self : t) : Client * t :=
  (next_client self,
   set_tracking self (_pool self) (_clients self)
     (_client_created_times self) (_active_clients self)
     (S (next_client self))).

(** [Queue.full()] *)
Definition pool_full (self : t) : bool :=
  if max_connections self <=? 0 then false
  else max_connections self <=? Z.of_nat (length (_pool self)).

(** [await self._pool.put(client)]; [None] when the queue is full, where
    the call waits for a consumer. *)
Definition pool_put (self : t) (client : Client) : option t :=
  if pool_full self then None
  else Some (set_tracking self (_pool self ++ [client]) (_clients self)
               (_client_created_times self) (_active_clients self)
               (next_client self)).

(** Readings of [time.time()] during one [get_client] call, in program
    order: the cooldown test, the creation stamp of a client made on
    pool timeout, the stamp taken when the breaker opens, the age test on
    release and the creation stamp of a recycled client. *)
Record clock : Type := Clock {
  t_gate : Z;
  t_created : Z;
  t_opened : Z;
  t_age : Z;
  t_recycled : Z
}.

(** What the [async with] block does with the client it is handed. *)
Inductive body : Type :=
| BodyReturns
| BodyRaises (msg : string).

Inductive yielded : Type :=
| Degraded                (* [GracefulDegradationClient(fallback_service)] *)
| Wrapped (c : Client)    (* [SuccessfulClientWrapper(client, ...)] *)
| Nothing.                (* raised before any [yield] *)

Inductive outcome : Type :=
| Returned
| Raised (msg : string).

(** Which arm after the [try] handled the operation: none (the call never
    got past the breaker test), the success lines after the [yield], or
    [except Exception]. *)
Inductive arm : Type :=
| NotTried
| Succeeded
| Failed.

Record result : Type := Result {
  yield : yielded;
  out : outcome;
  handled : arm;
  (** the [finally] block ran to its end *)
  released : bool;
  post : t
}.

(** Lines 357-367: the breaker test at the head of [get_client]. *)
Inductive gate_result : Type :=
| GDegraded
| GProceed (self : t)
| GTypeError.   (* [time.time() - None] *)

Definition gate (self : t) (now : Z) : gate_result :=
  if _circuit_breaker_open self then
    match _circuit_breaker_opened_at self with
    | Some opened_at =>
        if now - opened_at <? _circuit_breaker_timeout self then GDegraded
        else GProceed (set_breaker self 0 false (Some opened_at))
    | None => GTypeError
    end
  else GProceed self.

Definition pool_exhausted_message (self : t) : string :=
  "Connection pool exhausted (" ++ Py.str_of_int (max_connections self)
    ++ " connections)".

(** Lines 374-386: take the head of the queue; on an empty queue
    ([asyncio.TimeoutError] after [self.timeout]) create a client when
    under the ceiling, else raise.  [None] is the raise. *)
Definition acquire (self : t) (now : Z) : option Client * t :=
  match _pool self with
  | client :: rest =>
      (Some client,
       set_tracking self rest (_clients self) (_client_created_times self)
         (_active_clients self) (next_client self))
  | [] =>
      if Z.of_nat (length (_clients self)) <? max_connections self then
        let '(client, s1) := _create_client self in
        let s2 := set_tracking s1 (_pool s1) (_clients s1 ++ [client])
                    (<[client := now]> (_client_created_times s1))
                    (_active_clients s1) (next_client s1) in
        (Some client, set_metrics s2 (add_total (metrics s2) 1))
      else (None, self)
  end.

(** Lines 389-390. *)
Definition checkout (self : t) (client : Client) : t :=
  let s1 := set_tracking self (_pool self) (_clients self)
              (_client_created_times self)
              ({[client]} ∪ _active_clients self) (next_client self) in
  set_metrics s1 (add_active (metrics s1) 1).

(** Lines 394-396. *)
Definition on_success (self : t) : t :=
  let s1 := set_breaker self 0 (_circuit_breaker_open self)
              (_circuit_breaker_opened_at self) in
  set_metrics s1 (add_successful (metrics s1)).

(** Lines 398-410, the [except Exception] arm. *)
Definition on_failure (self : t) (now : Z) : t :=
  let count := _failed_operations_count self + 1 in
  let s1 := set_metrics self (add_failed (metrics self)) in
  if _circuit_breaker_threshold s1 <=? count then
    set_breaker s1 count true (Some now)
  else
    set_breaker s1 count (_circuit_breaker_open s1)
      (_circuit_breaker_opened_at s1).

(** [_should_recycle_client] *)
Definition _should_recycle_client (self : t) (client : Client) (now : Z)
  : bool :=
  match _client_created_times self !! client with
  | None => true
  | Some created => recycle_interval self <? now - created
  end.

(** [_recycle_client] (its [except] arm needs [create_client] to fail). *)
Definition _recycle_client (self : t) (client : Client) (now : Z)
  : option t :=
  let clients1 :=
    if list_mem client (_clients self) then list_remove client (_clients self)
    else _clients self in
  let s1 := set_tracking self (_pool self) clients1
              (base.delete client (_client_created_times self))
              (_active_clients self) (next_client self) in
  let '(new_client, s2) := _create_client s1 in
  let s3 := set_tracking s2 (_pool s2) (_clients s2 ++ [new_client])
              (<[new_client := now]> (_client_created_times s2))
              (_active_clients s2) (next_client s2) in
  pool_put s3 new_client.

(** Lines 412-431, the [finally] block for a client that was obtained. *)
Definition release (self : t) (client : Client) (clk : clock) : t * bool :=
  let s1 :=
    if bool_decide (client ∈ _active_clients self) then
      let s := set_tracking self (_pool self) (_clients self)
                 (_client_created_times self)
                 (_active_clients self ∖ {[client]}) (next_client self) in
      set_metrics s (add_active (metrics s) (-1))
    else self in
  let put :=
    if _should_recycle_client s1 client (t_age clk)
    then _recycle_client s1 client (t_recycled clk)
    else pool_put s1 client in
  match put with
  | Some s2 => (s2, true)
  | None => (s1, false)
  end.

Definition body_outcome (b : body) : outcome :=
  match b with
  | BodyReturns => Returned
  | BodyRaises msg => Raised msg
  end.

(** [get_client], entered and left once around [b]. *)
Definition get_client (self : t) (clk : clock) (b : body) : result :=
  match gate self (t_gate clk) with
  | GDegraded =>
      {| yield := Degraded; out := body_outcome b; handled := NotTried;
         released := true; post := self |}
  | GTypeError =>
      {| yield := Nothing; out := Raised "TypeError"; handled := NotTried;
         released := true; post := self |}
  | GProceed s0 =>
      match acquire s0 (t_created clk) with
      | (None, s1) =>
          {| yield := Nothing; out := Raised (pool_exhausted_message s1);
             handled := Failed; released := true;
             post := on_failure s1 (t_opened clk) |}
      | (Some client, s1) =>
          let s2 := checkout s1 client in
          let s3 := match b with
                    | BodyReturns => on_success s2
                    | BodyRaises _ => on_failure s2 (t_opened clk)
                    end in
          let '(s4, rel) := release s3 client clk in
          {| yield := Wrapped client; out := body_outcome b;
             handled := match b with
                        | BodyReturns => Succeeded
                        | BodyRaises _ => Failed
                        end;
             released := rel; post := s4 |}
      end
  end.

(** The attributes the circuit breaker consists of: consecutive-failure
    counter, open flag, opening stamp, threshold and cooldown. *)
Definition breaker_view (self : t) : Z * bool * option Z * Z * Z :=
  (_failed_operations_count self, _circuit_breaker_open self,
   _circuit_breaker_opened_at self, _circuit_breaker_threshold self,
   _circuit_breaker_timeout self).

(** A sequence of calls, one after the other. *)
Fixpoint run (self : t) (calls : list (clock * body)) : t :=
  match calls with
  | [] => self
  | (clk, b) :: calls' => run (post (get_client self clk b)) calls'
  end.

(** Every call of the sequence goes through the [except Exception] arm. *)
Fixpoint all_failed (self : t) (calls : list (clock * body)) : bool :=
  match calls with
  | [] => true
  | (clk, b) :: calls' =>
      let r := get_client self clk b in
      match handled r with
      | Failed => all_failed (post r) calls'
      | _ => false
      end
  end.

(** What the sequential use of the pool maintains: the queue holds each
    idle client once, every queued client is tracked, the tracked clients
    are no more than [max_connections], and the identity handed out next is
    new. *)
Definition pool_inv (self : t) : Prop :=
  NoDup (_pool self)
  ∧ (∀ c, c ∈ _pool self → c ∈ _clients self)
  ∧ Z.of_nat (length (_clients self)) <= Z.max 0 (max_connections self)
  ∧ (∀ c, c ∈ _clients self → (c < next_client self)%nat).

(** The body shared by the loops of [initialize] and [_check_pool_health]:
    create a client, track it, stamp it and put it on the queue.  [None]
    when the queue is full and the [put] waits. *)
Definition add_client (self : t) (now : Z) : option t :=
  let '(client, s1) := _create_client self in
  let s2 := set_tracking s1 (_pool s1) (_clients s1 ++ [client])
              (<[client := now]> (_client_created_times s1))
              (_active_clients s1) (next_client s1) in
  pool_put s2 client.

(** [n] rounds of a loop body that may wait for ever; [stamp i] is the
    clock reading of round [i]. *)
Fixpoint repeat_from (body : t → Z → option t) (stamp : nat → Z)
    (i n : nat) (self : t) : option t :=
  match n with
  | O => Some self
  | S n' =>
      match body self (stamp i) with
      | Some self' => repeat_from body stamp (S i) n' self'
      | None => None
      end
  end.

(** The pool together with its [_initialized] flag. *)
Record lifecycle : Type := Lifecycle {
  pool_of : t;
  _initialized : bool
}.

(** [initialize]; [None] when a [put] waits for ever. *)
Definition initialize (lc : lifecycle) (stamp : nat → Z) : option lifecycle :=
  if _initialized lc then Some lc
  else
    let n := Z.to_nat (Z.min 10 (max_connections (pool_of lc))) in
    match repeat_from add_client stamp 0 n (pool_of lc) with
    | Some s1 =>
        let m := metrics s1 in
        let s2 := set_metrics s1
                    (Metrics (Z.of_nat (length (_clients s1)))
                       (active_connections m) (failed_connections m)
                       (successful_operations m) (failed_operations m)
                       (last_health_check m)) in
        Some {| pool_of := s2; _initialized := true |}
    | None => None
    end.

(** [get_supabase_client], entered and left once around [b]. *)
Definition get_supabase_client (lc : lifecycle) (stamp : nat → Z)
    (clk : clock) (b : body) : option (result * lifecycle) :=
  match initialize lc stamp with
  | Some lc1 =>
      let r := get_client (pool_of lc1) clk b in
      Some (r, {| pool_of := post r; _initialized := _initialized lc1 |})
  | None => None
  end.



(** One round of the removal loop of [_cleanup_stale_connections]. *)
Definition drop_client (self : t) (client : Client) : t :=
  let clients1 :=
    if list_mem client (_clients self) then list_remove client (_clients self)
    else _clients self in
  let s1 := set_tracking self (_pool self) clients1
              (base.delete client (_client_created_times self))
              (_active_clients self) (next_client self) in
  set_metrics s1 (add_total (metrics s1) (-1)).

(** The clients [_cleanup_stale_connections] picks. *)
Definition stale_clients (self : t) (current_time : Z) : list Client :=
  (map_to_list
     (filter (λ kv : Client * Z,
                current_time - kv.2 > recycle_interval self
                ∧ kv.1 ∉ _active_clients self)
             (_client_created_times self))).*1.

(** [_cleanup_stale_connections] *)
Definition _cleanup_stale_connections (self : t) (current_time : Z) : t :=
  foldl drop_client self (stale_clients self current_time).

End SupabaseConnectionPool.

(* ===================================================================== *)
(** ** async_supabase.py: the connection tracker and error classes *)
(* ===================================================================== *)

Module ConnectionTracker.

(** [base_delay], a float read only by [get_retry_delay], is not part of
    the model. *)
Record t : Type := Make {
  failed_connections : Z;
  last_failure : option Z;
  max_retries : Z;
  failure_threshold : Z;
  throttle_duration : Z;
  retry_counts : gmap string Z;
  operation_timeouts : gmap string Z
}.

(** [__init__], for [settings.database_max_retries]. *)
Definition __init__ (database_max_retries : Z) : t :=
  {| failed_connections := 0;
     last_failure := None;
     max_retries := database_max_retries;
     failure_threshold := 5;
     throttle_duration := 30;
     retry_counts := ∅;
     operation_timeouts := ∅ |}.

(** Truth value of an [operation_id] argument ([None] or a string). *)
Definition id_given (operation_id : option string) : option string :=
  match operation_id with
  | Some s => if String.eqb s "" then None else Some s
  | None => None
  end.

(** [retry_counts.get(operation_id, 0)] *)
Definition retry_count (self : t) (operation_id : string) : Z :=
  default 0 (retry_counts self !! operation_id).

(** [record_failure] *)
Definition record_failure (self : t) (operation_id : option string)
    (now : Z) : t :=
  {| failed_connections := failed_connections self + 1;
     last_failure := Some now;
     max_retries := max_retries self;
     failure_threshold := failure_threshold self;
     throttle_duration := throttle_duration self;
     retry_counts :=
       match id_given operation_id with
       | Some op => <[op := retry_count self op + 1]> (retry_counts self)
       | None => retry_counts self
       end;
     operation_timeouts := operation_timeouts self |}.

(** [record_success] *)
Definition record_success (self : t) (operation_id : option string) : t :=
  {| failed_connections := Z.max 0 (failed_connections self - 1);
     last_failure := last_failure self;
     max_retries := max_retries self;
     failure_threshold := failure_threshold self;
     throttle_duration := throttle_duration self;
     retry_counts :=
       match id_given operation_id with
       | Some op => delete op (retry_counts self)
       | None => retry_counts self
       end;
     operation_timeouts := operation_timeouts self |}.

(** [should_throttle]; [self.last_failure] is tested for truth, so a
    reading of zero counts as absent. *)
Definition should_throttle (self : t) (now : Z) : bool :=
  match last_failure self with
  | Some lf =>
      if (failure_threshold self <? failed_connections self)
         && negb (lf =? 0)
      then now - lf <? throttle_duration self
      else false
  | None => false
  end.

(** [should_retry] *)
Definition should_retry (self : t) (operation_id : string)
    (error_type : option string) : bool :=
  let retry_count := retry_count self operation_id in
  if max_retries self <=? retry_count then false
  else
    match error_type with
    | Some e =>
        if negb (String.eqb e "")
           && Py.str_in e ["connection"; "timeout"; "pool_exhausted"]
        then true
        else retry_count <? max_retries self
    | None => retry_count <? max_retries self
    end.

(** [cleanup_old_operations] *)
Definition cleanup_old_operations (self : t) (current_time : Z) : t :=
  let old_operations :=
    (map_to_list
       (filter (λ kv : string * Z, current_time - kv.2 > 300)
               (operation_timeouts self))).*1 in
  {| failed_connections := failed_connections self;
     last_failure := last_failure self;
     max_retries := max_retries self;
     failure_threshold := failure_threshold self;
     throttle_duration := throttle_duration self;
     retry_counts := foldr delete (retry_counts self) old_operations;
     operation_timeouts := foldr delete (operation_timeouts self) old_operations |}.

(** The calls the rest of the program makes on the tracker. *)
Inductive op : Type :=
| RecordFailure (operation_id : option string) (now : Z)
| RecordSuccess (operation_id : option string)
| CleanupOldOperations (now : Z).

Definition step (self : t) (o : op) : t :=
  match o with
  | RecordFailure id now => record_failure self id now
  | RecordSuccess id => record_success self id
  | CleanupOldOperations now => cleanup_old_operations self now
  end.

Definition run (self : t) (ops : list op) : t := foldl step self ops.

End ConnectionTracker.

Module AsyncTable.

(** Lines 232-247 of [execute] (the same text is in [AsyncRPC.execute]):
    the class of an exception, from [str(e)]. *)
Definition classify_error (e : string) : option string :=
  let error_msg := Py.lower e in
  if existsb (fun phrase => Py.contains phrase error_msg)
       [ "resource temporarily unavailable";
         "connection reset";
         "connection terminated";
         "connection refused";
         "pool exhausted" ]
  then Some "connection"
  else if existsb (fun phrase => Py.contains phrase error_msg)
            [ "timeout"; "timed out" ]
  then Some "timeout"
  else if Py.contains "pool" error_msg && Py.contains "exhausted" error_msg
  then Some "pool_exhausted"
  else None.

(** A call of [connection_tracker.record_failure] with the given
    positional arguments.  The method is declared
    [record_failure(self, operation_id=None)]: with more than one argument
    Python raises [TypeError] before the body runs ([None]). *)
Definition call_record_failure (tracker : ConnectionTracker.t)
    (args : list (option string)) (now : Z) : option ConnectionTracker.t :=
  match args with
  | [] => Some (ConnectionTracker.record_failure tracker None now)
  | [operation_id] =>
      Some (ConnectionTracker.record_failure tracker operation_id now)
  | _ => None
  end.

(** How a call of [execute] ends. *)
Inductive ending : Type :=
| Result (r : option Live.api_response)   (* [return result] *)
| Reraised (msg : string)                 (* the query's own exception *)
| TypeError                               (* from the handler itself *)
| ReturnedNone                            (* the loop was never entered *)
| Pending.                                (* more attempts than were given *)

(** The retry loop of [execute] for the operation id drawn by
    [uuid.uuid4()]; each attempt is what the query does and the clock
    reading of its handler.  The throttle test and the sleeps change no
    state. *)
Fixpoint execute (tracker : ConnectionTracker.t) (operation_id : string)
    (attempts : list (Live.result * Z)) : ending * ConnectionTracker.t :=
  if ConnectionTracker.should_retry tracker operation_id None then
    match attempts with
    | [] => (Pending, tracker)
    | (Live.Returns r, _) :: _ =>
        (Result r, ConnectionTracker.record_success tracker (Some operation_id))
    | (Live.Raises e, now) :: rest =>
        let error_type := classify_error e in
        match call_record_failure tracker
                [Some operation_id; error_type] now with
        | None => (TypeError, tracker)
        | Some tracker1 =>
            if ConnectionTracker.should_retry tracker1 operation_id error_type
            then execute tracker1 operation_id rest
            else (Reraised e,
                  ConnectionTracker.record_success tracker1 (Some operation_id))
        end
    end
  else (ReturnedNone, tracker).

End AsyncTable.

(* ===================================================================== *)
(** ** redis_cache.py *)
(* ===================================================================== *)

(** The glob-style patterns of the Redis [KEYS] command, which
    [redis_client.keys(pattern)] is answered with: [*] any run of
    characters, [?] one character, [[...]] one character of a class (with
    [^] negation and [a-z] ranges), [\] takes the next character
    literally. *)
Module Glob.

Inductive class_item : Type :=
| CChar (c : ascii)
| CRange (lo hi : ascii).

Inductive token : Type :=
| TStar
| TAny
| TLit (c : ascii)
| TClass (negate : bool) (items : list class_item).

(** [mode] is [Some (negate, items)] while inside a class. *)
Fixpoint tokenize (mode : option (bool * list class_item)) (p : list ascii)
  : list token :=
  match p with
  | [] =>
      match mode with
      | None => []
      | Some (neg, items) => [TClass neg items]
      end
  | c :: p1 =>
      match mode with
      | None =>
          if Ascii.eqb c "*" then TStar :: tokenize None p1
          else if Ascii.eqb c "?" then TAny :: tokenize None p1
          else if Ascii.eqb c "[" then
            match p1 with
            | c2 :: p2 =>
                if Ascii.eqb c2 "^" then tokenize (Some (true, [])) p2
                else tokenize (Some (false, [])) p1
            | [] => tokenize (Some (false, [])) p1
            end
          else if Ascii.eqb c "\" then
            match p1 with
            | c2 :: p2 => TLit c2 :: tokenize None p2
            | [] => [TLit c]
            end
          else TLit c :: tokenize None p1
      | Some (neg, items) =>
          let literal := tokenize (Some (neg, (items ++ [CChar c])%list)) p1 in
          match p1 with
          | c2 :: p2 =>
              if Ascii.eqb c "\" then
                tokenize (Some (neg, (items ++ [CChar c2])%list)) p2
              else if Ascii.eqb c "]" then TClass neg items :: tokenize None p1
              else if Ascii.eqb c2 "-" then
                match p2 with
                | c3 :: p3 =>
                    tokenize (Some (neg, (items ++ [CRange c c3])%list)) p3
                | [] => literal
                end
              else literal
          | [] =>
              if Ascii.eqb c "]" then TClass neg items :: tokenize None p1
              else literal
          end
      end
  end.

Definition item_matches (c : ascii) (i : class_item) : bool :=
  match i with
  | CChar a => Ascii.eqb a c
  | CRange lo hi =>
      let '(lo, hi) := if Ascii.ltb hi lo then (hi, lo) else (lo, hi) in
      Ascii.leb lo c && Ascii.leb c hi
  end.

Fixpoint matches (ts : list token) (s : list ascii) {struct ts} : bool :=
  match ts with
  | [] => match s with [] => true | _ => false end
  | TStar :: ts' =>
      (fix star (s : list ascii) : bool :=
         matches ts' s
         || match s with
            | [] => false
            | _ :: s' => star s'
            end) s
  | TAny :: ts' =>
      match s with
      | [] => false
      | _ :: s' => matches ts' s'
      end
  | TLit c :: ts' =>
      match s with
      | [] => false
      | d :: s' => Ascii.eqb c d && matches ts' s'
      end
  | TClass neg items :: ts' =>
      match s with
      | [] => false
      | d :: s' => xorb neg (existsb (item_matches d) items) && matches ts' s'
      end
  end.

(** A character that stands for itself in a pattern. *)
Definition plain (c : ascii) : bool :=
  negb (Ascii.eqb c "*" || Ascii.eqb c "?" || Ascii.eqb c "["
        || Ascii.eqb c "\").

Definition glob (pattern key : string) : bool :=
  matches (tokenize None (String.list_ascii_of_string pattern))
          (String.list_ascii_of_string key).

End Glob.

Module RedisCacheService.

(** [redis_client] is [None] when Redis could not be reached at start-up;
    otherwise it is the key space, each key with its serialised value. *)
Record t : Type := Make {
  redis_client : option (gmap string string);
  default_ttl : Z
}.

(** [sorted(kwargs.items())]: insertion into a list ordered by key. *)
Fixpoint insert_sorted (kv : string * option string)
    (l : list (string * option string)) : list (string * option string) :=
  match l with
  | [] => [kv]
  | kv' :: l' =>
      if String.leb kv.1 kv'.1 then kv :: l else kv' :: insert_sorted kv l'
  end.

Definition sorted_items (kwargs : list (string * option string))
  : list (string * option string) :=
  foldr insert_sorted [] kwargs.

(** [_make_key]; a keyword value is given by its [str()] rendering, and
    [None] stands for the Python [None]. *)
Definition _make_key (prefix identifier : string) (tenant_id : option string)
    (kwargs : list (string * option string)) : string :=
  let key_parts := [prefix; identifier] in
  let key_parts :=
    match tenant_id with
    | Some tid =>
        if String.eqb tid "" then key_parts
        else (key_parts ++ [("tenant:" ++ tid)%string])%list
    | None => key_parts
    end in
  let key_parts :=
    (key_parts ++
      omap (fun kv : string * option string =>
              match kv.2 with
              | Some value => Some (kv.1 ++ ":" ++ value)%string
              | None => None
              end) (sorted_items kwargs))%list in
  String.concat ":" key_parts.

(** [redis_client.keys(pattern)] *)
Definition keys (db : gmap string string) (pattern : string) : list string :=
  List.filter (Glob.glob pattern) (map_to_list db).*1.

(** [redis_client.delete( *keys )]: the number of keys removed, and the
    key space afterwards. *)
Definition delete_keys (db : gmap string string) (ks : list string)
  : Z * gmap string string :=
  (Z.of_nat (length (List.filter (fun k => bool_decide (is_Some (db !! k))) ks)),
   foldr base.delete db ks).

(** [delete] *)
Definition delete (self : t) (key : string) : bool * t :=
  match redis_client self with
  | None => (false, self)
  | Some db =>
      let '(n, db') := delete_keys db [key] in
      (negb (n =? 0), {| redis_client := Some db'; default_ttl := default_ttl self |})
  end.

(** [delete_pattern] *)
Definition delete_pattern (self : t) (pattern : string) : Z * t :=
  match redis_client self with
  | None => (0, self)
  | Some db =>
      match keys db pattern with
      | [] => (0, self)
      | ks =>
          let '(n, db') := delete_keys db ks in
          (n, {| redis_client := Some db'; default_ttl := default_ttl self |})
      end
  end.

(** [exists] *)
Definition exists_ (self : t) (key : string) : bool :=
  match redis_client self with
  | None => false
  | Some db => bool_decide (is_Some (db !! key))
  end.

End RedisCacheService.

Module GuestPortalCache.

(** [invalidate_tenant_cache] *)
Definition invalidate_tenant_cache (cache : RedisCacheService.t)
    (tenant_id : string) : Z * RedisCacheService.t :=
  let pattern := "*:tenant:" ++ tenant_id ++ "*" in
  RedisCacheService.delete_pattern cache pattern.

(** [invalidate_template_portals] *)
Definition invalidate_template_portals (cache : RedisCacheService.t)
    (template_id tenant_id : string) : bool * RedisCacheService.t :=
  let pattern :=
    RedisCacheService._make_key "template_portals" template_id
      (Some tenant_id) [] ++ "*" in
  (true, (RedisCacheService.delete_pattern cache pattern).2).

(** [invalidate_portal_cache] *)
Definition invalidate_portal_cache (cache : RedisCacheService.t)
    (portal_token tenant_id : string) : bool * RedisCacheService.t :=
  let patterns :=
    [ RedisCacheService._make_key "portal_data" portal_token (Some tenant_id) [];
      RedisCacheService._make_key "orders" portal_token (Some tenant_id) [];
      RedisCacheService._make_key "precheckin_flow" portal_token
        (Some tenant_id) [] ] in
  (true,
   foldl (λ c pattern, (RedisCacheService.delete c pattern).2) cache patterns).

(** The keys of [get_templates], [get_verification_counts],
    [get_portal_data], [get_orders], [get_precheckin_flow] and
    [get_template_config]. *)
Definition templates_key (tenant_id : string) : string :=
  RedisCacheService._make_key "templates" "all" (Some tenant_id) [].

Definition verification_counts_key (tenant_id : string) : string :=
  RedisCacheService._make_key "verification_counts" "all" (Some tenant_id) [].

Definition portal_data_key (portal_token tenant_id : string) : string :=
  RedisCacheService._make_key "portal_data" portal_token (Some tenant_id) [].

Definition orders_key (portal_token tenant_id : string) : string :=
  RedisCacheService._make_key "orders" portal_token (Some tenant_id) [].

Definition precheckin_flow_key (portal_token tenant_id : string) : string :=
  RedisCacheService._make_key "precheckin_flow" portal_token
    (Some tenant_id) [].

Definition template_config_key (template_id tenant_id : string) : string :=
  RedisCacheService._make_key "template_config" template_id
    (Some tenant_id) [].

End GuestPortalCache.

(** The module-level key generators of [redis_cache.py]. *)
Definition make_templates_cache_key (tenant_id : string) : string :=
  "templates:all:tenant:" ++ tenant_id.

Definition make_portal_data_cache_key (portal_token tenant_id : string)
  : string :=
  "portal_data:" ++ portal_token ++ ":tenant:" ++ tenant_id.

Definition make_verification_counts_cache_key (tenant_id : string) : string :=
  "verification_counts:all:tenant:" ++ tenant_id.

Definition make_orders_cache_key (portal_token tenant_id : string) : string :=
  "orders:" ++ portal_token ++ ":tenant:" ++ tenant_id.

Definition make_precheckin_flow_cache_key (portal_token tenant_id : string)
  : string :=
  "precheckin_flow:" ++ portal_token ++ ":tenant:" ++ tenant_id.

Definition make_template_config_cache_key (template_id tenant_id : string)
  : string :=
  "template_config:" ++ template_id ++ ":tenant:" ++ tenant_id.


(* ===================================================================== *)
(** ** tenant_cache.py *)
(* ===================================================================== *)

Module TenantCache.
Import Py.

(** One entry of [self._cache]: [{'value': v, 'expires_at': t}]. *)
Record entry : Type := Entry {
  value : pyval;
  expires_at : Z
}.

Record t : Type := Make {
  _cache : gmap string entry;
  _default_ttl : Z
}.

Definition __init__ (default_ttl : Z) : t :=
  {| _cache := ∅; _default_ttl := default_ttl |}.

Definition set_store (self : t) (c : gmap string entry) : t :=
  {| _cache := c; _default_ttl := _default_ttl self |}.

(** [get]; the outer [None] is the Python [None] of a miss. *)
Definition get (self : t) (key : string) (now : Z) : option pyval * t :=
  match _cache self !! key with
  | None => (None, self)
  | Some e =>
      if expires_at e <? now
      then (None, set_store self (delete key (_cache self)))
      else (Some (value e), self)
  end.

(** [set]; [ttl] is [None] when the argument is left out. *)
Definition set (self : t) (key : string) (v : pyval) (ttl : option Z)
    (now : Z) : t :=
  let ttl := match ttl with Some n => n | None => _default_ttl self end in
  let expires_at := now + ttl in
  set_store self (<[key := Entry v expires_at]> (_cache self)).

(** [delete] *)
Definition delete (self : t) (key : string) : t :=
  set_store self (base.delete key (_cache self)).

(** [clear] *)
Definition clear (self : t) : t := set_store self ∅.

(** [clear_expired]: the number of entries cleared, and the cache. *)
Definition clear_expired (self : t) (current_time : Z) : Z * t :=
  let expired_keys :=
    (map_to_list
       (filter (λ kv : string * entry, expires_at kv.2 < current_time)
               (_cache self))).*1 in
  (Z.of_nat (length expired_keys),
   set_store self (foldr base.delete (_cache self) expired_keys)).

(** The dictionary [get_stats] returns. *)
Record stats : Type := Stats {
  total_entries : Z;
  expired_entries : Z;
  active_entries : Z
}.

(** [get_stats] *)
Definition get_stats (self : t) (current_time : Z) : stats :=
  let expired_count :=
    Z.of_nat (length (List.filter
                        (λ kv : string * entry, expires_at kv.2 <? current_time)
                        (map_to_list (_cache self)))) in
  {| total_entries := Z.of_nat (size (_cache self));
     expired_entries := expired_count;
     active_entries := Z.of_nat (size (_cache self)) - expired_count |}.

End TenantCache.

(* ===================================================================== *)
(** ** Scenarios *)
(* ===================================================================== *)

(** A pool of at most 20 clients at start-up, and ten operations in a row
    that raise. *)
Definition pool0 : SupabaseConnectionPool.t :=
  SupabaseConnectionPool.__init__ 20 5 3600 0.

Definition failing_call (now : Z)
  : SupabaseConnectionPool.clock * SupabaseConnectionPool.body :=
  (SupabaseConnectionPool.Clock now now now now now,
   SupabaseConnectionPool.BodyRaises "connection reset").

Definition ten_failures
  : list (SupabaseConnectionPool.clock * SupabaseConnectionPool.body) :=
  map failing_call [1; 2; 3; 4; 5; 6; 7; 8; 9; 10].

(** [pool0] one failure short of the threshold. *)
Definition pool_nine : SupabaseConnectionPool.t :=
  SupabaseConnectionPool.run pool0 (take 9 ten_failures).

(** The breaker of [pool0] after [ten_failures]: opened at time 10. *)
Definition pool_open : SupabaseConnectionPool.t :=
  SupabaseConnectionPool.run pool0 ten_failures.

Definition call_at (now : Z) : SupabaseConnectionPool.clock :=
  SupabaseConnectionPool.Clock now now now now now.

(** A pool whose ceiling is one client, that client being checked out by
    an operation still in progress. *)
Definition pool_busy : SupabaseConnectionPool.t :=
  let s := SupabaseConnectionPool.__init__ 1 5 3600 0 in
  match SupabaseConnectionPool.acquire s 0 with
  | (Some client, s1) => SupabaseConnectionPool.checkout s1 client
  | (None, s1) => s1
  end.

(** Two tenants, the id of the first a prefix of the id of the second, each
    with its cached templates list. *)
Definition two_tenants : RedisCacheService.t :=
  RedisCacheService.Make
    (Some (<[RedisCacheService._make_key "templates" "all" (Some "1") []
             := "[]"]>
           (<[RedisCacheService._make_key "templates" "all" (Some "12") []
               := "[]"]> ∅)))
    300.

(** A live select on [users], the rows it brings back, and a live update. *)
Definition live_users_query : CachingTableWrapper.t :=
  CachingTableWrapper.Make "users"
    [ ("select", Py.PTuple [Py.PStr "*"]);
      ("filters", Py.PList [Py.PTuple [Py.PStr "eq"; Py.PStr "id"; Py.PInt 7]]) ].

Definition live_users_rows : Live.api_response :=
  Live.Response (Py.PList [Py.PStr "row"]) None.

Definition live_users_update : CachingTableWrapper.t :=
  CachingTableWrapper.Make "users"
    [ ("filters", Py.PList [Py.PTuple [Py.PStr "eq"; Py.PStr "id"; Py.PInt 7]]) ].


(* ===================================================================== *)
(** * Properties *)
(* ===================================================================== *)

(** ** Dictionaries *)

Section DictFacts.
Import Py.

Lemma dict_get_set_same (d : pydict) (k : string) (v : pyval) :
  dict_get (dict_set d k v) k = Some v.
Proof.
  induction d as [|[k' v'] d IH]; simpl.
  - by rewrite String.eqb_refl.
  - destruct (String.eqb k' k) eqn:E; simpl; rewrite E; [done | apply IH].
Qed.

Lemma dict_get_set_other (d : pydict) (k k' : string) (v : pyval) :
  k ≠ k' → dict_get (dict_set d k v) k' = dict_get d k'.
Proof.
  intros Hne. induction d as [|[k0 v0] d IH]; simpl.
  - destruct (String.eqb k k') eqn:E; [|done].
    apply String.eqb_eq in E. contradiction.
  - destruct (String.eqb k0 k) eqn:E; simpl.
    + apply String.eqb_eq in E; subst k0.
      destruct (String.eqb k k') eqn:E'; [|done].
      apply String.eqb_eq in E'. contradiction.
    + destruct (String.eqb k0 k'); [done | apply IH].
Qed.

Lemma dict_mem_set_same (d : pydict) (k : string) (v : pyval) :
  dict_mem k (dict_set d k v) = true.
Proof. unfold dict_mem. by rewrite dict_get_set_same. Qed.

Lemma dict_mem_set_mono (d : pydict) (k k' : string) (v : pyval) :
  dict_mem k d = true → dict_mem k (dict_set d k' v) = true.
Proof.
  intros H. destruct (decide (k' = k)) as [->|Hne].
  - apply dict_mem_set_same.
  - unfold dict_mem in *. by rewrite dict_get_set_other.
Qed.

Lemma dict_set_nonempty (d : pydict) (k : string) (v : pyval) :
  dict_set d k v ≠ [].
Proof. destruct d as [|[k' v'] d]; simpl; [done|]. by destruct (String.eqb k' k). Qed.

End DictFacts.

(** ** The response fallback cache *)

Section FallbackCacheFacts.
Import Py CircuitBreakerFallback.

Lemma annotate_marker (d : pydict) (ts : Z) :
  dict_get (annotate d ts) "_fallback_cached" = Some (PBool true).
Proof.
  unfold annotate. rewrite dict_get_set_other by done. apply dict_get_set_same.
Qed.

Lemma annotate_cached_at (d : pydict) (ts : Z) :
  dict_get (annotate d ts) "_cached_at" = Some (PInt ts).
Proof. apply dict_get_set_same. Qed.

Lemma annotate_other (d : pydict) (ts : Z) (k : string) :
  k ≠ "_fallback_cached" → k ≠ "_cached_at" →
  dict_get (annotate d ts) k = dict_get d k.
Proof.
  intros H1 H2. unfold annotate. by rewrite !dict_get_set_other.
Qed.

Lemma get_cached_response_fresh (self : t) (k : string) (d : pydict)
    (ts now : Z) :
  cache self !! k = Some (CachedItem d ts) →
  now - ts < cache_ttl self →
  get_cached_response self k now
  = (Some (annotate d ts),
     set_cache self (<[k := CachedItem (annotate d ts) ts]> (cache self))).
Proof.
  intros Hk Hlt. unfold get_cached_response. rewrite Hk. simpl.
  destruct (Z.ltb_spec (now - ts) (cache_ttl self)); [done | lia].
Qed.

Lemma get_cached_response_expired (self : t) (k : string) (d : pydict)
    (ts now : Z) :
  cache self !! k = Some (CachedItem d ts) →
  cache_ttl self <= now - ts →
  get_cached_response self k now
  = (None, set_cache self (delete k (cache self))).
Proof.
  intros Hk Hge. unfold get_cached_response. rewrite Hk. simpl.
  destruct (Z.ltb_spec (now - ts) (cache_ttl self)); [lia | done].
Qed.

Lemma get_cached_response_absent (self : t) (k : string) (now : Z) :
  cache self !! k = None → get_cached_response self k now = (None, self).
Proof. intros Hk. unfold get_cached_response. by rewrite Hk. Qed.

(** C1, as the claim states it, fails: an entry captured at time 0 and read
    at time 300 (the default TTL) is not served; it is deleted. *)
Lemma expired_entry_is_dropped :
  let fs := cache_response __init__ "users"
              (PDict [("data", PList [PStr "row"])]) 0 in
  cache fs !! "users" = Some (CachedItem [("data", PList [PStr "row"])] 0)
  ∧ (get_cached_response fs "users" 300).1 = None
  ∧ cache (get_cached_response fs "users" 300).2 !! "users" = None.
Proof. vm_compute. done. Qed.

(** C1 (amended): TTL expiry is a hard cutoff.  An entry at least
    [cache_ttl] old makes [get_cached_response] return [None] and is
    removed from the cache; an entry younger than [cache_ttl] is returned,
    annotated with [_fallback_cached = True] and with [_cached_at] set to
    its capture timestamp, and keeps every other field. *)
Theorem get_cached_response_ttl (self : t) (k : string) (d : pydict)
    (ts now : Z) :
  cache self !! k = Some (CachedItem d ts) →
  (cache_ttl self <= now - ts →
     (get_cached_response self k now).1 = None
     ∧ cache (get_cached_response self k now).2 !! k = None)
  ∧ (now - ts < cache_ttl self →
     ∃ r, (get_cached_response self k now).1 = Some r
          ∧ dict_get r "_fallback_cached" = Some (PBool true)
          ∧ dict_get r "_cached_at" = Some (PInt ts)
          ∧ ∀ f, f ≠ "_fallback_cached" → f ≠ "_cached_at" →
                 dict_get r f = dict_get d f).
Proof.
  intros Hk. split; intros Hage.
  - rewrite (get_cached_response_expired self k d ts now Hk Hage). simpl.
    split; [done | apply lookup_delete_eq].
  - rewrite (get_cached_response_fresh self k d ts now Hk Hage). simpl.
    exists (annotate d ts).
    split; [done|]. split; [apply annotate_marker|].
    split; [apply annotate_cached_at|]. intros f. apply annotate_other.
Qed.

Lemma get_cached_response_ttl_witness :
  let fs := cache_response __init__ "users"
              (PDict [("data", PList [PStr "row"])]) 0 in
  ((get_cached_response fs "users" 300).1 = None
   ∧ cache (get_cached_response fs "users" 300).2 !! "users" = None)
  ∧ (∃ r, (get_cached_response fs "users" 299).1 = Some r
          ∧ dict_get r "_fallback_cached" = Some (PBool true)
          ∧ dict_get r "_cached_at" = Some (PInt 0)
          ∧ ∀ f, f ≠ "_fallback_cached" → f ≠ "_cached_at" →
                 dict_get r f = dict_get [("data", PList [PStr "row"])] f).
Proof.
  intros fs. split.
  - apply (get_cached_response_ttl fs "users"
             [("data", PList [PStr "row"])] 0 300); [reflexivity|].
    vm_compute. discriminate.
  - apply (get_cached_response_ttl fs "users"
             [("data", PList [PStr "row"])] 0 299); reflexivity.
Defined.

End FallbackCacheFacts.

Section FallbackCacheInvariant.
Import Py CircuitBreakerFallback.
Variable hash_json : pydict → Z.

Lemma flagged_annotate (d : pydict) (ts : Z) :
  flagged_with_error (annotate d ts) = flagged_with_error d.
Proof. unfold flagged_with_error. by rewrite annotate_other. Qed.

Lemma cache_response_error (self : t) (k : string) (d : pydict) (now : Z) :
  flagged_with_error d = true → cache_response self k (PDict d) now = self.
Proof. intros H. unfold cache_response. by rewrite H. Qed.

Lemma cache_response_ok (self : t) (k : string) (d : pydict) (now : Z) :
  flagged_with_error d = false →
  cache (cache_response self k (PDict d) now) !! k = Some (CachedItem d now).
Proof.
  intros H. unfold cache_response. rewrite H. simpl. apply lookup_insert_eq.
Qed.

Lemma cache_response_not_dict (self : t) (k : string) (r : pyval) (now : Z) :
  (∀ d, r ≠ PDict d) → cache_response self k r now = self.
Proof. intros H. destruct r; try done. by destruct (H d). Qed.

Lemma foldr_delete_Forall {A} (P : string → A → Prop) (m : gmap string A)
    (ks : list string) :
  map_Forall P m → map_Forall P (foldr delete m ks).
Proof.
  intros H. induction ks as [|k ks IH]; simpl; [done|].
  by apply map_Forall_delete.
Qed.

Lemma get_cached_response_error_free (self : t) (k : string) (now : Z) :
  error_free self → error_free (get_cached_response self k now).2.
Proof.
  unfold error_free. intros H. unfold get_cached_response.
  destruct (cache self !! k) as [[d ts]|] eqn:Hk; [|done]. simpl.
  destruct (now - ts <? cache_ttl self); simpl.
  - apply map_Forall_insert_2; [|done]. simpl. rewrite flagged_annotate.
    apply (map_Forall_lookup_1 _ _ _ _ H Hk).
  - by apply map_Forall_delete.
Qed.

Lemma get_fallback_response_state (self : t) (ot : string)
    (params : option pydict) (now : Z) :
  (get_fallback_response hash_json self ot params now).2
  = (get_cached_response self (_generate_cache_key hash_json ot params) now).2.
Proof.
  unfold get_fallback_response.
  destruct (get_cached_response self _ now) as [o self'].
  destruct o as [[|kv r]|]; simpl; repeat case_match; done.
Qed.

Lemma step_error_free (self : t) (o : op) :
  error_free self → error_free (step hash_json self o).
Proof.
  intros H. destruct o as [k now|k r now|ot params now| |now]; simpl.
  - by apply get_cached_response_error_free.
  - unfold cache_response. destruct r; try done.
    destruct (flagged_with_error d) eqn:E; simpl; [done|].
    by apply map_Forall_insert_2.
  - rewrite get_fallback_response_state. by apply get_cached_response_error_free.
  - apply map_Forall_empty.
  - by apply foldr_delete_Forall.
Qed.

Lemma run_error_free (self : t) (ops : list op) :
  error_free self → error_free (run hash_json self ops).
Proof.
  revert self. induction ops as [|o ops IH]; intros self H; simpl; [done|].
  apply IH. by apply step_error_free.
Qed.

(** C9: [cache_response] stores a response only when it is a dictionary
    without a truthy ['error'] field.  A dictionary whose ['error'] is
    truthy and a value that is no dictionary leave the cache as it was; a
    dictionary free of errors is stored under the key.  In particular, for
    every key without an entry, [cache_response(key, {"error": "x"})]
    followed by [get_cached_response(key)] returns [None] and the cache is
    still without that entry.  Over every sequence of calls from the empty
    service, no cached entry carries a truthy ['error']. *)
Theorem cache_response_only_stores_successes :
  (∀ self k d now,
     flagged_with_error d = true → cache_response self k (PDict d) now = self)
  ∧ (∀ self k r now, (∀ d, r ≠ PDict d) → cache_response self k r now = self)
  ∧ (∀ self k d now,
       flagged_with_error d = false →
       cache (cache_response self k (PDict d) now) !! k
       = Some (CachedItem d now))
  ∧ (∀ self k now now',
       cache self !! k = None →
       let self' := cache_response self k (PDict [("error", PStr "x")]) now in
       cache self' !! k = None
       ∧ get_cached_response self' k now' = (None, self'))
  ∧ (∀ ops, error_free (run hash_json __init__ ops)).
Proof.
  split; [apply cache_response_error|].
  split; [apply cache_response_not_dict|].
  split; [apply cache_response_ok|].
  split.
  - intros self k now now' Hk self'. subst self'.
    rewrite cache_response_error by done.
    split; [done | by apply get_cached_response_absent].
  - intros ops. apply run_error_free. apply map_Forall_empty.
Qed.

End FallbackCacheInvariant.

Lemma cache_response_only_stores_successes_witness :
  let self' :=
    CircuitBreakerFallback.cache_response CircuitBreakerFallback.__init__
      "users" (Py.PDict [("error", Py.PStr "x")]) 0 in
  CircuitBreakerFallback.cache self' !! "users" = None
  ∧ CircuitBreakerFallback.get_cached_response self' "users" 1 = (None, self').
Proof.
  apply (cache_response_only_stores_successes (λ _, 0)).
  reflexivity.
Defined.

(** ** The degraded client *)

Section DegradedFacts.
Import Py.

Lemma fallback_response_init (payload : pyval) :
  ∃ l, FallbackResponse.data (FallbackResponse.__init__ payload) = PList l
       ∧ FallbackResponse.count (FallbackResponse.__init__ payload)
         = Z.of_nat (length l)
       ∧ (∀ l', payload = PList l' → l = l')
       ∧ (is_list payload = false → truthy payload = true → l = [payload])
       ∧ (is_list payload = false → truthy payload = false → l = []).
Proof.
  unfold FallbackResponse.__init__.
  destruct (is_list payload) eqn:Hl.
  - destruct payload; try discriminate. exists l. simpl.
    repeat split; try done. by intros l' [= ->].
  - destruct (truthy payload) eqn:Ht.
    + exists [payload]. simpl. repeat split; try done.
      intros l' ->. discriminate.
    + exists []. simpl. repeat split; try done.
      intros l' ->. discriminate.
Qed.

Lemma fallback_response_of_dict (d : pydict) :
  d ≠ [] →
  FallbackResponse.__init__ (PDict d)
  = FallbackResponse.Make (PList [PDict d]) 1 true.
Proof. destruct d; [done|]. reflexivity. Qed.

Lemma get_fallback_response_nonempty (hash_json : pydict → Z)
    (fs : CircuitBreakerFallback.t) (ot : string) (params : option pydict)
    (now : Z) :
  (CircuitBreakerFallback.get_fallback_response hash_json fs ot params now).1
  ≠ [].
Proof.
  unfold CircuitBreakerFallback.get_fallback_response.
  destruct (CircuitBreakerFallback.get_cached_response fs _ now)
    as [o self'].
  destruct o as [[|kv r]|]; simpl; repeat case_match; simpl; discriminate.
Qed.

Lemma table_execute_shape (hash_json : pydict → Z)
    (tbl : GracefulDegradationTable.t) (fs : CircuitBreakerFallback.t)
    (now : Z) :
  ∃ d, (GracefulDegradationTable.execute hash_json tbl fs now).1
       = FallbackResponse.Make (PList [PDict d]) 1 true.
Proof.
  unfold GracefulDegradationTable.execute.
  destruct (GracefulDegradationTable.is_write tbl).
  - eexists. simpl. reflexivity.
  - pose proof (get_fallback_response_nonempty hash_json fs
                  (GracefulDegradationTable.table_name tbl)
                  (Some (GracefulDegradationTable.query_params tbl)) now) as Hne.
    destruct (CircuitBreakerFallback.get_fallback_response _ _ _ _ _)
      as [r fs']. simpl in *. exists r. by apply fallback_response_of_dict.
Qed.

Lemma rpc_execute_shape (hash_json : pydict → Z)
    (q : GracefulDegradationRPC.t) (fs : CircuitBreakerFallback.t) (now : Z) :
  ∃ d, (GracefulDegradationRPC.execute hash_json q fs now).1
       = FallbackResponse.Make (PList [PDict d]) 1 true.
Proof.
  unfold GracefulDegradationRPC.execute.
  pose proof (get_fallback_response_nonempty hash_json fs
                ("rpc_" ++ GracefulDegradationRPC.function_name q)
                (Some (GracefulDegradationRPC.params q)) now) as Hne.
  destruct (CircuitBreakerFallback.get_fallback_response _ _ _ _ _)
    as [r fs']. simpl in *. exists r. by apply fallback_response_of_dict.
Qed.

(** C10: the [data] attribute of every [FallbackResponse] is a list: a list
    payload is kept as it is, any other truthy payload is wrapped as a
    one-element list, any other falsy payload becomes the empty list, and
    [count] is the length of that list.  So every response of the degraded
    client (table, RPC, auth, storage) is list-shaped; their dictionary
    payloads are each wrapped as the single element of a list. *)
Theorem fallback_response_data_is_list :
  (∀ payload,
     ∃ l, FallbackResponse.data (FallbackResponse.__init__ payload) = PList l
          ∧ FallbackResponse.count (FallbackResponse.__init__ payload)
            = Z.of_nat (length l)
          ∧ (∀ l', payload = PList l' → l = l')
          ∧ (is_list payload = false → truthy payload = true → l = [payload])
          ∧ (is_list payload = false → truthy payload = false → l = []))
  ∧ (∀ hash_json tbl fs now,
       ∃ d, (GracefulDegradationTable.execute hash_json tbl fs now).1
            = FallbackResponse.Make (PList [PDict d]) 1 true)
  ∧ (∀ hash_json q fs now,
       ∃ d, (GracefulDegradationRPC.execute hash_json q fs now).1
            = FallbackResponse.Make (PList [PDict d]) 1 true)
  ∧ (∃ d, GracefulDegradationAuth.sign_in_with_password
          = FallbackResponse.Make (PList [PDict d]) 1 true)
  ∧ (∃ d, GracefulDegradationStorage.upload
          = FallbackResponse.Make (PList [PDict d]) 1 true).
Proof.
  split; [apply fallback_response_init|].
  split; [apply table_execute_shape|].
  split; [apply rpc_execute_shape|].
  split; eexists; reflexivity.
Qed.

Lemma fallback_response_data_is_list_witness :
  ∃ l, FallbackResponse.data
         (FallbackResponse.__init__ (PDict [("status", PStr "degraded")]))
       = PList l
       ∧ l = [PDict [("status", PStr "degraded")]]
       ∧ FallbackResponse.count
           (FallbackResponse.__init__ (PDict [("status", PStr "degraded")]))
         = 1.
Proof.
  destruct (proj1 fallback_response_data_is_list
              (PDict [("status", PStr "degraded")]))
    as (l & Hd & Hc & _ & Hwrap & _).
  exists l. split; [exact Hd|].
  assert (Hl : l = [PDict [("status", PStr "degraded")]])
    by (apply Hwrap; reflexivity).
  split; [exact Hl|]. rewrite Hc, Hl. reflexivity.
Defined.


Lemma is_write_set_param (tbl : GracefulDegradationTable.t) (k : string)
    (v : pyval) :
  GracefulDegradationTable.is_write tbl = true →
  GracefulDegradationTable.is_write
    (GracefulDegradationTable.set_param tbl k v) = true.
Proof.
  unfold GracefulDegradationTable.is_write. simpl.
  rewrite !orb_false_r, !orb_true_iff.
  intros [H|[H|H]]; [left | right; left | right; right];
    by apply dict_mem_set_mono.
Qed.

Lemma is_write_set_param_key (tbl : GracefulDegradationTable.t) (k : string)
    (v : pyval) :
  k ∈ ["insert"; "update"; "delete"] →
  GracefulDegradationTable.is_write
    (GracefulDegradationTable.set_param tbl k v) = true.
Proof.
  intros Hk. unfold GracefulDegradationTable.is_write. simpl.
  rewrite !orb_false_r, !orb_true_iff.
  rewrite !elem_of_cons in Hk. destruct Hk as [->|[->|[->|Hk]]].
  - left. apply dict_mem_set_same.
  - right; left. apply dict_mem_set_same.
  - right; right. apply dict_mem_set_same.
  - by apply elem_of_nil in Hk.
Qed.

Lemma eq_inv (tbl tbl' : GracefulDegradationTable.t) (column value : pyval) :
  GracefulDegradationTable.eq tbl column value = Some tbl' →
  ∃ tbl1 l, tbl' = GracefulDegradationTable.set_param tbl1 "filters" (PList l)
            ∧ (tbl1 = tbl
               ∨ tbl1 = GracefulDegradationTable.set_param tbl "filters"
                          (PList [])).
Proof.
  unfold GracefulDegradationTable.eq.
  destruct (negb (dict_mem "filters" (GracefulDegradationTable.query_params tbl)));
    repeat case_match; intros [= <-]; eauto.
Qed.

Lemma apply_call_is_write (tbl tbl' : GracefulDegradationTable.t)
    (c : GracefulDegradationTable.call) :
  GracefulDegradationTable.apply_call tbl c = Some tbl' →
  GracefulDegradationTable.is_write tbl = true
  ∨ GracefulDegradationTable.is_write_call c = true →
  GracefulDegradationTable.is_write tbl' = true.
Proof.
  intros Hc Hw. destruct c; simpl in *.
  all: try (injection Hc as <-).
  all: try (destruct Hw as [Hw|Hw]; [by apply is_write_set_param | done]).
  - destruct Hw as [Hw|_]; [by apply is_write_set_param|].
    apply is_write_set_param_key. set_solver.
  - destruct Hw as [Hw|_]; [by apply is_write_set_param|].
    apply is_write_set_param_key. set_solver.
  - destruct Hw as [Hw|_]; [by apply is_write_set_param|].
    apply is_write_set_param_key. set_solver.
  - destruct Hw as [Hw|Hw]; [|done].
    apply eq_inv in Hc as (tbl1 & l & -> & [->| ->]);
      repeat apply is_write_set_param; done.
Qed.

Lemma chain_is_write (cs : list GracefulDegradationTable.call)
    (tbl tbl' : GracefulDegradationTable.t) :
  GracefulDegradationTable.chain tbl cs = Some tbl' →
  GracefulDegradationTable.is_write tbl = true
  ∨ existsb GracefulDegradationTable.is_write_call cs = true →
  GracefulDegradationTable.is_write tbl' = true.
Proof.
  revert tbl. induction cs as [|c cs IH]; intros tbl; simpl.
  - intros [= <-] [H|H]; done.
  - destruct (GracefulDegradationTable.apply_call tbl c) as [tbl1|] eqn:Hc;
      [|done].
    intros Hch Hw. apply (IH tbl1 Hch).
    rewrite orb_true_iff in Hw.
    destruct Hw as [Hw|[Hw|Hw]]; [left | left | by right];
      apply (apply_call_is_write tbl tbl1 c Hc); auto.
Qed.

Lemma filters_ok_set_param (tbl : GracefulDegradationTable.t) (k : string)
    (v : pyval) :
  k ≠ "filters" →
  GracefulDegradationTable.filters_ok tbl →
  GracefulDegradationTable.filters_ok
    (GracefulDegradationTable.set_param tbl k v).
Proof.
  intros Hk. unfold GracefulDegradationTable.filters_ok. simpl.
  by rewrite dict_get_set_other.
Qed.

Lemma filters_ok_set_filters (tbl : GracefulDegradationTable.t)
    (l : list pyval) :
  GracefulDegradationTable.filters_ok
    (GracefulDegradationTable.set_param tbl "filters" (PList l)).
Proof.
  unfold GracefulDegradationTable.filters_ok. simpl.
  by rewrite dict_get_set_same.
Qed.

Lemma apply_call_total (tbl : GracefulDegradationTable.t)
    (c : GracefulDegradationTable.call) :
  GracefulDegradationTable.filters_ok tbl →
  ∃ tbl', GracefulDegradationTable.apply_call tbl c = Some tbl'
          ∧ GracefulDegradationTable.filters_ok tbl'.
Proof.
  intros Hok. destruct c; simpl;
    try (eexists; split; [reflexivity | by apply filters_ok_set_param]).
  unfold GracefulDegradationTable.eq.
  unfold GracefulDegradationTable.filters_ok in Hok.
  unfold dict_mem.
  destruct (dict_get (GracefulDegradationTable.query_params tbl) "filters")
    as [v|] eqn:Hf; simpl.
  - rewrite Hf. destruct v; try done.
    eexists; split; [reflexivity | apply filters_ok_set_filters].
  - rewrite dict_get_set_same.
    eexists; split; [reflexivity | apply filters_ok_set_filters].
Qed.

Lemma chain_total (cs : list GracefulDegradationTable.call)
    (tbl : GracefulDegradationTable.t) :
  GracefulDegradationTable.filters_ok tbl →
  ∃ tbl', GracefulDegradationTable.chain tbl cs = Some tbl'.
Proof.
  revert tbl. induction cs as [|c cs IH]; intros tbl Hok; simpl; [eauto|].
  destruct (apply_call_total tbl c Hok) as (tbl1 & -> & Hok1). by apply IH.
Qed.

Lemma execute_write (hash_json : pydict → Z)
    (tbl : GracefulDegradationTable.t) (fs : CircuitBreakerFallback.t)
    (now : Z) :
  GracefulDegradationTable.is_write tbl = true →
  GracefulDegradationTable.execute hash_json tbl fs now
  = (FallbackResponse.Make
       (PList [PDict GracefulDegradationTable.write_unavailable]) 1 true, fs).
Proof. intros H. unfold GracefulDegradationTable.execute. by rewrite H. Qed.

(** C4: on the degraded client, a table query whose parameters contain
    ['insert'], ['update'] or ['delete'] answers [execute] with the
    write-unavailable payload: its ['error'] is the message that write
    operations are temporarily unavailable (a truthy value, so the answer
    is not a success), ['fallback'] is [True] and ['retry_after'] is 60.
    The fallback cache is left as it was.  Every chain of builder calls
    from [client.table(name)] with an insert, update or delete among them
    builds such a query. *)
Theorem degraded_write_is_refused :
  (∀ hash_json tbl fs now,
     GracefulDegradationTable.is_write tbl = true →
     GracefulDegradationTable.execute hash_json tbl fs now
     = (FallbackResponse.Make
          (PList [PDict GracefulDegradationTable.write_unavailable]) 1 true,
        fs))
  ∧ (∀ name cs,
       existsb GracefulDegradationTable.is_write_call cs = true →
       ∃ tbl, GracefulDegradationTable.chain
                (GracefulDegradationClient.table name) cs = Some tbl
              ∧ GracefulDegradationTable.is_write tbl = true)
  ∧ dict_get GracefulDegradationTable.write_unavailable "error"
    = Some (PStr "Write operations temporarily unavailable")
  ∧ truthy (PStr "Write operations temporarily unavailable") = true
  ∧ dict_get GracefulDegradationTable.write_unavailable "fallback"
    = Some (PBool true)
  ∧ dict_get GracefulDegradationTable.write_unavailable "retry_after"
    = Some (PInt 60).
Proof.
  split; [apply execute_write|].
  split; [|by repeat split].
  intros name cs Hw.
  destruct (chain_total cs (GracefulDegradationClient.table name))
    as [tbl Htbl]; [done|].
  exists tbl. split; [done|].
  apply (chain_is_write cs _ tbl Htbl). by right.
Qed.

Lemma degraded_write_is_refused_witness :
  ∃ tbl,
    GracefulDegradationTable.chain (GracefulDegradationClient.table "users")
      [ GracefulDegradationTable.Update (PDict [("name", PStr "n")]);
        GracefulDegradationTable.Eq (PStr "id") (PInt 7) ]
    = Some tbl
    ∧ GracefulDegradationTable.execute (λ _, 0) tbl
        CircuitBreakerFallback.__init__ 5
      = (FallbackResponse.Make
           (PList [PDict GracefulDegradationTable.write_unavailable]) 1 true,
         CircuitBreakerFallback.__init__).
Proof.
  destruct degraded_write_is_refused as (Hexec & Hchain & _).
  destruct (Hchain "users"
              [ GracefulDegradationTable.Update (PDict [("name", PStr "n")]);
                GracefulDegradationTable.Eq (PStr "id") (PInt 7) ])
    as (tbl & Htbl & Hw); [reflexivity|].
  exists tbl. split; [exact Htbl|]. apply Hexec. exact Hw.
Defined.

End DegradedFacts.

(** ** The pool and its circuit breaker *)

Section PoolFacts.
Import SupabaseConnectionPool.

Lemma release_breaker_view (s : t) (c : Client) (clk : clock) :
  breaker_view (release s c clk).1 = breaker_view s.
Proof.
  unfold release, _recycle_client, pool_put, _create_client.
  repeat case_match; simplify_eq; reflexivity.
Qed.

Lemma acquire_breaker_view (s : t) (now : Z) :
  breaker_view (acquire s now).2 = breaker_view s.
Proof.
  unfold acquire, _create_client. repeat case_match; simplify_eq; reflexivity.
Qed.

Lemma on_failure_breaker_view (s : t) (now : Z) :
  breaker_view (on_failure s now)
  = if _circuit_breaker_threshold s <=? _failed_operations_count s + 1
    then (_failed_operations_count s + 1, true, Some now,
          _circuit_breaker_threshold s, _circuit_breaker_timeout s)
    else (_failed_operations_count s + 1, _circuit_breaker_open s,
          _circuit_breaker_opened_at s,
          _circuit_breaker_threshold s, _circuit_breaker_timeout s).
Proof. unfold on_failure. simpl. by case_match. Qed.

(** A call that gets past the breaker test from state [s0]. *)
Lemma get_client_proceed (s s0 : t) (clk : clock) (b : body) :
  gate s (t_gate clk) = GProceed s0 →
  let r := get_client s clk b in
  yield r ≠ Degraded
  ∧ (handled r = Failed
     ∧ breaker_view (post r) = breaker_view (on_failure s0 (t_opened clk))
     ∨ handled r = Succeeded
       ∧ breaker_view (post r)
         = (0, _circuit_breaker_open s0, _circuit_breaker_opened_at s0,
            _circuit_breaker_threshold s0, _circuit_breaker_timeout s0)).
Proof.
  intros Hg. unfold get_client. rewrite Hg.
  pose proof (acquire_breaker_view s0 (t_created clk)) as Hacq.
  destruct (acquire s0 (t_created clk)) as [[client|] s1]; simpl in *.
  - pose proof (release_breaker_view
                  (match b with
                   | BodyReturns => on_success (checkout s1 client)
                   | BodyRaises _ => on_failure (checkout s1 client) (t_opened clk)
                   end) client clk) as Hrel.
    destruct (release _ client clk) as [s4 rel]. simpl in *.
    split; [done|]. rewrite Hrel. destruct b.
    + right. split; [done|]. unfold breaker_view in *. simpl. congruence.
    + left. split; [done|]. rewrite !on_failure_breaker_view.
      unfold breaker_view in *. simpl.
      injection Hacq as -> -> -> -> ->. done.
  - split; [done|]. left. split; [done|].
    rewrite !on_failure_breaker_view. unfold breaker_view in *.
    injection Hacq as -> -> -> -> ->. done.
Qed.

Lemma gate_closed (s : t) (now : Z) :
  _circuit_breaker_open s = false → gate s now = GProceed s.
Proof. intros H. unfold gate. by rewrite H. Qed.

Lemma gate_open_within (s : t) (t0 now : Z) :
  _circuit_breaker_open s = true →
  _circuit_breaker_opened_at s = Some t0 →
  now - t0 < _circuit_breaker_timeout s →
  gate s now = GDegraded.
Proof.
  intros Ho Ht Hlt. unfold gate. rewrite Ho, Ht.
  destruct (Z.ltb_spec (now - t0) (_circuit_breaker_timeout s)); [done | lia].
Qed.

Lemma gate_open_elapsed (s : t) (t0 now : Z) :
  _circuit_breaker_open s = true →
  _circuit_breaker_opened_at s = Some t0 →
  _circuit_breaker_timeout s <= now - t0 →
  gate s now = GProceed (set_breaker s 0 false (Some t0)).
Proof.
  intros Ho Ht Hge. unfold gate. rewrite Ho, Ht.
  destruct (Z.ltb_spec (now - t0) (_circuit_breaker_timeout s)); [lia | done].
Qed.

Lemma get_client_degraded (s : t) (clk : clock) (b : body) :
  gate s (t_gate clk) = GDegraded →
  get_client s clk b = Result Degraded (body_outcome b) NotTried true s.
Proof. intros Hg. unfold get_client. by rewrite Hg. Qed.

(** One failing call on a closed breaker. *)
Lemma failed_call_closed (s : t) (clk : clock) (b : body) :
  _circuit_breaker_open s = false →
  handled (get_client s clk b) = Failed →
  breaker_view (post (get_client s clk b))
  = if _circuit_breaker_threshold s <=? _failed_operations_count s + 1
    then (_failed_operations_count s + 1, true, Some (t_opened clk),
          _circuit_breaker_threshold s, _circuit_breaker_timeout s)
    else (_failed_operations_count s + 1, false,
          _circuit_breaker_opened_at s,
          _circuit_breaker_threshold s, _circuit_breaker_timeout s).
Proof.
  intros Ho Hf.
  destruct (get_client_proceed s s clk b (gate_closed s _ Ho))
    as [_ [[_ Hv]|[Hs _]]].
  - rewrite Hv, on_failure_breaker_view. by rewrite Ho.
  - congruence.
Qed.

(** Failures below the threshold leave the breaker closed and are counted. *)
Lemma run_failures_below (calls : list (clock * body)) (s : t) :
  _circuit_breaker_open s = false →
  all_failed s calls = true →
  _failed_operations_count s + Z.of_nat (length calls)
    < _circuit_breaker_threshold s →
  breaker_view (run s calls)
  = (_failed_operations_count s + Z.of_nat (length calls), false,
     _circuit_breaker_opened_at s, _circuit_breaker_threshold s,
     _circuit_breaker_timeout s).
Proof.
  revert s. induction calls as [|[clk b] calls IH]; intros s Ho Hall Hlt.
  - simpl. unfold breaker_view. rewrite Ho. do 4 f_equal. lia.
  - simpl in Hall. simpl run.
    destruct (handled (get_client s clk b)) eqn:Hh; try done.
    pose proof (failed_call_closed s clk b Ho Hh) as Hv.
    rewrite length_cons, Nat2Z.inj_succ in Hlt.
    destruct (Z.leb_spec (_circuit_breaker_threshold s)
                (_failed_operations_count s + 1)); [lia|].
    unfold breaker_view in Hv. simplify_eq.
    rewrite IH; [| done | done | lia].
    rewrite length_cons, Nat2Z.inj_succ.
    repeat match goal with H : _ = _ |- _ => rewrite H end.
    do 4 f_equal. lia.
Qed.

(** The failure that reaches the threshold opens the breaker. *)
Lemma run_failures_reach (calls : list (clock * body)) (s : t) :
  _circuit_breaker_open s = false →
  all_failed s calls = true →
  calls ≠ [] →
  _failed_operations_count s + Z.of_nat (length calls)
    = _circuit_breaker_threshold s →
  ∃ t0, breaker_view (run s calls)
        = (_circuit_breaker_threshold s, true, Some t0,
           _circuit_breaker_threshold s, _circuit_breaker_timeout s).
Proof.
  revert s. induction calls as [|[clk b] calls IH]; intros s Ho Hall Hne Heq;
    [done|].
  simpl in Hall. simpl run.
  destruct (handled (get_client s clk b)) eqn:Hh; try done.
  pose proof (failed_call_closed s clk b Ho Hh) as Hv.
  rewrite length_cons, Nat2Z.inj_succ in Heq.
  destruct calls as [|c calls].
  - simpl in *.
    destruct (Z.leb_spec (_circuit_breaker_threshold s)
                (_failed_operations_count s + 1)); [|lia].
    exists (t_opened clk). rewrite Hv. do 4 f_equal. lia.
  - destruct (Z.leb_spec (_circuit_breaker_threshold s)
                (_failed_operations_count s + 1)).
    { rewrite length_cons, Nat2Z.inj_succ in Heq. lia. }
    unfold breaker_view in Hv. simplify_eq.
    destruct (IH (post (get_client s clk b))) as [t0 Ht0]; [done|done|done|lia|].
    exists t0. rewrite Ht0.
    repeat match goal with H : _ = _ |- _ => rewrite H end. done.
Qed.


Lemma successful_call (s : t) (clk : clock) (b : body) :
  handled (get_client s clk b) = Succeeded →
  _failed_operations_count (post (get_client s clk b)) = 0
  ∧ _circuit_breaker_open (post (get_client s clk b)) = false
  ∧ _circuit_breaker_threshold (post (get_client s clk b))
    = _circuit_breaker_threshold s
  ∧ _circuit_breaker_timeout (post (get_client s clk b))
    = _circuit_breaker_timeout s.
Proof.
  intros Hs. destruct (gate s (t_gate clk)) as [|s0|] eqn:Hg.
  - rewrite get_client_degraded in Hs by done. done.
  - destruct (get_client_proceed s s0 clk b Hg) as [_ [[Hf _]|[_ Hv]]];
      [congruence|].
    unfold breaker_view in Hv. injection Hv as -> -> _ -> ->.
    unfold gate in Hg. repeat case_match; simplify_eq; done.
  - unfold get_client in Hs. by rewrite Hg in Hs.
Qed.

Lemma failures_from_zero (s : t) (calls : list (clock * body)) :
  _circuit_breaker_threshold s = 10 →
  _circuit_breaker_open s = false →
  _failed_operations_count s = 0 →
  all_failed s calls = true →
  ((length calls < 10)%nat →
     _circuit_breaker_open (run s calls) = false
     ∧ _failed_operations_count (run s calls) = Z.of_nat (length calls))
  ∧ (length calls = 10%nat →
     _circuit_breaker_open (run s calls) = true
     ∧ ∃ t0, _circuit_breaker_opened_at (run s calls) = Some t0
             ∧ ∀ clk b,
                 t_gate clk - t0 < _circuit_breaker_timeout (run s calls) →
                 yield (get_client (run s calls) clk b) = Degraded
                 ∧ post (get_client (run s calls) clk b) = run s calls).
Proof.
  intros HT Ho Hc Hall. split; intros Hlen.
  - pose proof (run_failures_below calls s Ho Hall) as Hv.
    rewrite Hc, HT in Hv. specialize (Hv ltac:(lia)).
    unfold breaker_view in Hv. injection Hv as -> -> _ _ _. done.
  - destruct (run_failures_reach calls s Ho Hall) as [t0 Hv].
    { intros ->. done. }
    { rewrite Hc, HT, Hlen. done. }
    unfold breaker_view in Hv. injection Hv as Hcnt Hopen Hat _ Hto.
    split; [done|]. exists t0. split; [done|]. intros clk b Hlt.
    rewrite (get_client_degraded _ clk b); [done|].
    by apply (gate_open_within _ t0).
Qed.

(** C2: with the threshold at 10 and the breaker closed with a zeroed
    counter, a run of consecutive failed operations through [get_client]
    keeps the breaker closed (and counts them) as long as there are fewer
    than 10; the 10th opens it, and the next [get_client] call within the
    cooldown yields the degraded client and touches nothing.  A successful
    operation, whatever the counter was, leaves the breaker closed with the
    counter at 0: of the failed operations that follow it, fewer than 10
    leave the breaker closed and the 10th opens it. *)
Theorem breaker_opens_at_ten_failures (s : t) :
  _circuit_breaker_threshold s = 10 →
  (∀ calls,
     _circuit_breaker_open s = false →
     _failed_operations_count s = 0 →
     all_failed s calls = true →
     ((length calls < 10)%nat →
        _circuit_breaker_open (run s calls) = false
        ∧ _failed_operations_count (run s calls) = Z.of_nat (length calls))
     ∧ (length calls = 10%nat →
        _circuit_breaker_open (run s calls) = true
        ∧ ∃ t0, _circuit_breaker_opened_at (run s calls) = Some t0
                ∧ ∀ clk b,
                    t_gate clk - t0 < _circuit_breaker_timeout (run s calls) →
                    yield (get_client (run s calls) clk b) = Degraded
                    ∧ post (get_client (run s calls) clk b) = run s calls))
  ∧ (∀ clk b,
       handled (get_client s clk b) = Succeeded →
       _failed_operations_count (post (get_client s clk b)) = 0
       ∧ _circuit_breaker_open (post (get_client s clk b)) = false
       ∧ ∀ calls,
           all_failed (post (get_client s clk b)) calls = true →
           ((length calls < 10)%nat →
              _circuit_breaker_open
                (run (post (get_client s clk b)) calls) = false)
           ∧ (length calls = 10%nat →
              _circuit_breaker_open
                (run (post (get_client s clk b)) calls) = true)).
Proof.
  intros HT. split.
  - intros calls. by apply failures_from_zero.
  - intros clk b Hs.
    destruct (successful_call s clk b Hs) as (H1 & H2 & H3 & _).
    split; [done|]. split; [done|]. intros calls Hall.
    destruct (failures_from_zero (post (get_client s clk b)) calls)
      as [Hbelow Hten]; [congruence | done | done | done |].
    split; intros Hlen.
    + by apply Hbelow.
    + by apply Hten.
Qed.

(** C3: while the breaker is open (cooldown 60, threshold 10), a call made
    less than 60 seconds after the opening stamp yields the degraded
    client, runs none of the pool code and leaves the whole state, breaker
    included, as it was; so does any sequence of such calls.  A call at or
    after 60 seconds passes the breaker test with the breaker closed and
    the counter zeroed, goes on to the pool, and ends with the breaker
    closed and the counter at 0 (operation succeeded) or 1 (it failed). *)
Theorem open_breaker_holds_for_cooldown (s : t) (t0 : Z) :
  _circuit_breaker_open s = true →
  _circuit_breaker_opened_at s = Some t0 →
  _circuit_breaker_timeout s = 60 →
  _circuit_breaker_threshold s = 10 →
  (∀ clk b,
     t_gate clk - t0 < 60 →
     get_client s clk b = Result Degraded (body_outcome b) NotTried true s)
  ∧ (∀ calls,
       Forall (λ c : clock * body, t_gate c.1 - t0 < 60) calls →
       run s calls = s)
  ∧ (∀ clk b,
       60 <= t_gate clk - t0 →
       gate s (t_gate clk) = GProceed (set_breaker s 0 false (Some t0))
       ∧ yield (get_client s clk b) ≠ Degraded
       ∧ _circuit_breaker_open (post (get_client s clk b)) = false
       ∧ (handled (get_client s clk b) = Succeeded
          ∧ _failed_operations_count (post (get_client s clk b)) = 0
          ∨ handled (get_client s clk b) = Failed
            ∧ _failed_operations_count (post (get_client s clk b)) = 1)).
Proof.
  intros Ho Hat Hto HT.
  assert (Hwithin : ∀ clk b, t_gate clk - t0 < 60 →
            get_client s clk b = Result Degraded (body_outcome b) NotTried true s).
  { intros clk b Hlt. apply get_client_degraded.
    apply (gate_open_within s t0); [done | done | lia]. }
  split; [exact Hwithin|]. split.
  - intros calls Hall. induction Hall as [|[clk b] calls Hc _ IH]; [done|].
    simpl. rewrite (Hwithin clk b Hc). simpl. exact IH.
  - intros clk b Hge.
    assert (Hg : gate s (t_gate clk) = GProceed (set_breaker s 0 false (Some t0)))
      by (apply gate_open_elapsed; [done | done | lia]).
    split; [done|].
    destruct (get_client_proceed s _ clk b Hg) as [Hy [[Hf Hv]|[Hs Hv]]].
    + split; [done|]. rewrite on_failure_breaker_view in Hv. simpl in Hv.
      rewrite HT in Hv. simpl in Hv.
      unfold breaker_view in Hv. injection Hv as -> -> _ _ _.
      split; [done|]. by right.
    + split; [done|]. simpl in Hv.
      unfold breaker_view in Hv. injection Hv as -> -> _ _ _.
      split; [done|]. by left.
Qed.

End PoolFacts.


(** ** Witnesses for the breaker *)

Lemma breaker_opens_at_ten_failures_witness :
  (SupabaseConnectionPool._circuit_breaker_open
     (SupabaseConnectionPool.run pool0 (take 9 ten_failures)) = false
   ∧ SupabaseConnectionPool._failed_operations_count
       (SupabaseConnectionPool.run pool0 (take 9 ten_failures)) = 9)
  ∧ SupabaseConnectionPool._circuit_breaker_open
      (SupabaseConnectionPool.run pool0 ten_failures) = true
  ∧ SupabaseConnectionPool.yield
      (SupabaseConnectionPool.get_client
         (SupabaseConnectionPool.run pool0 ten_failures) (call_at 69)
         SupabaseConnectionPool.BodyReturns)
    = SupabaseConnectionPool.Degraded
  ∧ SupabaseConnectionPool._failed_operations_count
      (SupabaseConnectionPool.post
         (SupabaseConnectionPool.get_client pool_nine (call_at 10)
            SupabaseConnectionPool.BodyReturns)) = 0
  ∧ SupabaseConnectionPool._circuit_breaker_open
      (SupabaseConnectionPool.run
         (SupabaseConnectionPool.post
            (SupabaseConnectionPool.get_client pool_nine (call_at 10)
               SupabaseConnectionPool.BodyReturns))
         (take 9 ten_failures)) = false.
Proof.
  destruct (breaker_opens_at_ten_failures pool0 eq_refl) as [Hrun _].
  destruct (breaker_opens_at_ten_failures pool_nine eq_refl) as [_ Hreset].
  split; [|split; [|split; [|split]]].
  - apply (Hrun (take 9 ten_failures)); [reflexivity.. | vm_compute; lia].
  - by destruct (Hrun ten_failures eq_refl eq_refl eq_refl) as [_ [? _]].
  - destruct (Hrun ten_failures eq_refl eq_refl eq_refl) as [_ Hten].
    destruct (Hten eq_refl) as (Hopen & t0 & Hat & Hnext).
    vm_compute in Hat. injection Hat as <-.
    apply Hnext. vm_compute. reflexivity.
  - by destruct (Hreset (call_at 10) SupabaseConnectionPool.BodyReturns
                   eq_refl) as [? _].
  - destruct (Hreset (call_at 10) SupabaseConnectionPool.BodyReturns eq_refl)
      as (_ & _ & Hafter).
    apply (Hafter (take 9 ten_failures)); [reflexivity | vm_compute; lia].
Defined.

Lemma open_breaker_holds_for_cooldown_witness :
  SupabaseConnectionPool.get_client pool_open (call_at 69)
    SupabaseConnectionPool.BodyReturns
  = SupabaseConnectionPool.Result SupabaseConnectionPool.Degraded
      SupabaseConnectionPool.Returned SupabaseConnectionPool.NotTried true
      pool_open
  ∧ SupabaseConnectionPool.gate pool_open 70
    = SupabaseConnectionPool.GProceed
        (SupabaseConnectionPool.set_breaker pool_open 0 false (Some 10))
  ∧ SupabaseConnectionPool._circuit_breaker_open
      (SupabaseConnectionPool.post
         (SupabaseConnectionPool.get_client pool_open (call_at 70)
            SupabaseConnectionPool.BodyReturns)) = false.
Proof.
  destruct (open_breaker_holds_for_cooldown pool_open 10
              eq_refl eq_refl eq_refl eq_refl) as (Hin & _ & Hout).
  split.
  - apply (Hin (call_at 69) SupabaseConnectionPool.BodyReturns).
    vm_compute. reflexivity.
  - destruct (Hout (call_at 70) SupabaseConnectionPool.BodyReturns)
      as (Hg & _ & Hclosed & _).
    + vm_compute. discriminate.
    + split; [exact Hg | exact Hclosed].
Defined.

(** ** Pool exhaustion and its error class *)

Section ExhaustionFacts.
Import Py.

Lemma prefix_app (p a b : string) :
  String.prefix p a = true → String.prefix p (a ++ b)%string = true.
Proof.
  revert p. induction a as [|c a IH]; intros p; simpl.
  - destruct p; [|done]. intros _. by destruct b.
  - destruct p as [|c' p]; [done|].
    destruct (Ascii.ascii_dec c' c); [apply IH | done].
Qed.

Lemma contains_app (p a b : string) :
  contains p a = true → contains p (a ++ b)%string = true.
Proof.
  induction a as [|c a IH]; simpl.
  - rewrite orb_false_r. destruct p; [|done]. intros _. by destruct b.
  - rewrite !orb_true_iff. intros [H|H].
    + left. apply (prefix_app p (String c a) b H).
    + right. by apply IH.
Qed.

Lemma lower_app (a b : string) :
  lower (a ++ b)%string = (lower a ++ lower b)%string.
Proof. induction a as [|c a IH]; simpl; [done | by rewrite IH]. Qed.

Lemma classify_connection_phrase (e : string) :
  contains "pool exhausted" (lower e) = true →
  AsyncTable.classify_error e = Some "connection".
Proof.
  intros H. unfold AsyncTable.classify_error. cbn [existsb].
  rewrite H, !orb_true_r. done.
Qed.

Lemma classify_pool_exhausted_message (s : SupabaseConnectionPool.t) :
  AsyncTable.classify_error (SupabaseConnectionPool.pool_exhausted_message s)
  = Some "connection".
Proof.
  apply classify_connection_phrase.
  unfold SupabaseConnectionPool.pool_exhausted_message.
  rewrite lower_app. by apply contains_app.
Qed.

Lemma get_client_exhausted (s s0 : SupabaseConnectionPool.t)
    (clk : SupabaseConnectionPool.clock) (b : SupabaseConnectionPool.body) :
  SupabaseConnectionPool.gate s (SupabaseConnectionPool.t_gate clk)
  = SupabaseConnectionPool.GProceed s0 →
  SupabaseConnectionPool._pool s0 = [] →
  SupabaseConnectionPool.max_connections s0
  <= Z.of_nat (length (SupabaseConnectionPool._clients s0)) →
  SupabaseConnectionPool.get_client s clk b
  = SupabaseConnectionPool.Result SupabaseConnectionPool.Nothing
      (SupabaseConnectionPool.Raised
         (SupabaseConnectionPool.pool_exhausted_message s0))
      SupabaseConnectionPool.Failed true
      (SupabaseConnectionPool.on_failure s0
         (SupabaseConnectionPool.t_opened clk)).
Proof.
  intros Hg Hp Hmax. unfold SupabaseConnectionPool.get_client. rewrite Hg.
  unfold SupabaseConnectionPool.acquire. rewrite Hp.
  destruct (Z.ltb_spec
              (Z.of_nat (length (SupabaseConnectionPool._clients s0)))
              (SupabaseConnectionPool.max_connections s0)); [lia | done].
Qed.

(** C6, as the claim states it, fails: with the single allowed client
    checked out, [get_client] raises "Connection pool exhausted (1
    connections)", and the classifier files that message under
    [connection], not under [pool_exhausted]. *)
Lemma pool_exhausted_error_is_classified_connection :
  SupabaseConnectionPool.out
    (SupabaseConnectionPool.get_client pool_busy (call_at 5)
       SupabaseConnectionPool.BodyReturns)
  = SupabaseConnectionPool.Raised "Connection pool exhausted (1 connections)"
  ∧ AsyncTable.classify_error "Connection pool exhausted (1 connections)"
    = Some "connection"
  ∧ AsyncTable.classify_error "Connection pool exhausted (1 connections)"
    ≠ Some "pool_exhausted".
Proof. vm_compute. repeat split; discriminate. Qed.

(** C6 (amended): when the breaker lets the call through, the pool queue is
    empty (so the wait on it times out) and the number of created clients
    has reached [max_connections], [get_client] yields no client and
    raises "Connection pool exhausted (N connections)" instead of waiting
    further; the failure is counted by the circuit breaker like any other.
    The error classifier files that message under [connection]: the phrase
    "pool exhausted" is in the list of connection phrases, which is tested
    first. *)
Theorem pool_exhaustion_raises (s : SupabaseConnectionPool.t)
    (clk : SupabaseConnectionPool.clock) (b : SupabaseConnectionPool.body) :
  SupabaseConnectionPool._circuit_breaker_open s = false →
  SupabaseConnectionPool._pool s = [] →
  SupabaseConnectionPool.max_connections s
  <= Z.of_nat (length (SupabaseConnectionPool._clients s)) →
  let r := SupabaseConnectionPool.get_client s clk b in
  SupabaseConnectionPool.yield r = SupabaseConnectionPool.Nothing
  ∧ SupabaseConnectionPool.out r
    = SupabaseConnectionPool.Raised
        (SupabaseConnectionPool.pool_exhausted_message s)
  ∧ SupabaseConnectionPool.pool_exhausted_message s
    = ("Connection pool exhausted ("
       ++ str_of_int (SupabaseConnectionPool.max_connections s)
       ++ " connections)")%string
  ∧ SupabaseConnectionPool.handled r = SupabaseConnectionPool.Failed
  ∧ SupabaseConnectionPool._failed_operations_count
      (SupabaseConnectionPool.post r)
    = SupabaseConnectionPool._failed_operations_count s + 1
  ∧ AsyncTable.classify_error
      (SupabaseConnectionPool.pool_exhausted_message s)
    = Some "connection".
Proof.
  intros Ho Hp Hmax r. subst r.
  rewrite (get_client_exhausted s s clk b); [| by apply gate_closed | done..].
  simpl. repeat split; try done.
  - pose proof (on_failure_breaker_view s (SupabaseConnectionPool.t_opened clk))
      as Hv.
    unfold SupabaseConnectionPool.breaker_view in Hv.
    destruct (_ <=? _) in Hv; by injection Hv as -> _ _ _ _.
  - apply classify_pool_exhausted_message.
Qed.

Lemma pool_exhaustion_raises_witness :
  let r := SupabaseConnectionPool.get_client pool_busy (call_at 5)
             SupabaseConnectionPool.BodyReturns in
  SupabaseConnectionPool.yield r = SupabaseConnectionPool.Nothing
  ∧ SupabaseConnectionPool.out r
    = SupabaseConnectionPool.Raised
        (SupabaseConnectionPool.pool_exhausted_message pool_busy)
  ∧ SupabaseConnectionPool.pool_exhausted_message pool_busy
    = ("Connection pool exhausted ("
       ++ str_of_int (SupabaseConnectionPool.max_connections pool_busy)
       ++ " connections)")%string
  ∧ SupabaseConnectionPool.handled r = SupabaseConnectionPool.Failed
  ∧ SupabaseConnectionPool._failed_operations_count
      (SupabaseConnectionPool.post r)
    = SupabaseConnectionPool._failed_operations_count pool_busy + 1
  ∧ AsyncTable.classify_error
      (SupabaseConnectionPool.pool_exhausted_message pool_busy)
    = Some "connection".
Proof.
  apply (pool_exhaustion_raises pool_busy (call_at 5)
           SupabaseConnectionPool.BodyReturns).
  - reflexivity.
  - reflexivity.
  - vm_compute. discriminate.
Defined.

End ExhaustionFacts.

(** ** The connection tracker *)

Section TrackerFacts.
Import ConnectionTracker.

Lemma lookup_foldr_delete {A} (m : gmap string A) (ks : list string)
    (k : string) :
  foldr delete m ks !! k = if bool_decide (k ∈ ks) then None else m !! k.
Proof.
  induction ks as [|k' ks IH]; simpl; [done|].
  destruct (decide (k' = k)) as [->|Hne].
  - rewrite lookup_delete_eq. rewrite bool_decide_eq_true_2; [done | set_solver].
  - rewrite lookup_delete_ne by done. rewrite IH.
    destruct (bool_decide (k ∈ ks)) eqn:E.
    + apply bool_decide_eq_true_1 in E.
      rewrite bool_decide_eq_true_2; [done | set_solver].
    + apply bool_decide_eq_false_1 in E.
      rewrite bool_decide_eq_false_2; [done|].
      rewrite elem_of_cons. intros [Heq|Hin]; [by subst | done].
Qed.

(** What the sweep does with the stamps it can see: an operation whose
    entry in [operation_timeouts] is more than 300 old is dropped from both
    maps. *)
Lemma cleanup_drops_stamped (self : t) (id : string) (ts now : Z) :
  operation_timeouts self !! id = Some ts →
  now - ts > 300 →
  retry_counts (cleanup_old_operations self now) !! id = None
  ∧ operation_timeouts (cleanup_old_operations self now) !! id = None.
Proof.
  intros Hts Hold. unfold cleanup_old_operations. simpl.
  rewrite !lookup_foldr_delete.
  rewrite bool_decide_eq_true_2; [done|].
  apply list_elem_of_fmap. exists (id, ts). split; [done|].
  apply elem_of_map_to_list. apply map_lookup_filter_Some. done.
Qed.

(** An operation without a stamp is out of the sweep's reach. *)
Lemma cleanup_keeps_unstamped (self : t) (id : string) (now : Z) :
  operation_timeouts self !! id = None →
  retry_counts (cleanup_old_operations self now) !! id
  = retry_counts self !! id.
Proof.
  intros Hts. unfold cleanup_old_operations. simpl.
  rewrite lookup_foldr_delete.
  rewrite bool_decide_eq_false_2; [done|].
  intros ([id' ts] & Hid & Hin)%list_elem_of_fmap. simpl in Hid. subst id'.
  apply elem_of_map_to_list, map_lookup_filter_Some in Hin as [Hin _].
  congruence.
Qed.

(** No call on the tracker ever writes a stamp. *)
Lemma operation_timeouts_stay_empty (database_max_retries : Z)
    (ops : list op) :
  operation_timeouts (run (__init__ database_max_retries) ops) = ∅.
Proof.
  assert (H : ∀ self, operation_timeouts self = ∅ →
                      operation_timeouts (run self ops) = ∅).
  { induction ops as [|o ops IH]; intros self Hself; simpl; [done|].
    apply IH. destruct o; simpl; [done | done |].
    rewrite Hself. rewrite map_filter_empty, map_to_list_empty. done. }
  by apply H.
Qed.

(** C7: the code does not do what the claim says.  An operation whose only
    and last failure was recorded at time 0 is still tracked after the
    sweep runs at time 1000: [record_failure] wrote its retry count but no
    stamp, and the sweep only looks at stamps. *)
Theorem stale_retry_record_survives_cleanup :
  let tracker :=
    run (__init__ 3)
      [ RecordFailure (Some "op-1") 0; CleanupOldOperations 1000 ] in
  last_failure tracker = Some 0
  ∧ retry_counts tracker !! "op-1" = Some 1
  ∧ operation_timeouts tracker = ∅.
Proof. vm_compute. done. Qed.

(** C8: for every operation id and every error type, [should_retry]
    answers whether the recorded retry count is below [max_retries]:
    [False] once the count has reached the cap, [True] below it.  The
    error type never changes the answer. *)
Theorem should_retry_is_capped (self : t) (operation_id : string)
    (error_type : option string) :
  should_retry self operation_id error_type
  = (retry_count self operation_id <? max_retries self)
  ∧ (max_retries self <= retry_count self operation_id →
     should_retry self operation_id error_type = false)
  ∧ (retry_count self operation_id < max_retries self →
     should_retry self operation_id error_type = true).
Proof.
  assert (H : should_retry self operation_id error_type
              = (retry_count self operation_id <? max_retries self)).
  { unfold should_retry.
    destruct (Z.leb_spec (max_retries self) (retry_count self operation_id));
      destruct (Z.ltb_spec (retry_count self operation_id) (max_retries self));
      try lia; repeat case_match; done. }
  split; [exact H|]. rewrite H. split; intros Hc.
  - apply Z.ltb_ge. lia.
  - apply Z.ltb_lt. lia.
Qed.

Lemma should_retry_is_capped_witness :
  let tracker :=
    run (__init__ 3)
      [ RecordFailure (Some "op-1") 0; RecordFailure (Some "op-1") 1;
        RecordFailure (Some "op-1") 3 ] in
  should_retry tracker "op-1" (Some "connection") = false
  ∧ should_retry tracker "op-2" (Some "other") = true.
Proof.
  intros tracker. split.
  - apply (should_retry_is_capped tracker "op-1" (Some "connection")).
    vm_compute. discriminate.
  - apply (should_retry_is_capped tracker "op-2" (Some "other")).
    vm_compute. reflexivity.
Defined.

End TrackerFacts.

(** ** The Redis cache and tenant-wide invalidation *)

Section RedisFacts.

Lemma list_ascii_app (a b : string) :
  String.list_ascii_of_string (a ++ b)%string
  = (String.list_ascii_of_string a ++ String.list_ascii_of_string b)%list.
Proof. induction a as [|c a IH]; simpl; [done | by rewrite IH]. Qed.

Lemma tokenize_plain (l p : list ascii) :
  forallb Glob.plain l = true →
  Glob.tokenize None (l ++ p)%list
  = (map Glob.TLit l ++ Glob.tokenize None p)%list.
Proof.
  induction l as [|c l IH]; [done|]. cbn [forallb].
  rewrite andb_true_iff. intros [Hc Hl].
  unfold Glob.plain in Hc. rewrite negb_true_iff, !orb_false_iff in Hc.
  destruct Hc as [[[H1 H2] H3] H4].
  change ((c :: l) ++ p)%list with (c :: (l ++ p))%list.
  cbn [Glob.tokenize]. rewrite H1, H2, H3, H4. rewrite IH by done. done.
Qed.

Lemma matches_star_skip (ts : list Glob.token) (a s : list ascii) :
  Glob.matches ts s = true →
  Glob.matches (Glob.TStar :: ts) (a ++ s)%list = true.
Proof.
  intros H. induction a as [|c a IH].
  - destruct s; simpl in *; rewrite H; done.
  - change ((c :: a) ++ s)%list with (c :: (a ++ s))%list.
    simpl in *. rewrite IH. apply orb_true_r.
Qed.

Lemma matches_literals (l : list ascii) (ts : list Glob.token)
    (s : list ascii) :
  Glob.matches (map Glob.TLit l ++ ts)%list (l ++ s)%list = Glob.matches ts s.
Proof.
  induction l as [|c l IH]; [done|]. simpl.
  rewrite Ascii.eqb_refl. apply IH.
Qed.

Lemma matches_star_any (s : list ascii) : Glob.matches [Glob.TStar] s = true.
Proof.
  induction s as [|c s IH]; [done|]. simpl in *. rewrite IH.
  by rewrite ?orb_true_r.
Qed.

(** The tenant pattern matches every string that holds [:tenant:<id>]. *)
Lemma tenant_pattern_matches (tenant_id before after : string) :
  forallb Glob.plain (String.list_ascii_of_string tenant_id) = true →
  Glob.glob ("*:tenant:" ++ tenant_id ++ "*")
            (before ++ ":tenant:" ++ tenant_id ++ after) = true.
Proof.
  intros Hplain. unfold Glob.glob.
  rewrite !list_ascii_app.
  change (String.list_ascii_of_string "*:tenant:")
    with ("*"%char :: String.list_ascii_of_string ":tenant:").
  change (("*"%char :: ?l) ++ ?r)%list with ("*"%char :: (l ++ r))%list.
  cbn [Glob.tokenize]. rewrite Ascii.eqb_refl.
  rewrite app_assoc.
  rewrite tokenize_plain.
  2:{ rewrite forallb_app, Hplain. done. }
  apply matches_star_skip.
  rewrite (app_assoc _ _ (String.list_ascii_of_string after)).
  rewrite matches_literals. apply matches_star_any.
Qed.

Lemma string_app_nil_r (x : string) : (x ++ "")%string = x.
Proof.
  induction x as [|c x IH]; [done|].
  change (String c (x ++ "") = String c x). by rewrite IH.
Qed.

Lemma concat_cons_split (sep x : string) (l : list string) :
  ∃ rest, String.concat sep (x :: l) = (x ++ rest)%string.
Proof.
  destruct l as [|y l]; simpl.
  - exists "". by rewrite string_app_nil_r.
  - eauto.
Qed.

Lemma string_app_assoc (a b c : string) :
  ((a ++ b) ++ c = a ++ (b ++ c))%string.
Proof.
  induction a as [|x a IH]; [done|].
  change (String x ((a ++ b) ++ c) = String x (a ++ (b ++ c))).
  by rewrite IH.
Qed.

(** Every key [_make_key] builds for a tenant holds [:tenant:<id>]. *)
Lemma make_key_tenant_shape (prefix identifier tenant_id : string)
    (kwargs : list (string * option string)) :
  tenant_id ≠ "" →
  ∃ before after,
    RedisCacheService._make_key prefix identifier (Some tenant_id) kwargs
    = (before ++ ":tenant:" ++ tenant_id ++ after)%string.
Proof.
  intros Hne. unfold RedisCacheService._make_key.
  destruct (String.eqb_spec tenant_id "") as [|_]; [done|].
  cbn [app].
  set (extras := omap _ _).
  destruct (concat_cons_split ":" ("tenant:" ++ tenant_id) extras)
    as [rest Hrest].
  exists (prefix ++ ":" ++ identifier)%string, rest.
  change (String.concat ":" (prefix :: identifier
            :: ("tenant:" ++ tenant_id)%string :: extras))
    with (prefix ++ ":" ++ identifier ++ ":"
          ++ String.concat ":" (("tenant:" ++ tenant_id)%string :: extras))%string.
  rewrite Hrest. rewrite !string_app_assoc. done.
Qed.

(** [delete_pattern] removes exactly the keys the pattern matches. *)
Lemma delete_pattern_lookup (self : RedisCacheService.t)
    (db : gmap string string) (pattern k : string) :
  RedisCacheService.redis_client self = Some db →
  ∃ db', RedisCacheService.redis_client
           (RedisCacheService.delete_pattern self pattern).2 = Some db'
         ∧ db' !! k = if Glob.glob pattern k then None else db !! k.
Proof.
  intros Hdb. unfold RedisCacheService.delete_pattern. rewrite Hdb.
  assert (Hlook : foldr delete db (RedisCacheService.keys db pattern) !! k
                  = if Glob.glob pattern k then None else db !! k).
  { rewrite lookup_foldr_delete. unfold RedisCacheService.keys.
    destruct (Glob.glob pattern k) eqn:Hm.
    - destruct (db !! k) as [v|] eqn:Hk.
      + rewrite bool_decide_eq_true_2; [done|].
        apply list_elem_of_In, filter_In. split; [|done].
        apply list_elem_of_In, list_elem_of_fmap. exists (k, v).
        split; [done|]. by apply elem_of_map_to_list.
      + by case_bool_decide.
    - rewrite bool_decide_eq_false_2; [done|].
      intros [_ Hin]%list_elem_of_In%filter_In. congruence. }
  destruct (RedisCacheService.keys db pattern) as [|k0 ks] eqn:Hks.
  - simpl. exists db. split; [done|]. rewrite <- Hlook.
    rewrite ?Hks. done.
  - simpl. eexists. split; [reflexivity|]. rewrite ?Hks in Hlook.
    exact Hlook.
Qed.

(** The keys of the tenant itself all go. *)
Lemma invalidate_tenant_cache_own_keys (self : RedisCacheService.t)
    (db : gmap string string) (tenant_id prefix identifier : string)
    (kwargs : list (string * option string)) :
  RedisCacheService.redis_client self = Some db →
  tenant_id ≠ "" →
  forallb Glob.plain (String.list_ascii_of_string tenant_id) = true →
  ∃ db', RedisCacheService.redis_client
           (GuestPortalCache.invalidate_tenant_cache self tenant_id).2
         = Some db'
         ∧ db' !! RedisCacheService._make_key prefix identifier
                    (Some tenant_id) kwargs = None.
Proof.
  intros Hdb Hne Hplain. unfold GuestPortalCache.invalidate_tenant_cache.
  destruct (delete_pattern_lookup self db ("*:tenant:" ++ tenant_id ++ "*")
              (RedisCacheService._make_key prefix identifier
                 (Some tenant_id) kwargs) Hdb) as (db' & Hdb' & Hk).
  exists db'. split; [done|]. rewrite Hk.
  destruct (make_key_tenant_shape prefix identifier tenant_id kwargs Hne)
    as (before & after & ->).
  by rewrite tenant_pattern_matches.
Qed.

(** C5: the code does not do what the claim says.  With the templates of
    tenants "1" and "12" cached, invalidating tenant "1" deletes both keys:
    the pattern [*:tenant:1*] also matches [templates:all:tenant:12]. *)
Theorem invalidate_tenant_cache_hits_other_tenant :
  RedisCacheService._make_key "templates" "all" (Some "12") []
  = "templates:all:tenant:12"
  ∧ RedisCacheService.redis_client two_tenants
    = Some (<["templates:all:tenant:1" := "[]"]>
            (<["templates:all:tenant:12" := "[]"]> ∅))
  ∧ Glob.glob "*:tenant:1*" "templates:all:tenant:12" = true
  ∧ GuestPortalCache.invalidate_tenant_cache two_tenants "1"
    = (2, RedisCacheService.Make (Some ∅) 300).
Proof. vm_compute. done. Qed.

End RedisFacts.

(* ===================================================================== *)
(** * Further properties of the fallback cache *)
(* ===================================================================== *)

Section FallbackCacheMore.
Import Py CircuitBreakerFallback.

Lemma dict_set_same_value (d : pydict) (k : string) (v : pyval) :
  dict_get d k = Some v → dict_set d k v = d.
Proof.
  induction d as [|[k' v'] d IH]; simpl; [done|].
  destruct (String.eqb k' k) eqn:E.
  - by intros [= ->].
  - intros H. by rewrite IH.
Qed.

Lemma annotate_idempotent (d : pydict) (ts : Z) :
  annotate (annotate d ts) ts = annotate d ts.
Proof.
  unfold annotate at 1.
  rewrite (dict_set_same_value (annotate d ts) "_fallback_cached")
    by apply annotate_marker.
  apply dict_set_same_value, annotate_cached_at.
Qed.

(** A stored success read back before its TTL is the stored dictionary
    with the two markers added. *)
Theorem cache_response_then_read (self : t) (k : string) (d : pydict)
    (t0 now : Z) :
  flagged_with_error d = false →
  now - t0 < cache_ttl self →
  (get_cached_response (cache_response self k (PDict d) t0) k now).1
  = Some (annotate d t0)
  ∧ dict_get (annotate d t0) "_fallback_cached" = Some (PBool true)
  ∧ dict_get (annotate d t0) "_cached_at" = Some (PInt t0)
  ∧ ∀ f, f ≠ "_fallback_cached" → f ≠ "_cached_at" →
         dict_get (annotate d t0) f = dict_get d f.
Proof.
  intros Hok Hfresh.
  rewrite (get_cached_response_fresh _ k d t0 now).
  - split; [done|]. split; [apply annotate_marker|].
    split; [apply annotate_cached_at|]. intros f. apply annotate_other.
  - by apply cache_response_ok.
  - unfold cache_response. by rewrite Hok.
Qed.

Lemma cache_response_then_read_witness :
  (get_cached_response
     (cache_response __init__ "users"
        (PDict [("data", PList [PStr "row"]); ("count", PInt 1)]) 100)
     "users" 399).1
  = Some [("data", PList [PStr "row"]); ("count", PInt 1);
          ("_fallback_cached", PBool true); ("_cached_at", PInt 100)].
Proof.
  apply (cache_response_then_read __init__ "users"
           [("data", PList [PStr "row"]); ("count", PInt 1)] 100 399);
    reflexivity.
Defined.

(** Reading a fresh entry a second time gives the same response and
    changes nothing: the markers are written once. *)
Theorem get_cached_response_read_twice (self : t) (k : string) (d : pydict)
    (ts t1 t2 : Z) :
  cache self !! k = Some (CachedItem d ts) →
  t1 - ts < cache_ttl self →
  t2 - ts < cache_ttl self →
  get_cached_response (get_cached_response self k t1).2 k t2
  = ((get_cached_response self k t1).1, (get_cached_response self k t1).2).
Proof.
  intros Hk H1 H2.
  rewrite (get_cached_response_fresh self k d ts t1 Hk H1). simpl.
  rewrite (get_cached_response_fresh _ k (annotate d ts) ts t2);
    [| apply lookup_insert_eq | done].
  simpl. rewrite annotate_idempotent. unfold set_cache. simpl.
  by rewrite insert_insert_eq.
Qed.

Lemma get_cached_response_read_twice_witness :
  let fs := cache_response __init__ "users" (PDict [("data", PList [])]) 0 in
  get_cached_response (get_cached_response fs "users" 10).2 "users" 20
  = ((get_cached_response fs "users" 10).1,
     (get_cached_response fs "users" 10).2).
Proof.
  apply (get_cached_response_read_twice _ "users" [("data", PList [])] 0 10 20);
    reflexivity.
Defined.

Lemma cleanup_expired_cache_lookup (self : t) (now : Z) (k : string) :
  cache (cleanup_expired_cache self now) !! k
  = match cache self !! k with
    | Some item =>
        if cache_ttl self <=? now - timestamp item then None else Some item
    | None => None
    end.
Proof.
  unfold cleanup_expired_cache. simpl. rewrite lookup_foldr_delete.
  destruct (cache self !! k) as [item|] eqn:Hk.
  - destruct (Z.leb_spec (cache_ttl self) (now - timestamp item)).
    + rewrite bool_decide_eq_true_2; [done|].
      apply list_elem_of_fmap. exists (k, item). split; [done|].
      apply elem_of_map_to_list, map_lookup_filter_Some. simpl.
      split; [done | lia].
    + rewrite bool_decide_eq_false_2; [done|].
      intros ([k' item'] & Hid & Hin)%list_elem_of_fmap. simpl in Hid.
      subst k'.
      apply elem_of_map_to_list, map_lookup_filter_Some in Hin as [Hin Hold].
      simpl in Hold. rewrite Hk in Hin. injection Hin as <-. lia.
  - by case_bool_decide.
Qed.

(** The periodic sweep removes exactly the entries that are at least
    [cache_ttl] old and leaves every younger entry as it was. *)
Theorem cleanup_expired_cache_exact (self : t) (now : Z) (k : string) :
  cache (cleanup_expired_cache self now) !! k
  = match cache self !! k with
    | Some item =>
        if cache_ttl self <=? now - timestamp item then None else Some item
    | None => None
    end.
Proof. apply cleanup_expired_cache_lookup. Qed.

Lemma count_entries_sum (self : t) (now : Z)
    (items : list (string * cached_item)) (acc : Z * Z) :
  let r := foldl (λ (acc : Z * Z) (kv : string * cached_item),
                    if now - timestamp kv.2 <? cache_ttl self
                    then (acc.1 + 1, acc.2)
                    else (acc.1, acc.2 + 1)) acc items in
  r.1 + r.2 = acc.1 + acc.2 + Z.of_nat (length items)
  ∧ (Forall (λ kv, now - timestamp kv.2 < cache_ttl self) items →
     r.2 = acc.2).
Proof.
  revert acc. induction items as [|kv items IH]; intros acc; simpl.
  - split; [lia | done].
  - destruct (IH (if now - timestamp kv.2 <? cache_ttl self
                  then (acc.1 + 1, acc.2) else (acc.1, acc.2 + 1)))
      as [Hsum Hfresh].
    split.
    + rewrite Hsum. destruct (_ <? _); simpl; lia.
    + intros Hall. apply Forall_cons in Hall as [Hkv Hall].
      rewrite (Hfresh Hall).
      destruct (Z.ltb_spec (now - timestamp kv.2) (cache_ttl self));
        [done | lia].
Qed.

(** [get_cache_status] splits the entries into valid and expired ones, and
    right after the sweep it reports no expired entry. *)
Theorem cache_status_counts (self : t) (now : Z) :
  valid_entries (get_cache_status self now)
  + expired_entries (get_cache_status self now)
  = total_entries (get_cache_status self now)
  ∧ expired_entries (get_cache_status (cleanup_expired_cache self now) now) = 0
  ∧ valid_entries (get_cache_status (cleanup_expired_cache self now) now)
    = total_entries (get_cache_status (cleanup_expired_cache self now) now).
Proof.
  assert (Hsum : ∀ s, valid_entries (get_cache_status s now)
                      + expired_entries (get_cache_status s now)
                      = total_entries (get_cache_status s now)).
  { intros s. unfold get_cache_status, count_entries. simpl.
    destruct (count_entries_sum s now (map_to_list (cache s)) (0, 0))
      as [H _]. simpl in H. rewrite H, length_map_to_list. lia. }
  assert (Hfresh : ∀ s,
            (∀ k item, cache s !! k = Some item →
                       now - timestamp item < cache_ttl s) →
            expired_entries (get_cache_status s now) = 0).
  { intros s Hs. unfold get_cache_status, count_entries. simpl.
    destruct (count_entries_sum s now (map_to_list (cache s)) (0, 0))
      as [_ H]. simpl in H. apply H.
    apply Forall_forall. intros [k item] Hin.
    apply elem_of_map_to_list in Hin. simpl. by apply (Hs k). }
  assert (Hzero : expired_entries
                    (get_cache_status (cleanup_expired_cache self now) now) = 0).
  { apply Hfresh. intros k item Hin.
    rewrite cleanup_expired_cache_lookup in Hin.
    destruct (cache self !! k) as [item'|]; [|done].
    destruct (Z.leb_spec (cache_ttl self) (now - timestamp item'));
      [done|]. injection Hin as <-. done. }
  split; [apply Hsum|]. split; [exact Hzero|].
  specialize (Hsum (cleanup_expired_cache self now)). lia.
Qed.

End FallbackCacheMore.

Section FallbackResponseMore.
Import Py CircuitBreakerFallback.
Variable hash_json : pydict → Z.


End FallbackResponseMore.

(* ===================================================================== *)
(** * The caching wrappers of the live client *)
(* ===================================================================== *)

Section WrapperFacts.
Import Py.
Variable hash_json : pydict → Z.

Lemma dict_mem_set_other (d : pydict) (k k' : string) (v : pyval) :
  k' ≠ k → dict_mem k (dict_set d k' v) = dict_mem k d.
Proof. intros H. unfold dict_mem. by rewrite dict_get_set_other. Qed.

(** On the calls both builders define, the wrapper records what the
    degraded table records. *)
Lemma apply_call_agree (w : CachingTableWrapper.t)
    (c : GracefulDegradationTable.call) :
  GracefulDegradationTable.is_write_call c = false →
  GracefulDegradationTable.apply_call
    (GracefulDegradationTable.Make (CachingTableWrapper._table_name w)
       (CachingTableWrapper._query_params w)) c
  = (λ w', GracefulDegradationTable.Make (CachingTableWrapper._table_name w')
             (CachingTableWrapper._query_params w'))
    <$> CachingTableWrapper.apply_call w c.
Proof.
  intros Hc. destruct c; try done.
  simpl. unfold GracefulDegradationTable.eq, CachingTableWrapper.eq. simpl.
  destruct (negb (dict_mem "filters" (CachingTableWrapper._query_params w)));
    simpl; repeat case_match; done.
Qed.

Lemma chain_agree (cs : list GracefulDegradationTable.call)
    (w : CachingTableWrapper.t) :
  forallb (λ c, negb (GracefulDegradationTable.is_write_call c)) cs = true →
  GracefulDegradationTable.chain
    (GracefulDegradationTable.Make (CachingTableWrapper._table_name w)
       (CachingTableWrapper._query_params w)) cs
  = (λ w', GracefulDegradationTable.Make (CachingTableWrapper._table_name w')
             (CachingTableWrapper._query_params w'))
    <$> CachingTableWrapper.chain w cs.
Proof.
  revert w. induction cs as [|c cs IH]; intros w; [done|].
  cbn [forallb]. rewrite andb_true_iff, negb_true_iff. intros [Hc Hcs].
  cbn [GracefulDegradationTable.chain CachingTableWrapper.chain].
  rewrite (apply_call_agree w c Hc).
  destruct (CachingTableWrapper.apply_call w c) as [w'|]; simpl; [|done].
  by apply IH.
Qed.

Lemma apply_call_read_only (tbl tbl' : GracefulDegradationTable.t)
    (c : GracefulDegradationTable.call) :
  GracefulDegradationTable.is_write_call c = false →
  GracefulDegradationTable.apply_call tbl c = Some tbl' →
  GracefulDegradationTable.is_write tbl'
  = GracefulDegradationTable.is_write tbl.
Proof.
  intros Hc Happ. unfold GracefulDegradationTable.is_write.
  assert (Hset : ∀ t k v, k ≠ "insert" → k ≠ "update" → k ≠ "delete" →
            existsb (λ key, dict_mem key
                      (GracefulDegradationTable.query_params
                         (GracefulDegradationTable.set_param t k v)))
                    ["insert"; "update"; "delete"]
            = existsb (λ key, dict_mem key
                         (GracefulDegradationTable.query_params t))
                      ["insert"; "update"; "delete"]).
  { intros t k v H1 H2 H3. simpl. by rewrite !(dict_mem_set_other _ _ k). }
  destruct c; try done; simpl in Happ.
  - injection Happ as <-. by apply Hset.
  - apply eq_inv in Happ as (tbl1 & l & -> & [->| ->]).
    + by apply Hset.
    + by rewrite !Hset.
  - injection Happ as <-. by apply Hset.
  - injection Happ as <-. by apply Hset.
Qed.

Lemma chain_read_only (cs : list GracefulDegradationTable.call)
    (tbl tbl' : GracefulDegradationTable.t) :
  forallb (λ c, negb (GracefulDegradationTable.is_write_call c)) cs = true →
  GracefulDegradationTable.chain tbl cs = Some tbl' →
  GracefulDegradationTable.is_write tbl'
  = GracefulDegradationTable.is_write tbl.
Proof.
  revert tbl. induction cs as [|c cs IH]; intros tbl; simpl.
  - by intros _ [= ->].
  - rewrite andb_true_iff, negb_true_iff. intros [Hc Hcs].
    destruct (GracefulDegradationTable.apply_call tbl c) as [tbl1|] eqn:Happ;
      [|done].
    intros Hch. rewrite (IH tbl1 Hcs Hch).
    by apply (apply_call_read_only tbl tbl1 c).
Qed.

(** What a live select brought back is what the degraded client serves for
    the same query until the TTL runs out: the rows and the count, with
    the two cache markers. *)
Theorem live_read_is_served_when_degraded (name : string)
    (cs : list GracefulDegradationTable.call) (w : CachingTableWrapper.t)
    (r : Live.api_response) (dflt : pyval) (fs : CircuitBreakerFallback.t)
    (t0 now : Z) :
  forallb (λ c, negb (GracefulDegradationTable.is_write_call c)) cs = true →
  CachingTableWrapper.chain (SuccessfulClientWrapper.table name) cs = Some w →
  dict_mem "select" (CachingTableWrapper._query_params w) = true →
  CachingTableWrapper.default_count r = Some dflt →
  now - t0 < CircuitBreakerFallback.cache_ttl fs →
  ∃ tbl,
    GracefulDegradationTable.chain (GracefulDegradationClient.table name) cs
    = Some tbl
    ∧ (CachingTableWrapper.execute hash_json w fs
         (Live.Returns (Some r)) t0).1 = Live.Returned (Some r)
    ∧ (GracefulDegradationTable.execute hash_json tbl
         (CachingTableWrapper.execute hash_json w fs
            (Live.Returns (Some r)) t0).2 now).1
      = FallbackResponse.Make
          (PList [PDict (CircuitBreakerFallback.annotate
                           (CachingTableWrapper.cached_payload r dflt) t0)])
          1 true.
Proof.
  intros Hro Hw Hsel Hd Hfresh.
  pose proof (chain_agree cs (SuccessfulClientWrapper.table name) Hro) as Hag.
  rewrite Hw in Hag. simpl in Hag.
  change (GracefulDegradationTable.Make name [])
    with (GracefulDegradationClient.table name) in Hag.
  eexists. split; [exact Hag|].
  unfold CachingTableWrapper.execute. rewrite Hsel, Hd. cbn [fst snd].
  split; [done|].
  unfold GracefulDegradationTable.execute.
  rewrite (chain_read_only cs _ _ Hro Hag).
  change (GracefulDegradationTable.is_write
            (GracefulDegradationClient.table name)) with false.
  cbn [GracefulDegradationTable.table_name
       GracefulDegradationTable.query_params].
  unfold CircuitBreakerFallback.get_fallback_response.
  set (key := CircuitBreakerFallback._generate_cache_key _ _ _).
  set (payload := CachingTableWrapper.cached_payload r dflt).
  assert (Hflag : CircuitBreakerFallback.flagged_with_error payload = false)
    by reflexivity.
  rewrite (get_cached_response_fresh _ key payload t0 now);
    [| by apply cache_response_ok
     | unfold CircuitBreakerFallback.cache_response; by rewrite Hflag].
  pose proof (dict_set_nonempty
                (dict_set payload "_fallback_cached" (PBool true))
                "_cached_at" (PInt t0)) as Hne.
  fold (CircuitBreakerFallback.annotate payload t0) in Hne.
  destruct (CircuitBreakerFallback.annotate payload t0) as [|kv rest] eqn:Ha;
    [done|].
  reflexivity.
Qed.

Lemma chain_without_select (cs : list GracefulDegradationTable.call)
    (w w' : CachingTableWrapper.t) :
  forallb (λ c, match c with
                | GracefulDegradationTable.Select _ => false
                | _ => true
                end) cs = true →
  CachingTableWrapper.chain w cs = Some w' →
  dict_mem "select" (CachingTableWrapper._query_params w')
  = dict_mem "select" (CachingTableWrapper._query_params w).
Proof.
  revert w. induction cs as [|c cs IH]; intros w; simpl.
  - by intros _ [= ->].
  - rewrite andb_true_iff. intros [Hc Hcs].
    destruct (CachingTableWrapper.apply_call w c) as [w1|] eqn:Happ; [|done].
    intros Hch. rewrite (IH w1 Hcs Hch).
    destruct c; try done; simpl in Happ.
    + by injection Happ as <-.
    + by injection Happ as <-.
    + by injection Happ as <-.
    + unfold CachingTableWrapper.eq in Happ.
      destruct (negb (dict_mem "filters" (CachingTableWrapper._query_params w)));
        repeat case_match; simplify_eq; simpl;
        by rewrite ?dict_mem_set_other.
    + injection Happ as <-. simpl. by rewrite dict_mem_set_other.
    + injection Happ as <-. simpl. by rewrite dict_mem_set_other.
Qed.

(** A live query built without [select] (an insert, update or delete, with
    or without filters) never writes to the fallback cache, whatever it
    returns; neither does a query that raises or returns no data. *)
Theorem live_query_without_select_caches_nothing (name : string)
    (cs : list GracefulDegradationTable.call) (w : CachingTableWrapper.t)
    (fs : CircuitBreakerFallback.t) (now : Z) :
  CachingTableWrapper.chain (SuccessfulClientWrapper.table name) cs = Some w →
  (forallb (λ c, match c with
                 | GracefulDegradationTable.Select _ => false
                 | _ => true
                 end) cs = true →
   ∀ live, (CachingTableWrapper.execute hash_json w fs live now).2 = fs)
  ∧ (∀ msg, CachingTableWrapper.execute hash_json w fs (Live.Raises msg) now
            = (Live.Raised msg, fs))
  ∧ CachingTableWrapper.execute hash_json w fs (Live.Returns None) now
    = (Live.Returned None, fs).
Proof.
  intros Hw. split; [|done].
  intros Hns live.
  pose proof (chain_without_select cs _ w Hns Hw) as Hsel. simpl in Hsel.
  unfold CachingTableWrapper.execute. rewrite Hsel.
  by destruct live as [msg|[r|]].
Qed.

Lemma generate_cache_key_or_empty (operation_type : string)
    (params : option pydict) :
  CircuitBreakerFallback._generate_cache_key hash_json operation_type
    (Some (match params with Some ((_ :: _) as p) => p | _ => [] end))
  = CircuitBreakerFallback._generate_cache_key hash_json operation_type params.
Proof. by destruct params as [[|kv p]|]. Qed.

(** What a live RPC brought back is what the degraded client serves for the
    same function and parameters until the TTL runs out. *)
Theorem live_rpc_is_served_when_degraded (function_name : string)
    (params : option pydict) (r : Live.api_response)
    (fs : CircuitBreakerFallback.t) (t0 now : Z) :
  now - t0 < CircuitBreakerFallback.cache_ttl fs →
  (GracefulDegradationRPC.execute hash_json
     (GracefulDegradationClient.rpc function_name params)
     (CachingRPCWrapper.execute hash_json
        (SuccessfulClientWrapper.rpc function_name params) fs
        (Live.Returns (Some r)) t0).2 now).1
  = FallbackResponse.Make
      (PList [PDict (CircuitBreakerFallback.annotate
                       [ ("data", Live.data r);
                         ("function", PStr function_name) ] t0)])
      1 true.
Proof.
  intros Hfresh.
  unfold GracefulDegradationRPC.execute, CachingRPCWrapper.execute,
    GracefulDegradationClient.rpc, SuccessfulClientWrapper.rpc.
  cbn [GracefulDegradationRPC.function_name GracefulDegradationRPC.params
       GracefulDegradationRPC.__init__ CachingRPCWrapper.__init__
       CachingRPCWrapper._function_name CachingRPCWrapper._params snd].
  unfold CircuitBreakerFallback.get_fallback_response.
  rewrite generate_cache_key_or_empty.
  set (key := CircuitBreakerFallback._generate_cache_key _ _ _).
  set (payload := [("data", Live.data r); ("function", PStr function_name)]).
  assert (Hflag : CircuitBreakerFallback.flagged_with_error payload = false)
    by reflexivity.
  rewrite (get_cached_response_fresh _ key payload t0 now);
    [| by apply cache_response_ok
     | unfold CircuitBreakerFallback.cache_response; by rewrite Hflag].
  pose proof (dict_set_nonempty
                (dict_set payload "_fallback_cached" (PBool true))
                "_cached_at" (PInt t0)) as Hne.
  fold (CircuitBreakerFallback.annotate payload t0) in Hne.
  destruct (CircuitBreakerFallback.annotate payload t0) as [|kv rest] eqn:Ha;
    [done|].
  reflexivity.
Qed.

End WrapperFacts.

Lemma live_read_is_served_when_degraded_witness :
  ∃ tbl,
    GracefulDegradationTable.chain (GracefulDegradationClient.table "users")
      [ GracefulDegradationTable.Select [Py.PStr "*"];
        GracefulDegradationTable.Eq (Py.PStr "id") (Py.PInt 7) ]
    = Some tbl
    ∧ (GracefulDegradationTable.execute (λ _, 0) tbl
         (CachingTableWrapper.execute (λ _, 0) live_users_query
            CircuitBreakerFallback.__init__
            (Live.Returns (Some live_users_rows)) 100).2 399).1
      = FallbackResponse.Make
          (Py.PList [Py.PDict [ ("data", Py.PList [Py.PStr "row"]); ("count", Py.PInt 1);
                          ("_fallback_cached", Py.PBool true);
                          ("_cached_at", Py.PInt 100) ]]) 1 true.
Proof.
  destruct (live_read_is_served_when_degraded (λ _, 0) "users"
              [ GracefulDegradationTable.Select [Py.PStr "*"];
                GracefulDegradationTable.Eq (Py.PStr "id") (Py.PInt 7) ]
              live_users_query live_users_rows (Py.PInt 1)
              CircuitBreakerFallback.__init__ 100 399)
    as (tbl & Htbl & _ & Hserved); try reflexivity.
  exists tbl. split; [exact Htbl | exact Hserved].
Defined.


Lemma live_rpc_is_served_when_degraded_witness :
  (GracefulDegradationRPC.execute (λ _, 0)
     (GracefulDegradationClient.rpc "stats" None)
     (CachingRPCWrapper.execute (λ _, 0)
        (SuccessfulClientWrapper.rpc "stats" None)
        CircuitBreakerFallback.__init__
        (Live.Returns (Some live_users_rows)) 100).2 399).1
  = FallbackResponse.Make
      (Py.PList [Py.PDict [ ("data", Py.PList [Py.PStr "row"]);
                            ("function", Py.PStr "stats");
                            ("_fallback_cached", Py.PBool true);
                            ("_cached_at", Py.PInt 100) ]]) 1 true.
Proof.
  apply (live_rpc_is_served_when_degraded (λ _, 0) "stats" None
           live_users_rows CircuitBreakerFallback.__init__ 100 399).
  reflexivity.
Defined.

Lemma live_query_without_select_caches_nothing_witness :
  (CachingTableWrapper.execute (λ _, 0) live_users_update
     CircuitBreakerFallback.__init__
     (Live.Returns (Some live_users_rows)) 100).2
  = CircuitBreakerFallback.__init__.
Proof.
  destruct (live_query_without_select_caches_nothing (λ _, 0) "users"
              [ GracefulDegradationTable.Update
                  (Py.PDict [("name", Py.PStr "n")]);
                GracefulDegradationTable.Eq (Py.PStr "id") (Py.PInt 7) ]
              live_users_update CircuitBreakerFallback.__init__ 100)
    as [H _]; [reflexivity|].
  apply H. reflexivity.
Defined.

(* ===================================================================== *)
(** * The in-process tenant cache *)
(* ===================================================================== *)

Section TenantCacheFacts.
Import Py TenantCache.

(** A value stored with [set] is returned by [get] up to and including its
    expiry time [now + ttl] (the default TTL when none is given), and the
    cache is left as it is; after that [get] misses and drops the entry. *)
Theorem tenant_cache_set_then_get (self : t) (k : string) (v : pyval)
    (ttl : option Z) (now later : Z) :
  let expiry := now + default (_default_ttl self) ttl in
  (later <= expiry →
     get (set self k v ttl now) k later = (Some v, set self k v ttl now))
  ∧ (expiry < later →
     (get (set self k v ttl now) k later).1 = None
     ∧ _cache (get (set self k v ttl now) k later).2 !! k = None).
Proof.
  intros expiry. unfold get, set. simpl. rewrite lookup_insert_eq. simpl.
  assert (He : now + match ttl with Some n => n | None => _default_ttl self end
               = expiry) by (subst expiry; by destruct ttl).
  rewrite He. split; intros H.
  - destruct (Z.ltb_spec expiry later); [lia | done].
  - destruct (Z.ltb_spec expiry later); [|lia]. simpl.
    split; [done | apply lookup_delete_eq].
Qed.

Lemma tenant_cache_set_then_get_witness :
  get (set (__init__ 300) "k" (PInt 1) (Some 1) 100) "k" 101
  = (Some (PInt 1), set (__init__ 300) "k" (PInt 1) (Some 1) 100)
  ∧ (get (set (__init__ 300) "k" (PInt 1) None 100) "k" 401).1 = None.
Proof.
  split.
  - apply (tenant_cache_set_then_get (__init__ 300) "k" (PInt 1) (Some 1)
             100 101). vm_compute. discriminate.
  - apply (tenant_cache_set_then_get (__init__ 300) "k" (PInt 1) None
             100 401). reflexivity.
Defined.

(** [get] never returns an entry whose expiry has passed; a miss leaves the
    key absent; no other key is touched by a read. *)
Theorem tenant_cache_get_is_fresh (self : t) (k : string) (now : Z) :
  (∀ v, (get self k now).1 = Some v →
        ∃ e, _cache self !! k = Some e ∧ value e = v ∧ now <= expires_at e)
  ∧ ((get self k now).1 = None → _cache (get self k now).2 !! k = None)
  ∧ (∀ k', k' ≠ k → _cache (get self k now).2 !! k' = _cache self !! k').
Proof.
  unfold get. destruct (_cache self !! k) as [e|] eqn:Hk.
  - destruct (Z.ltb_spec (expires_at e) now); simpl.
    + split; [done|]. split; [intros _; apply lookup_delete_eq|].
      intros k' Hne. by rewrite lookup_delete_ne.
    + split; [|done]. intros v [= <-]. exists e. split; [done|].
      split; [done | lia].
  - simpl. split; [done|]. done.
Qed.

Lemma tenant_cache_get_is_fresh_witness :
  ∃ e, _cache (set (__init__ 300) "k" (PInt 1) None 0) !! "k" = Some e
       ∧ value e = PInt 1 ∧ 300 <= expires_at e.
Proof.
  apply (tenant_cache_get_is_fresh
           (set (__init__ 300) "k" (PInt 1) None 0) "k" 300).
  reflexivity.
Defined.

Lemma filter_length_perm {A} (f : A → bool) (l l' : list A) :
  l ≡ₚ l' → length (List.filter f l) = length (List.filter f l').
Proof.
  induction 1 as [|x l l' _ IH|x y l|l1 l2 l3 _ IH1 _ IH2]; simpl.
  - done.
  - destruct (f x); simpl; by rewrite IH.
  - destruct (f x), (f y); done.
  - by rewrite IH1.
Qed.

Lemma filter_none {A} (f : A → bool) (l : list A) :
  (∀ x, In x l → f x = false) → List.filter f l = [].
Proof.
  induction l as [|x l IH]; intros H; simpl; [done|].
  rewrite (H x) by (by left). apply IH. intros y Hy. apply H. by right.
Qed.

Lemma expired_count_agree (m : gmap string entry) (now : Z) :
  length (map_to_list (filter (λ kv : string * entry, expires_at kv.2 < now) m))
  = length (List.filter (λ kv : string * entry, expires_at kv.2 <? now)
              (map_to_list m)).
Proof.
  induction m as [|i x m Hi IH] using map_ind.
  - by rewrite map_filter_empty, map_to_list_empty.
  - rewrite (filter_length_perm _ _ _ (map_to_list_insert m i x Hi)). simpl.
    destruct (Z.ltb_spec (expires_at x) now).
    + rewrite map_filter_insert_True by done.
      rewrite map_to_list_insert; [simpl; by rewrite IH|].
      apply map_lookup_filter_None. by left.
    + rewrite map_filter_insert_False by (simpl; lia).
      rewrite delete_id by done. done.
Qed.

Lemma clear_expired_lookup (self : t) (now : Z) (k : string) :
  _cache (clear_expired self now).2 !! k
  = match _cache self !! k with
    | Some e => if expires_at e <? now then None else Some e
    | None => None
    end.
Proof.
  unfold clear_expired. simpl. rewrite lookup_foldr_delete.
  destruct (_cache self !! k) as [e|] eqn:Hk.
  - destruct (Z.ltb_spec (expires_at e) now).
    + rewrite bool_decide_eq_true_2; [done|].
      apply list_elem_of_fmap. exists (k, e). split; [done|].
      apply elem_of_map_to_list, map_lookup_filter_Some. done.
    + rewrite bool_decide_eq_false_2; [done|].
      intros ([k' e'] & Hid & Hin)%list_elem_of_fmap. simpl in Hid. subst k'.
      apply elem_of_map_to_list, map_lookup_filter_Some in Hin as [Hin Hold].
      simpl in Hold. rewrite Hk in Hin. injection Hin as <-. lia.
  - by case_bool_decide.
Qed.

(** [clear_expired] removes exactly the entries whose expiry has passed,
    returns how many they were (the number [get_stats] reports as expired
    at that time), and afterwards [get_stats] reports none. *)
Theorem tenant_cache_clear_expired (self : t) (now : Z) :
  (∀ k, _cache (clear_expired self now).2 !! k
        = match _cache self !! k with
          | Some e => if expires_at e <? now then None else Some e
          | None => None
          end)
  ∧ (clear_expired self now).1 = expired_entries (get_stats self now)
  ∧ expired_entries (get_stats (clear_expired self now).2 now) = 0.
Proof.
  split; [intros k; apply clear_expired_lookup|]. split.
  - unfold clear_expired, get_stats. simpl.
    by rewrite length_fmap, expired_count_agree.
  - unfold get_stats. simpl.
    set (m := _cache (clear_expired self now).2).
    assert (Hnone : List.filter
                      (λ kv : string * entry, expires_at kv.2 <? now)
                      (map_to_list m) = []).
    { apply filter_none. intros [k e] Hin. simpl.
      apply list_elem_of_In, elem_of_map_to_list in Hin. subst m.
      rewrite clear_expired_lookup in Hin.
      destruct (_cache self !! k) as [e'|]; [|done].
      destruct (expires_at e' <? now) eqn:E; [done|].
      injection Hin as <-. congruence. }
    unfold m in Hnone. unfold clear_expired in Hnone. simpl in Hnone.
    by rewrite Hnone.
Qed.

End TenantCacheFacts.

(* ===================================================================== *)
(** * Further properties of the connection tracker and of [execute] *)
(* ===================================================================== *)

Section TrackerMore.
Import ConnectionTracker.

Lemma should_retry_below_cap (self : t) (operation_id : string)
    (error_type : option string) :
  should_retry self operation_id error_type
  = (retry_count self operation_id <? max_retries self).
Proof.
  unfold should_retry.
  destruct (Z.leb_spec (max_retries self) (retry_count self operation_id));
    destruct (Z.ltb_spec (retry_count self operation_id) (max_retries self));
    try lia; repeat case_match; done.
Qed.

Lemma record_failure_count (self : t) (operation_id : string) (now : Z) :
  operation_id ≠ "" →
  retry_count (record_failure self (Some operation_id) now) operation_id
  = retry_count self operation_id + 1
  ∧ max_retries (record_failure self (Some operation_id) now)
    = max_retries self.
Proof.
  intros Hne. unfold record_failure, retry_count, id_given. simpl.
  destruct (String.eqb_spec operation_id "") as [|_]; [done|].
  by rewrite lookup_insert_eq.
Qed.

Lemma record_failures_count (times : list Z) (self : t)
    (operation_id : string) :
  operation_id ≠ "" →
  let self' := foldl (λ tr now, record_failure tr (Some operation_id) now)
                 self times in
  retry_count self' operation_id
  = retry_count self operation_id + Z.of_nat (length times)
  ∧ max_retries self' = max_retries self.
Proof.
  intros Hne. revert self.
  induction times as [|now times IH]; intros self; simpl.
  - split; [lia | done].
  - destruct (IH (record_failure self (Some operation_id) now)) as [Hc Hm].
    destruct (record_failure_count self operation_id now Hne) as [Hc1 Hm1].
    rewrite Hc, Hm, Hc1, Hm1. split; [lia | done].
Qed.

(** The retry budget: after [n] recorded failures of an operation that was
    not tracked before, [should_retry] still says yes exactly when [n] is
    below [max_retries], whatever the error type. *)
Theorem retry_budget (self : t) (operation_id : string) (times : list Z)
    (error_type : option string) :
  operation_id ≠ "" →
  retry_counts self !! operation_id = None →
  let self' := foldl (λ tr now, record_failure tr (Some operation_id) now)
                 self times in
  retry_count self' operation_id = Z.of_nat (length times)
  ∧ should_retry self' operation_id error_type
    = (Z.of_nat (length times) <? max_retries self).
Proof.
  intros Hne Hnew self'.
  destruct (record_failures_count times self operation_id Hne) as [Hc Hm].
  fold self' in Hc, Hm.
  assert (H0 : retry_count self operation_id = 0)
    by (unfold retry_count; by rewrite Hnew).
  rewrite H0 in Hc. split; [lia|].
  rewrite (should_retry_below_cap self' operation_id error_type).
  rewrite Hm, Hc. done.
Qed.

Lemma retry_budget_witness :
  let tracker :=
    foldl (λ tr now, record_failure tr (Some "op-1") now) (__init__ 3)
      [10; 11; 13] in
  retry_count tracker "op-1" = 3
  ∧ should_retry tracker "op-1" (Some "timeout") = (3 <? 3).
Proof.
  apply (retry_budget (__init__ 3) "op-1" [10; 11; 13] (Some "timeout"));
    [discriminate | reflexivity].
Defined.

(** Retry state is kept per operation: recording a failure or a success
    for one operation id leaves the retry count of every other id as it
    was, and a success clears the count of its own id. *)
Theorem retry_state_is_per_operation (self : t) (operation_id other : string)
    (now : Z) :
  operation_id ≠ other →
  retry_count (record_failure self (Some operation_id) now) other
  = retry_count self other
  ∧ retry_count (record_success self (Some operation_id)) other
    = retry_count self other
  ∧ retry_count (record_success self (Some other)) other
    = (if String.eqb other "" then retry_count self other else 0).
Proof.
  intros Hne. unfold record_failure, record_success, retry_count, id_given.
  simpl. repeat split.
  - destruct (String.eqb operation_id ""); [done|].
    by rewrite lookup_insert_ne.
  - destruct (String.eqb operation_id ""); [done|].
    by rewrite lookup_delete_ne.
  - destruct (String.eqb other ""); [done|]. by rewrite lookup_delete_eq.
Qed.

Lemma retry_state_is_per_operation_witness :
  retry_count
    (record_success (record_failure
                       (record_failure (__init__ 3) (Some "a") 1)
                       (Some "b") 2) (Some "a")) "b" = 1.
Proof.
  destruct (retry_state_is_per_operation
              (record_failure (record_failure (__init__ 3) (Some "a") 1)
                 (Some "b") 2) "a" "b" 0) as (_ & H & _); [discriminate|].
  rewrite H. reflexivity.
Defined.

Lemma run_failed_connections (ops : list op) (self : t) :
  0 <= failed_connections self →
  0 <= failed_connections (run self ops)
       <= failed_connections self
          + Z.of_nat (length (List.filter
                                (λ o, match o with
                                      | RecordFailure _ _ => true
                                      | _ => false
                                      end) ops))
  ∧ failure_threshold (run self ops) = failure_threshold self.
Proof.
  revert self. induction ops as [|o ops IH]; intros self H0; simpl.
  - split; [lia | done].
  - destruct o as [id now|id|now]; simpl.
    + destruct (IH (record_failure self id now)) as [Hb Ht]; [simpl; lia|].
      simpl in Hb, Ht. split; [lia | done].
    + destruct (IH (record_success self id)) as [Hb Ht]; [simpl; lia|].
      simpl in Hb, Ht. split; [lia | done].
    + destruct (IH (cleanup_old_operations self now)) as [Hb Ht]; [done|].
      simpl in Hb, Ht. split; [lia | done].
Qed.

(** Throttling needs more than five outstanding failures: a tracker that
    has seen at most five [record_failure] calls since it was created never
    asks for a throttle pause, whatever else was recorded in between. *)
Theorem no_throttle_up_to_five_failures (database_max_retries : Z)
    (ops : list op) (now : Z) :
  (length (List.filter (λ o, match o with
                             | RecordFailure _ _ => true
                             | _ => false
                             end) ops) <= 5)%nat →
  should_throttle (run (__init__ database_max_retries) ops) now = false.
Proof.
  intros Hle.
  destruct (run_failed_connections ops (__init__ database_max_retries))
    as [Hb Ht]; [done|].
  simpl in Hb, Ht. unfold should_throttle. rewrite Ht.
  destruct (last_failure _); [|done].
  destruct (Z.ltb_spec 5 (failed_connections
                            (run (__init__ database_max_retries) ops)));
    [lia | done].
Qed.

Lemma no_throttle_up_to_five_failures_witness :
  should_throttle
    (run (__init__ 3)
       [ RecordFailure (Some "a") 1; RecordFailure (Some "a") 2;
         RecordFailure (Some "b") 3; RecordFailure None 4;
         RecordFailure (Some "c") 5 ]) 6 = false.
Proof.
  apply (no_throttle_up_to_five_failures 3). vm_compute. lia.
Defined.

End TrackerMore.

Section ExecuteFacts.
Import AsyncTable.

(** [execute] makes at most one attempt.  When the retry test lets the
    operation start, a query that returns ends the call with its result and
    a recorded success; a query that raises ends the call with a
    [TypeError] from the handler's [record_failure(operation_id,
    error_type)] call, the tracker untouched: the error is neither
    retried nor re-raised.  When the test fails at the start
    ([max_retries] not positive), the call returns [None] without
    querying. *)
Theorem execute_makes_one_attempt (tracker : ConnectionTracker.t)
    (operation_id : string) (attempt : Live.result * Z)
    (rest : list (Live.result * Z)) :
  execute tracker operation_id (attempt :: rest)
  = execute tracker operation_id [attempt]
  ∧ (ConnectionTracker.should_retry tracker operation_id None = true →
     (∀ r, attempt.1 = Live.Returns r →
           execute tracker operation_id (attempt :: rest)
           = (Result r,
              ConnectionTracker.record_success tracker (Some operation_id)))
     ∧ (∀ msg, attempt.1 = Live.Raises msg →
               execute tracker operation_id (attempt :: rest)
               = (TypeError, tracker)))
  ∧ (ConnectionTracker.should_retry tracker operation_id None = false →
     execute tracker operation_id (attempt :: rest) = (ReturnedNone, tracker)).
Proof.
  destruct attempt as [[msg|r] now]; simpl;
    destruct (ConnectionTracker.should_retry tracker operation_id None);
    repeat split; try done; intros; simplify_eq; done.
Qed.

Lemma execute_makes_one_attempt_witness :
  execute (ConnectionTracker.__init__ 3) "op-1"
    [ (Live.Raises "connection reset", 5);
      (Live.Returns (Some live_users_rows), 6) ]
  = (TypeError, ConnectionTracker.__init__ 3).
Proof.
  destruct (execute_makes_one_attempt (ConnectionTracker.__init__ 3) "op-1"
              (Live.Raises "connection reset", 5)
              [(Live.Returns (Some live_users_rows), 6)])
    as (_ & H & _).
  destruct (H eq_refl) as [_ Hraise]. apply (Hraise "connection reset").
  reflexivity.
Defined.

Lemma lower_ascii_idempotent (c : ascii) :
  Py.lower_ascii (Py.lower_ascii c) = Py.lower_ascii c.
Proof. by destruct c as [[] [] [] [] [] [] [] []]. Qed.

Lemma lower_idempotent (s : string) : Py.lower (Py.lower s) = Py.lower s.
Proof.
  induction s as [|c s IH]; simpl; [done|].
  by rewrite lower_ascii_idempotent, IH.
Qed.

(** The class of an error does not depend on the letter case of its
    message: two messages that agree once lower-cased get the same class,
    and so does a message and its lower-cased form. *)
Theorem classify_error_ignores_case (e e' : string) :
  classify_error (Py.lower e) = classify_error e
  ∧ (Py.lower e = Py.lower e' → classify_error e = classify_error e').
Proof.
  unfold classify_error. rewrite lower_idempotent. split; [done|].
  by intros ->.
Qed.

Lemma classify_error_ignores_case_witness :
  classify_error "Connection RESET by peer"
  = classify_error "connection reset by peer".
Proof.
  apply (classify_error_ignores_case "Connection RESET by peer"
           "connection reset by peer").
  reflexivity.
Defined.

End ExecuteFacts.

(* ===================================================================== *)
(** * Further properties of the Redis cache *)
(* ===================================================================== *)

Section RedisMore.

Lemma keys_spec (db : gmap string string) (pattern k : string) :
  k ∈ RedisCacheService.keys db pattern
  ↔ is_Some (db !! k) ∧ Glob.glob pattern k = true.
Proof.
  unfold RedisCacheService.keys.
  rewrite list_elem_of_In, filter_In, <- list_elem_of_In, list_elem_of_fmap.
  split.
  - intros [([k' v] & -> & Hin) Hm]. split; [|done].
    apply elem_of_map_to_list in Hin. by exists v.
  - intros [[v Hv] Hm]. split; [|done]. exists (k, v). split; [done|].
    by apply elem_of_map_to_list.
Qed.

Lemma NoDup_list_filter {A} (f : A → bool) (l : list A) :
  NoDup l → NoDup (List.filter f l).
Proof.
  induction 1 as [|x l Hx _ IH]; simpl; [constructor|].
  destruct (f x); [|done]. constructor; [|done].
  rewrite list_elem_of_In, filter_In, <- list_elem_of_In. tauto.
Qed.

Lemma filter_all {A} (f : A → bool) (l : list A) :
  (∀ x, In x l → f x = true) → List.filter f l = l.
Proof.
  induction l as [|x l IH]; intros H; simpl; [done|].
  rewrite (H x) by (by left). f_equal. apply IH. intros y Hy. apply H.
  by right.
Qed.

Lemma delete_pattern_spec (self : RedisCacheService.t) (pattern : string) :
  (RedisCacheService.redis_client self = None →
   RedisCacheService.delete_pattern self pattern = (0, self))
  ∧ (∀ db,
       RedisCacheService.redis_client self = Some db →
       ∃ db',
         RedisCacheService.redis_client
           (RedisCacheService.delete_pattern self pattern).2 = Some db'
         ∧ (∀ k, db' !! k = if Glob.glob pattern k then None else db !! k)
         ∧ (RedisCacheService.delete_pattern self pattern).1
           = Z.of_nat (length (RedisCacheService.keys db pattern))
         ∧ NoDup (RedisCacheService.keys db pattern)
         ∧ ∀ k, k ∈ RedisCacheService.keys db pattern
                ↔ is_Some (db !! k) ∧ Glob.glob pattern k = true).
Proof.
  split.
  { intros Hnone. unfold RedisCacheService.delete_pattern. by rewrite Hnone. }
  intros db Hdb.
  assert (Hlook : ∀ k, foldr delete db (RedisCacheService.keys db pattern) !! k
                       = if Glob.glob pattern k then None else db !! k).
  { intros k. rewrite lookup_foldr_delete.
    destruct (Glob.glob pattern k) eqn:Hm.
    - destruct (db !! k) as [v|] eqn:Hk.
      + rewrite bool_decide_eq_true_2; [done|].
        apply keys_spec. split; [by exists v | done].
      + by case_bool_decide.
    - rewrite bool_decide_eq_false_2; [done|].
      intros [_ Hin]%keys_spec. congruence. }
  assert (Hnd : NoDup (RedisCacheService.keys db pattern)).
  { apply NoDup_list_filter, NoDup_fst_map_to_list. }
  unfold RedisCacheService.delete_pattern. rewrite Hdb.
  destruct (RedisCacheService.keys db pattern) as [|k0 ks] eqn:Hks.
  - simpl. exists db. split; [done|]. split; [|split; [done|]].
    + intros k. by rewrite <- Hlook.
    + split; [done|]. intros k. rewrite <- Hks. apply keys_spec.
  - cbn [RedisCacheService.delete_keys fst snd
         RedisCacheService.redis_client].
    eexists. split; [reflexivity|]. split; [exact Hlook|]. split.
    + f_equal. f_equal. apply filter_all. intros k Hin.
      apply bool_decide_eq_true_2.
      apply list_elem_of_In in Hin. rewrite <- Hks in Hin.
      by apply keys_spec in Hin as [? _].
    + split; [done|]. intros k. rewrite <- Hks. apply keys_spec.
Qed.

(** [delete_pattern] removes exactly the cached keys the pattern matches
    and returns how many they are; without a Redis client it does nothing
    and returns 0. *)
Theorem delete_pattern_exact (self : RedisCacheService.t) (pattern : string) :
  (RedisCacheService.redis_client self = None →
   RedisCacheService.delete_pattern self pattern = (0, self))
  ∧ (∀ db,
       RedisCacheService.redis_client self = Some db →
       ∃ db',
         RedisCacheService.redis_client
           (RedisCacheService.delete_pattern self pattern).2 = Some db'
         ∧ (∀ k, db' !! k = if Glob.glob pattern k then None else db !! k)
         ∧ (RedisCacheService.delete_pattern self pattern).1
           = Z.of_nat (length (RedisCacheService.keys db pattern))
         ∧ NoDup (RedisCacheService.keys db pattern)
         ∧ ∀ k, k ∈ RedisCacheService.keys db pattern
                ↔ is_Some (db !! k) ∧ Glob.glob pattern k = true).
Proof. apply delete_pattern_spec. Qed.

Lemma delete_pattern_exact_witness :
  ∃ db',
    RedisCacheService.redis_client
      (RedisCacheService.delete_pattern two_tenants "*:tenant:12").2
    = Some db'
    ∧ db' !! "templates:all:tenant:1" = Some "[]"
    ∧ db' !! "templates:all:tenant:12" = None.
Proof.
  destruct (delete_pattern_exact two_tenants "*:tenant:12") as [_ H].
  destruct (H _ eq_refl) as (db' & Hdb' & Hlook & _).
  exists db'. split; [exact Hdb'|].
  split; rewrite Hlook; reflexivity.
Defined.

Lemma matches_star_inv (ts : list Glob.token) (s : list ascii) :
  Glob.matches (Glob.TStar :: ts) s = true →
  ∃ a s', s = (a ++ s')%list ∧ Glob.matches ts s' = true.
Proof.
  induction s as [|c s IH]; simpl.
  - rewrite orb_false_r. intros H. by exists [], [].
  - rewrite orb_true_iff. intros [H|H].
    + by exists [], (c :: s).
    + destruct (IH H) as (a & s' & -> & Hm). by exists (c :: a), s'.
Qed.

Lemma matches_literals_inv (l : list ascii) (ts : list Glob.token)
    (s : list ascii) :
  Glob.matches (map Glob.TLit l ++ ts)%list s = true →
  ∃ s', s = (l ++ s')%list ∧ Glob.matches ts s' = true.
Proof.
  revert s. induction l as [|c l IH]; intros s; simpl.
  - intros H. by exists s.
  - destruct s as [|d s]; [done|]. rewrite andb_true_iff.
    intros [Hc H]. apply Ascii.eqb_eq in Hc as ->.
    destruct (IH s H) as (s' & -> & Hm). by exists s'.
Qed.

Lemma list_ascii_inj (a b : string) :
  String.list_ascii_of_string a = String.list_ascii_of_string b → a = b.
Proof.
  intros H. rewrite <- (String.string_of_list_ascii_of_string a),
    <- (String.string_of_list_ascii_of_string b). by rewrite H.
Qed.

(** The tenant pattern matches a key exactly when the key holds
    [:tenant:<id>] somewhere. *)
Lemma tenant_pattern_iff (tenant_id k : string) :
  forallb Glob.plain (String.list_ascii_of_string tenant_id) = true →
  Glob.glob ("*:tenant:" ++ tenant_id ++ "*") k = true
  ↔ ∃ before after, k = (before ++ ":tenant:" ++ tenant_id ++ after)%string.
Proof.
  intros Hplain. split.
  - unfold Glob.glob. rewrite !list_ascii_app.
    change (String.list_ascii_of_string "*:tenant:")
      with ("*"%char :: String.list_ascii_of_string ":tenant:").
    change (("*"%char :: ?l) ++ ?r)%list with ("*"%char :: (l ++ r))%list.
    cbn [Glob.tokenize]. rewrite Ascii.eqb_refl.
    rewrite app_assoc.
    rewrite tokenize_plain by (by rewrite forallb_app, Hplain).
    intros (a & s1 & Hk & Hm)%matches_star_inv.
    apply matches_literals_inv in Hm as (s2 & -> & _).
    exists (String.string_of_list_ascii a), (String.string_of_list_ascii s2).
    apply list_ascii_inj. rewrite Hk, !list_ascii_app.
    rewrite !String.list_ascii_of_string_of_list_ascii.
    by rewrite <- !app_assoc.
  - intros (before & after & ->). by apply tenant_pattern_matches.
Qed.

(** Tenant-wide invalidation, for a tenant id without pattern characters:
    a cached key goes exactly when it holds [:tenant:<id>]; every other
    key stays with its value. *)
Theorem invalidate_tenant_cache_exact (self : RedisCacheService.t)
    (db : gmap string string) (tenant_id : string) :
  RedisCacheService.redis_client self = Some db →
  forallb Glob.plain (String.list_ascii_of_string tenant_id) = true →
  ∃ db',
    RedisCacheService.redis_client
      (GuestPortalCache.invalidate_tenant_cache self tenant_id).2 = Some db'
    ∧ (∀ k, (∃ before after,
               k = (before ++ ":tenant:" ++ tenant_id ++ after)%string) →
            db' !! k = None)
    ∧ (∀ k, ¬ (∃ before after,
                 k = (before ++ ":tenant:" ++ tenant_id ++ after)%string) →
            db' !! k = db !! k).
Proof.
  intros Hdb Hplain. unfold GuestPortalCache.invalidate_tenant_cache.
  destruct (delete_pattern_spec self ("*:tenant:" ++ tenant_id ++ "*"))
    as [_ H].
  destruct (H db Hdb) as (db' & Hdb' & Hlook & _).
  exists db'. split; [done|]. split; intros k Hk; rewrite Hlook.
  - apply (tenant_pattern_iff tenant_id k Hplain) in Hk. by rewrite Hk.
  - destruct (Glob.glob _ k) eqn:Hm; [|done].
    by apply (tenant_pattern_iff tenant_id k Hplain) in Hm.
Qed.

Lemma invalidate_tenant_cache_exact_witness :
  ∃ db',
    RedisCacheService.redis_client
      (GuestPortalCache.invalidate_tenant_cache two_tenants "12").2 = Some db'
    ∧ db' !! "templates:all:tenant:12" = None.
Proof.
  destruct (invalidate_tenant_cache_exact two_tenants _ "12" eq_refl eq_refl)
    as (db' & Hdb' & Hgone & _).
  exists db'. split; [exact Hdb'|].
  apply Hgone. by exists "templates:all", "".
Defined.

End RedisMore.

Section KeyFacts.

Lemma string_app_inv_head (a x y : string) :
  (a ++ x = a ++ y)%string → x = y.
Proof.
  induction a as [|c a IH]; [done|].
  change (String c (a ++ x) = String c (a ++ y) → x = y).
  intros [= H]. by apply IH.
Qed.

Lemma string_app_inv_tail (x y r : string) :
  (x ++ r = y ++ r)%string → x = y.
Proof.
  intros H. apply list_ascii_inj.
  apply (f_equal String.list_ascii_of_string) in H.
  rewrite !list_ascii_app in H. by apply app_inv_tail in H.
Qed.

(** The shape of a tenant key: what precedes the tenant id and what
    follows it do not depend on the id. *)
Lemma make_key_tenant_split (prefix identifier tenant_id : string)
    (kwargs : list (string * option string)) :
  tenant_id ≠ "" →
  RedisCacheService._make_key prefix identifier (Some tenant_id) kwargs
  = ((prefix ++ ":" ++ identifier ++ ":tenant:") ++ tenant_id
     ++ match omap (λ kv : string * option string,
                      match kv.2 with
                      | Some value => Some (kv.1 ++ ":" ++ value)%string
                      | None => None
                      end) (RedisCacheService.sorted_items kwargs) with
        | [] => ""
        | extras => ":" ++ String.concat ":" extras
        end)%string.
Proof.
  intros Hne. unfold RedisCacheService._make_key.
  destruct (String.eqb_spec tenant_id "") as [|_]; [done|].
  cbn [app]. set (extras := omap _ _).
  change (String.concat ":" (prefix :: identifier
            :: ("tenant:" ++ tenant_id)%string :: extras))
    with (prefix ++ ":" ++ identifier ++ ":"
          ++ String.concat ":" (("tenant:" ++ tenant_id)%string :: extras))%string.
  rewrite !string_app_assoc. do 3 f_equal.
  destruct extras as [|x extras].
  - cbn [String.concat]. by rewrite string_app_nil_r.
  - change (String.concat ":" (("tenant:" ++ tenant_id)%string :: x :: extras))
      with (("tenant:" ++ tenant_id) ++ ":"
            ++ String.concat ":" (x :: extras))%string.
    by rewrite !string_app_assoc.
Qed.

Lemma make_key_tenant_inj (prefix identifier : string)
    (tenant1 tenant2 : string) (kwargs : list (string * option string)) :
  tenant1 ≠ "" → tenant2 ≠ "" →
  RedisCacheService._make_key prefix identifier (Some tenant1) kwargs
  = RedisCacheService._make_key prefix identifier (Some tenant2) kwargs →
  tenant1 = tenant2.
Proof.
  intros H1 H2. rewrite !make_key_tenant_split by done.
  intros H%string_app_inv_head. by apply string_app_inv_tail in H.
Qed.

(** Cache keys are tenant-scoped: for the same category, identifier and
    keyword arguments, two tenants never get the same key. *)
Theorem make_key_separates_tenants (prefix identifier : string)
    (tenant1 tenant2 : string) (kwargs : list (string * option string)) :
  tenant1 ≠ "" → tenant2 ≠ "" →
  RedisCacheService._make_key prefix identifier (Some tenant1) kwargs
  = RedisCacheService._make_key prefix identifier (Some tenant2) kwargs →
  tenant1 = tenant2.
Proof. apply make_key_tenant_inj. Qed.

Lemma make_key_separates_tenants_witness :
  RedisCacheService._make_key "orders" "tok" (Some "1") [("page", Some "2")]
  = RedisCacheService._make_key "orders" "tok" (Some "1") [("page", Some "2")]
  ∧ "1" = "1".
Proof.
  split; [reflexivity|].
  apply (make_key_separates_tenants "orders" "tok" "1" "1"
           [("page", Some "2")]); [discriminate..|reflexivity].
Defined.

(** The keys the cache class builds with [_make_key] are the keys the
    module-level generators build, for every non-empty tenant id; with an
    empty tenant id [_make_key] leaves the tenant part out and the two
    differ. *)
Theorem cache_keys_agree_with_generators (tenant_id token : string) :
  (tenant_id ≠ "" →
   GuestPortalCache.templates_key tenant_id
   = make_templates_cache_key tenant_id
   ∧ GuestPortalCache.verification_counts_key tenant_id
     = make_verification_counts_cache_key tenant_id
   ∧ GuestPortalCache.portal_data_key token tenant_id
     = make_portal_data_cache_key token tenant_id
   ∧ GuestPortalCache.orders_key token tenant_id
     = make_orders_cache_key token tenant_id
   ∧ GuestPortalCache.precheckin_flow_key token tenant_id
     = make_precheckin_flow_cache_key token tenant_id
   ∧ GuestPortalCache.template_config_key token tenant_id
     = make_template_config_cache_key token tenant_id)
  ∧ GuestPortalCache.templates_key "" = "templates:all"
  ∧ make_templates_cache_key "" = "templates:all:tenant:".
Proof.
  split; [|done]. intros Hne.
  unfold GuestPortalCache.templates_key,
    GuestPortalCache.verification_counts_key,
    GuestPortalCache.portal_data_key, GuestPortalCache.orders_key,
    GuestPortalCache.precheckin_flow_key,
    GuestPortalCache.template_config_key.
  rewrite !make_key_tenant_split by done.
  cbn [RedisCacheService.sorted_items foldr omap].
  rewrite !string_app_nil_r.
  unfold make_templates_cache_key, make_verification_counts_cache_key,
    make_portal_data_cache_key, make_orders_cache_key,
    make_precheckin_flow_cache_key, make_template_config_cache_key.
  rewrite !string_app_assoc. done.
Qed.

Lemma cache_keys_agree_with_generators_witness :
  GuestPortalCache.orders_key "tok" "t1" = make_orders_cache_key "tok" "t1".
Proof.
  destruct (cache_keys_agree_with_generators "t1" "tok") as [H _].
  destruct H as (_ & _ & _ & H & _); [discriminate | exact H].
Defined.

Lemma redis_delete_lookup (db : gmap string string) (ttl : Z)
    (key : string) :
  RedisCacheService.delete (RedisCacheService.Make (Some db) ttl) key
  = (bool_decide (is_Some (db !! key)),
     RedisCacheService.Make (Some (delete key db)) ttl).
Proof.
  unfold RedisCacheService.delete. simpl. by case_bool_decide.
Qed.

(** [invalidate_portal_cache] removes the portal's three keys of the given
    tenant and no other key; in particular the same portal's keys of any
    other tenant stay. *)
Theorem invalidate_portal_cache_exact (self : RedisCacheService.t)
    (db : gmap string string) (portal_token tenant_id : string) :
  RedisCacheService.redis_client self = Some db →
  ∃ db',
    RedisCacheService.redis_client
      (GuestPortalCache.invalidate_portal_cache self portal_token
         tenant_id).2 = Some db'
    ∧ (∀ k, db' !! k
            = if bool_decide
                   (k ∈ [ GuestPortalCache.portal_data_key portal_token tenant_id;
                          GuestPortalCache.orders_key portal_token tenant_id;
                          GuestPortalCache.precheckin_flow_key portal_token
                            tenant_id ])
              then None else db !! k)
    ∧ (∀ other, tenant_id ≠ "" → other ≠ "" → other ≠ tenant_id →
         db' !! GuestPortalCache.portal_data_key portal_token other
         = db !! GuestPortalCache.portal_data_key portal_token other).
Proof.
  intros Hdb. destruct self as [client ttl]. simpl in Hdb. subst client.
  unfold GuestPortalCache.invalidate_portal_cache.
  cbn [foldl snd].
  rewrite !redis_delete_lookup. cbn [snd RedisCacheService.redis_client].
  rewrite !redis_delete_lookup. cbn [snd RedisCacheService.redis_client].
  rewrite !redis_delete_lookup. cbn [snd RedisCacheService.redis_client].
  eexists. split; [reflexivity|].
  assert (Hlook : ∀ k,
    delete (RedisCacheService._make_key "precheckin_flow" portal_token
              (Some tenant_id) [])
      (delete (RedisCacheService._make_key "orders" portal_token
                 (Some tenant_id) [])
         (delete (RedisCacheService._make_key "portal_data" portal_token
                    (Some tenant_id) []) db)) !! k
    = if bool_decide
           (k ∈ [ GuestPortalCache.portal_data_key portal_token tenant_id;
                  GuestPortalCache.orders_key portal_token tenant_id;
                  GuestPortalCache.precheckin_flow_key portal_token
                    tenant_id ])
      then None else db !! k).
  { intros k.
    change (delete ?a (delete ?b (delete ?c db)))
      with (foldr delete db [a; b; c]).
    rewrite lookup_foldr_delete.
    unfold GuestPortalCache.portal_data_key, GuestPortalCache.orders_key,
      GuestPortalCache.precheckin_flow_key.
    do 2 case_bool_decide; try done;
      repeat match goal with
             | H : _ ∈ _ |- _ => rewrite !elem_of_cons, elem_of_nil in H
             | H : ¬ _ ∈ _ |- _ => rewrite !elem_of_cons, elem_of_nil in H
             end; tauto. }
  split; [exact Hlook|].
  intros other Ht Ho Hne. rewrite Hlook.
  rewrite bool_decide_eq_false_2; [done|].
  rewrite !elem_of_cons, elem_of_nil.
  unfold GuestPortalCache.portal_data_key, GuestPortalCache.orders_key,
    GuestPortalCache.precheckin_flow_key.
  intros [H|[H|[H|[]]]].
  - by apply make_key_tenant_inj in H.
  - rewrite !make_key_tenant_split in H by done.
    apply (f_equal String.list_ascii_of_string) in H.
    rewrite !list_ascii_app in H. simpl in H. discriminate.
  - rewrite !make_key_tenant_split in H by done.
    apply (f_equal String.list_ascii_of_string) in H.
    rewrite !list_ascii_app in H. simpl in H. discriminate.
Qed.

Lemma invalidate_portal_cache_exact_witness :
  ∃ db',
    RedisCacheService.redis_client
      (GuestPortalCache.invalidate_portal_cache two_tenants "tok" "1").2
    = Some db'
    ∧ db' !! "templates:all:tenant:1" = Some "[]".
Proof.
  destruct (invalidate_portal_cache_exact two_tenants _ "tok" "1" eq_refl)
    as (db' & Hdb' & Hlook & _).
  exists db'. split; [exact Hdb'|]. rewrite Hlook. reflexivity.
Defined.

End KeyFacts.

(* ===================================================================== *)
(** * Further properties of the connection pool *)
(* ===================================================================== *)

Section PoolMore.
Import SupabaseConnectionPool.

Lemma list_mem_spec (x : Client) (l : list Client) :
  list_mem x l = true ↔ x ∈ l.
Proof.
  unfold list_mem. rewrite existsb_exists. split.
  - intros (y & Hin & Heq). apply Nat.eqb_eq in Heq as ->.
    by apply list_elem_of_In.
  - intros Hin. exists x. split; [by apply list_elem_of_In|].
    apply Nat.eqb_refl.
Qed.

Lemma list_remove_length (x : Client) (l : list Client) :
  x ∈ l → S (length (list_remove x l)) = length l.
Proof.
  induction l as [|y l IH]; [by intros ?%elem_of_nil|]. simpl.
  destruct (Nat.eqb_spec y x) as [->|Hne]; [done|].
  rewrite elem_of_cons. intros [->|Hin]; [done|]. simpl. by rewrite IH.
Qed.

Lemma list_remove_other (x y : Client) (l : list Client) :
  y ≠ x → y ∈ l → y ∈ list_remove x l.
Proof.
  intros Hne. induction l as [|z l IH]; [done|]. simpl.
  rewrite elem_of_cons.
  destruct (Nat.eqb_spec z x) as [->|Hzx].
  - intros [->|Hin]; done.
  - intros [->|Hin]; [left | right; by apply IH].
Qed.

Lemma list_remove_subset (x y : Client) (l : list Client) :
  y ∈ list_remove x l → y ∈ l.
Proof.
  induction l as [|z l IH]; [done|]. simpl.
  destruct (Nat.eqb_spec z x) as [->|Hzx].
  - intros Hin. by right.
  - rewrite !elem_of_cons. intros [->|Hin]; [by left | right; by apply IH].
Qed.

(** What the [finally] block does to the queue and to the tracked clients
    when the queue has room. *)
Lemma release_spec (s : t) (c : Client) (clk : clock) :
  (0 < max_connections s → Z.of_nat (length (_pool s)) < max_connections s) →
  let recycle := _should_recycle_client s c (t_age clk) in
  let s' := (release s c clk).1 in
  (release s c clk).2 = true
  ∧ max_connections s' = max_connections s
  ∧ _active_clients s' = _active_clients s ∖ {[c]}
  ∧ (recycle = false →
     _pool s' = (_pool s ++ [c])%list
     ∧ _clients s' = _clients s
     ∧ _client_created_times s' = _client_created_times s
     ∧ next_client s' = next_client s)
  ∧ (recycle = true →
     _pool s' = (_pool s ++ [next_client s])%list
     ∧ _clients s'
       = ((if list_mem c (_clients s) then list_remove c (_clients s)
           else _clients s) ++ [next_client s])%list
     ∧ _client_created_times s'
       = <[next_client s := t_recycled clk]>
           (delete c (_client_created_times s))
     ∧ next_client s' = S (next_client s)).
Proof.
  intros Hroom recycle s'. subst recycle s'.
  assert (Hfull : pool_full s = false).
  { unfold pool_full. destruct (Z.leb_spec (max_connections s) 0); [done|].
    apply Z.leb_gt. lia. }
  unfold release.
  set (s1 := if bool_decide (c ∈ _active_clients s) then _ else s).
  assert (Hs1 : _pool s1 = _pool s ∧ _clients s1 = _clients s
                ∧ _client_created_times s1 = _client_created_times s
                ∧ next_client s1 = next_client s
                ∧ max_connections s1 = max_connections s
                ∧ recycle_interval s1 = recycle_interval s
                ∧ _active_clients s1 = _active_clients s ∖ {[c]}).
  { subst s1. case_bool_decide; simpl; repeat split; try done.
    apply leibniz_equiv. set_solver. }
  destruct Hs1 as (Hp & Hc & Hct & Hn & Hm & Hr & Ha).
  assert (Hrec : _should_recycle_client s1 c (t_age clk)
                 = _should_recycle_client s c (t_age clk)).
  { unfold _should_recycle_client. by rewrite Hct, Hr. }
  assert (Hfull1 : pool_full s1 = false).
  { unfold pool_full in *. by rewrite Hm, Hp. }
  rewrite Hrec.
  destruct (_should_recycle_client s c (t_age clk)) eqn:Hsr.
  - unfold _recycle_client, _create_client, pool_put, pool_full. simpl.
    unfold pool_full in Hfull1. rewrite Hfull1. simpl.
    rewrite Hp, Hc, Hct, Hn, Hm, Ha. repeat split; done.
  - unfold pool_put. rewrite Hfull1. simpl.
    rewrite Hp, Hc, Hct, Hn, Hm, Ha. repeat split; done.
Qed.


Lemma gate_tracking (s s0 : t) (now : Z) :
  gate s now = GProceed s0 →
  _pool s0 = _pool s ∧ _clients s0 = _clients s
  ∧ _client_created_times s0 = _client_created_times s
  ∧ _active_clients s0 = _active_clients s
  ∧ next_client s0 = next_client s
  ∧ max_connections s0 = max_connections s
  ∧ recycle_interval s0 = recycle_interval s
  ∧ metrics s0 = metrics s.
Proof.
  unfold gate. repeat case_match; intros [= <-]; done.
Qed.

(** The state in which the body runs, and the one the [finally] block
    starts from, track what [acquire] left. *)
Lemma body_tracking (s1 : t) (c : Client) (b : body) (now : Z) :
  let s3 := match b with
            | BodyReturns => on_success (checkout s1 c)
            | BodyRaises _ => on_failure (checkout s1 c) now
            end in
  _pool s3 = _pool s1 ∧ _clients s3 = _clients s1
  ∧ _client_created_times s3 = _client_created_times s1
  ∧ _active_clients s3 = {[c]} ∪ _active_clients s1
  ∧ next_client s3 = next_client s1
  ∧ max_connections s3 = max_connections s1
  ∧ recycle_interval s3 = recycle_interval s1.
Proof.
  destruct b; simpl; [done|]. unfold on_failure. simpl. by case_match.
Qed.

Lemma pool_inv_length (s : t) :
  pool_inv s → (length (_pool s) <= length (_clients s))%nat.
Proof.
  intros (Hnd & Hsub & _). apply submseteq_length.
  by apply NoDup_submseteq.
Qed.

(** One call on a pool in sequential use: the [finally] block always
    completes, the invariant is kept, the number of idle clients does not
    go down, and the client that was handed out is no longer marked
    active. *)
Lemma get_client_keeps_inv (s : t) (clk : clock) (b : body) :
  pool_inv s →
  released (get_client s clk b) = true
  ∧ pool_inv (post (get_client s clk b))
  ∧ max_connections (post (get_client s clk b)) = max_connections s
  ∧ (length (_pool s) <= length (_pool (post (get_client s clk b))))%nat
  ∧ (∀ c, yield (get_client s clk b) = Wrapped c →
          c ∉ _active_clients (post (get_client s clk b))).
Proof.
  intros Hinv. unfold get_client.
  destruct (gate s (t_gate clk)) as [|s0|] eqn:Hg; simpl; [done| |done].
  destruct (gate_tracking s s0 _ Hg) as (Hp0 & Hc0 & Hct0 & Ha0 & Hn0 & Hm0 & _).
  assert (Hinv0 : pool_inv s0).
  { unfold pool_inv in *. by rewrite Hp0, Hc0, Hn0, Hm0. }
  rewrite <- Hp0, <- Hm0. clear Hg Hp0 Hc0 Hct0 Ha0 Hn0 Hm0 Hinv s.
  pose proof (pool_inv_length s0 Hinv0) as Hlen.
  destruct Hinv0 as (Hnd & Hsub & Hmax & Hfresh).
  (* the state after [acquire], with the client it returned *)
  assert (Hacq :
    (∃ c s1, acquire s0 (t_created clk) = (Some c, s1)
             ∧ NoDup (c :: _pool s1)
             ∧ (∀ x, x ∈ c :: _pool s1 → x ∈ _clients s1)
             ∧ Z.of_nat (length (_clients s1)) <= Z.max 0 (max_connections s1)
             ∧ (∀ x, x ∈ _clients s1 → (x < next_client s1)%nat)
             ∧ max_connections s1 = max_connections s0
             ∧ (length (_pool s0) <= S (length (_pool s1)))%nat)
    ∨ (acquire s0 (t_created clk) = (None, s0))).
  { unfold acquire. destruct (_pool s0) as [|c rest] eqn:Hpool.
    - destruct (Z.ltb_spec (Z.of_nat (length (_clients s0)))
                  (max_connections s0)); [|by right].
      left. eexists _, _. split; [reflexivity|]. simpl. rewrite Hpool.
      split; [apply NoDup_singleton|].
      split; [intros x ->%list_elem_of_singleton; set_solver|].
      split; [rewrite length_app; simpl; lia|].
      split; [|split; [done | simpl; lia]].
      intros x [Hx| ->%list_elem_of_singleton]%elem_of_app; [|lia].
      specialize (Hfresh x Hx). lia.
    - left. eexists _, _. split; [reflexivity|]. simpl.
      split; [done|]. split; [done|]. split; [done|]. split; [done|].
      split; [done | lia]. }
  destruct Hacq as [(c & s1 & -> & Hnd1 & Hsub1 & Hmax1 & Hfresh1 & Hm1 & Hl1)
                   | ->].
  2:{ simpl.
      assert (Hf : _pool (on_failure s0 (t_opened clk)) = _pool s0
                   ∧ _clients (on_failure s0 (t_opened clk)) = _clients s0
                   ∧ next_client (on_failure s0 (t_opened clk)) = next_client s0
                   ∧ max_connections (on_failure s0 (t_opened clk))
                     = max_connections s0).
      { unfold on_failure. by case_match. }
      destruct Hf as (Hfp & Hfc & Hfn & Hfm).
      split; [done|]. split; [|split; [done|split; [|done]]].
      - unfold pool_inv. by rewrite Hfp, Hfc, Hfn, Hfm.
      - by rewrite Hfp. }
  destruct (body_tracking s1 c b (t_opened clk))
    as (Hp3 & Hc3 & Hct3 & Ha3 & Hn3 & Hm3 & Hr3).
  set (s3 := match b with
             | BodyReturns => on_success (checkout s1 c)
             | BodyRaises _ => on_failure (checkout s1 c) (t_opened clk)
             end) in *.
  assert (Hlen1 : (S (length (_pool s1)) <= length (_clients s1))%nat).
  { change (S (length (_pool s1))) with (length (c :: _pool s1)).
    apply submseteq_length. by apply NoDup_submseteq. }
  destruct (release_spec s3 c clk)
    as (Hrel & Hmr & Har & Hkeep & Hrecycle).
  { rewrite Hm3, Hp3. lia. }
  destruct (release s3 c clk) as [s4 rel]. simpl in *.
  split; [done|]. apply NoDup_cons in Hnd1 as [Hc1 Hnd1].
  assert (Hcin : c ∈ _clients s1) by (apply Hsub1; by left).
  split; [|split; [congruence | split]].
  - destruct (_should_recycle_client s3 c (t_age clk)).
    + destruct (Hrecycle eq_refl) as (Hp4 & Hc4 & _ & Hn4).
      unfold pool_inv. rewrite Hp4, Hc4, Hn4, Hmr, Hp3, Hc3, Hn3, Hm3.
      apply list_mem_spec in Hcin as Hmem. rewrite Hmem.
      split; [|split; [|split]].
      * apply NoDup_app. split; [done|]. split; [|apply NoDup_singleton].
        intros x Hx ->%list_elem_of_singleton.
        specialize (Hfresh1 _ (Hsub1 _ (list_elem_of_further _ _ _ Hx))). lia.
      * intros x [Hx| ->%list_elem_of_singleton]%elem_of_app;
          apply elem_of_app; [left | right; by apply list_elem_of_singleton].
        apply list_remove_other; [by intros -> | apply Hsub1; by right].
      * rewrite length_app. simpl.
        pose proof (list_remove_length c _ Hcin). lia.
      * intros x [Hx| ->%list_elem_of_singleton]%elem_of_app; [|lia].
        apply list_remove_subset in Hx. specialize (Hfresh1 x Hx). lia.
    + destruct (Hkeep eq_refl) as (Hp4 & Hc4 & _ & Hn4).
      unfold pool_inv. rewrite Hp4, Hc4, Hn4, Hmr, Hp3, Hc3, Hn3, Hm3.
      split; [|split; [|done]].
      * apply NoDup_app. split; [done|]. split; [|apply NoDup_singleton].
        by intros x Hx ->%list_elem_of_singleton.
      * intros x [Hx| ->%list_elem_of_singleton]%elem_of_app;
          [apply Hsub1; by right | done].
  - destruct (_should_recycle_client s3 c (t_age clk)).
    + destruct (Hrecycle eq_refl) as (-> & _). rewrite length_app, Hp3.
      simpl. lia.
    + destruct (Hkeep eq_refl) as (-> & _). rewrite length_app, Hp3.
      simpl. lia.
  - intros c' [= <-]. rewrite Har. set_solver.
Qed.

Lemma pool_inv_init (max_connections timeout recycle_interval now : Z) :
  pool_inv (__init__ max_connections timeout recycle_interval now).
Proof.
  unfold pool_inv. simpl. split; [constructor|].
  split; [by intros c ?%elem_of_nil|]. split; [lia|].
  by intros c ?%elem_of_nil.
Qed.

(** Used by one caller after the other, the pool never tracks more than
    [max_connections] clients, never has more idle clients queued than it
    tracks, never loses an idle client, and every call gets through its
    [finally] block (the [put] never has to wait). *)
Theorem sequential_calls_keep_pool_bounded (s : t)
    (calls : list (clock * body)) :
  pool_inv s →
  pool_inv (run s calls)
  ∧ Z.of_nat (length (_clients (run s calls))) <= Z.max 0 (max_connections s)
  ∧ (length (_pool (run s calls)) <= length (_clients (run s calls)))%nat
  ∧ (length (_pool s) <= length (_pool (run s calls)))%nat
  ∧ (∀ before call after,
       calls = (before ++ call :: after)%list →
       released (get_client (run s before) call.1 call.2) = true).
Proof.
  intros Hinv.
  assert (Hrun : ∀ calls s, pool_inv s →
            pool_inv (run s calls)
            ∧ max_connections (run s calls) = max_connections s
            ∧ (length (_pool s) <= length (_pool (run s calls)))%nat).
  { clear. induction calls as [|[clk b] calls IH]; intros s Hinv; [done|].
    simpl. destruct (get_client_keeps_inv s clk b Hinv)
      as (_ & Hinv1 & Hm1 & Hl1 & _).
    destruct (IH _ Hinv1) as (Hinv2 & Hm2 & Hl2).
    split; [done|]. split; [congruence | lia]. }
  destruct (Hrun calls s Hinv) as (Hinv' & Hm & Hl).
  split; [done|]. split.
  { destruct Hinv' as (_ & _ & Hmax & _). by rewrite Hm in Hmax. }
  split; [by apply pool_inv_length|]. split; [done|].
  intros before [clk b] after ->. simpl.
  destruct (Hrun before s Hinv) as (Hinvb & _).
  by destruct (get_client_keeps_inv (run s before) clk b Hinvb) as [? _].
Qed.

Lemma sequential_calls_keep_pool_bounded_witness :
  pool_inv (run pool0 ten_failures)
  ∧ Z.of_nat (length (_clients (run pool0 ten_failures)))
    <= Z.max 0 (max_connections pool0)
  ∧ (length (_pool (run pool0 ten_failures))
     <= length (_clients (run pool0 ten_failures)))%nat
  ∧ (length (_pool pool0) <= length (_pool (run pool0 ten_failures)))%nat.
Proof.
  destruct (sequential_calls_keep_pool_bounded pool0 ten_failures)
    as (H1 & H2 & H3 & H4 & _).
  - apply pool_inv_init.
  - exact (conj H1 (conj H2 (conj H3 H4))).
Defined.




Lemma release_counters (s : t) (c : Client) (clk : clock) :
  successful_operations (metrics (release s c clk).1)
  = successful_operations (metrics s)
  ∧ failed_operations (metrics (release s c clk).1)
    = failed_operations (metrics s).
Proof.
  unfold release, _recycle_client, pool_put, _create_client.
  repeat case_match; simplify_eq; done.
Qed.

Lemma acquire_counters (s : t) (now : Z) :
  successful_operations (metrics (acquire s now).2)
  = successful_operations (metrics s)
  ∧ failed_operations (metrics (acquire s now).2)
    = failed_operations (metrics s).
Proof.
  unfold acquire, _create_client. repeat case_match; simplify_eq; done.
Qed.

(** Every operation that reaches the pool is counted once, as a success or
    as a failure, in line with how it ended; a call answered by the
    degraded client is not counted. *)
Theorem operations_are_counted_once (s : t) (clk : clock) (b : body) :
  let r := get_client s clk b in
  let done_before := successful_operations (metrics s) in
  let failed_before := failed_operations (metrics s) in
  match handled r with
  | NotTried =>
      successful_operations (metrics (post r)) = done_before
      ∧ failed_operations (metrics (post r)) = failed_before
  | Succeeded =>
      successful_operations (metrics (post r)) = done_before + 1
      ∧ failed_operations (metrics (post r)) = failed_before
      ∧ out r = Returned
  | Failed =>
      successful_operations (metrics (post r)) = done_before
      ∧ failed_operations (metrics (post r)) = failed_before + 1
      ∧ ∃ msg, out r = Raised msg
  end.
Proof.
  intros r done_before failed_before. subst r done_before failed_before.
  unfold get_client.
  destruct (gate s (t_gate clk)) as [|s0|] eqn:Hg; simpl; [done| |done].
  destruct (gate_tracking s s0 _ Hg) as (_ & _ & _ & _ & _ & _ & _ & <-).
  destruct (acquire_counters s0 (t_created clk)) as [Ha1 Ha2].
  destruct (acquire s0 (t_created clk)) as [[c|] s1]; simpl in *.
  - pose proof (release_counters
                  (match b with
                   | BodyReturns => on_success (checkout s1 c)
                   | BodyRaises _ => on_failure (checkout s1 c) (t_opened clk)
                   end) c clk) as [Hr1 Hr2].
    destruct (release _ c clk) as [s4 rel]. simpl in *.
    rewrite Hr1, Hr2. destruct b; simpl.
    + rewrite Ha1, Ha2. done.
    + unfold on_failure. case_match; simpl; rewrite Ha1, Ha2; eauto.
  - unfold on_failure. case_match; simpl; rewrite Ha1, Ha2; eauto.
Qed.


Lemma add_client_spec (s : t) (now : Z) :
  (0 < max_connections s → Z.of_nat (length (_pool s)) < max_connections s) →
  ∃ s', add_client s now = Some s'
        ∧ _pool s' = (_pool s ++ [next_client s])%list
        ∧ _clients s' = (_clients s ++ [next_client s])%list
        ∧ _client_created_times s'
          = <[next_client s := now]> (_client_created_times s)
        ∧ next_client s' = S (next_client s)
        ∧ max_connections s' = max_connections s
        ∧ _active_clients s' = _active_clients s
        ∧ metrics s' = metrics s
        ∧ breaker_view s' = breaker_view s.
Proof.
  intros Hroom. unfold add_client, _create_client, pool_put, pool_full. simpl.
  destruct (Z.leb_spec (max_connections s) 0).
  - eexists. split; [reflexivity|]. done.
  - destruct (Z.leb_spec (max_connections s) (Z.of_nat (length (_pool s))));
      [lia|].
    eexists. split; [reflexivity|]. done.
Qed.

Lemma initialize_loop (stamp : nat → Z) (n i : nat) (s : t) :
  _pool s = seq 0 i → _clients s = seq 0 i → next_client s = i →
  (n = 0%nat ∨ Z.of_nat (i + n) <= max_connections s) →
  ∃ s', repeat_from add_client stamp i n s = Some s'
        ∧ _pool s' = seq 0 (i + n)
        ∧ _clients s' = seq 0 (i + n)
        ∧ next_client s' = (i + n)%nat
        ∧ max_connections s' = max_connections s
        ∧ _active_clients s' = _active_clients s
        ∧ metrics s' = metrics s
        ∧ breaker_view s' = breaker_view s
        ∧ (∀ j, (i <= j < i + n)%nat →
                _client_created_times s' !! j = Some (stamp j)).
Proof.
  revert i s. induction n as [|n IH]; intros i s Hp Hc Hn Hmax.
  - exists s. rewrite Nat.add_0_r. simpl. repeat split; try done.
    intros j Hj. lia.
  - destruct Hmax as [|Hmax]; [done|].
    destruct (add_client_spec s (stamp i))
      as (s1 & Hadd & Hp1 & Hc1 & Hct1 & Hn1 & Hm1 & Ha1 & Hme1 & Hb1).
    { intros _. rewrite Hp, length_seq. lia. }
    simpl. rewrite Hadd.
    destruct (IH (S i) s1) as (s' & Hrep & Hp' & Hc' & Hn' & Hm' & Ha' & Hme'
                               & Hb' & Hst').
    + by rewrite Hp1, Hp, Hn, seq_S.
    + by rewrite Hc1, Hc, Hn, seq_S.
    + by rewrite Hn1, Hn.
    + right. rewrite Hm1. lia.
    + exists s'. split; [done|].
      replace (i + S n)%nat with (S i + n)%nat by lia.
      repeat split; try congruence.
      intros j Hj. destruct (decide (j = i)) as [->|Hne].
      * clear Hst'. revert Hrep.
        assert (Hkeep : ∀ m k u u',
                  repeat_from add_client stamp k m u = Some u' →
                  ∀ j, (j < next_client u)%nat → next_client u = k →
                       _client_created_times u' !! j
                       = _client_created_times u !! j).
        { clear. induction m as [|m IHm]; intros k u u' Hr j Hj Hk; simpl in Hr.
          - by injection Hr as <-.
          - destruct (add_client u (stamp k)) as [u1|] eqn:Hu; [|done].
            unfold add_client, _create_client, pool_put in Hu.
            destruct (pool_full _) in Hu; [done|]. injection Hu as <-.
            rewrite (IHm (S k) _ u' Hr j); simpl; [|lia|lia].
            rewrite lookup_insert_ne; [done | lia]. }
        intros Hrep. rewrite (Hkeep n (S i) s1 s' Hrep i); [|lia|lia].
        rewrite Hct1, Hn. apply lookup_insert_eq.
      * apply Hst'. lia.
Qed.

Lemma initialize_spec (max_connections timeout recycle_interval
    now : Z) (stamp stamp' : nat → Z) :
  let n := Z.to_nat (Z.min 10 max_connections) in
  ∃ lc,
    initialize (Lifecycle (__init__ max_connections timeout recycle_interval
                             now) false) stamp = Some lc
    ∧ _initialized lc = true
    ∧ _pool (pool_of lc) = seq 0 n
    ∧ _clients (pool_of lc) = seq 0 n
    ∧ (∀ j, (j < n)%nat →
            _client_created_times (pool_of lc) !! j = Some (stamp j))
    ∧ total_connections (metrics (pool_of lc)) = Z.of_nat n
    ∧ _active_clients (pool_of lc) = ∅
    ∧ _circuit_breaker_open (pool_of lc) = false
    ∧ pool_inv (pool_of lc)
    ∧ initialize lc stamp' = Some lc.
Proof.
  intros n. unfold initialize. cbn [_initialized pool_of].
  destruct (initialize_loop stamp n 0
              (__init__ max_connections timeout recycle_interval now))
    as (s' & Hrep & Hp & Hc & Hn & Hm & Ha & Hme & Hb & Hst); try done.
  { destruct (decide (n = 0%nat)) as [|Hn0]; [by left | right].
    simpl. subst n. lia. }
  simpl in Hp, Hc, Hn, Hst, Hm.
  change (SupabaseConnectionPool.max_connections
            (__init__ max_connections timeout recycle_interval now))
    with max_connections.
  fold n. rewrite Hrep.
  eexists. split; [reflexivity|]. cbn [_initialized pool_of].
  split; [done|]. simpl. rewrite Hp, Hc, length_seq.
  split; [done|]. split; [done|].
  split; [intros j Hj; apply Hst; lia|].
  split; [done|]. split; [by rewrite Ha|].
  split; [unfold breaker_view in Hb; by injection Hb as _ -> _ _ _|].
  split; [|done].
  unfold pool_inv. simpl. rewrite Hp, Hc, Hn, Hm, length_seq.
  split; [apply NoDup_seq|]. split; [done|].
  split; [subst n; lia|].
  intros c Hin%elem_of_seq. lia.
Qed.


(** [initialize] on a newly constructed pool creates [min(10,
    max_connections)] clients (none when that is not positive), queues all
    of them idle, stamps each with the clock reading of its round, sets
    [total_connections] to their number and marks the pool initialised;
    the breaker is untouched.  A second [initialize] changes nothing. *)
Theorem initialize_fills_the_pool (max_connections timeout recycle_interval
    now : Z) (stamp stamp' : nat → Z) :
  let n := Z.to_nat (Z.min 10 max_connections) in
  ∃ lc,
    initialize (Lifecycle (__init__ max_connections timeout recycle_interval
                             now) false) stamp = Some lc
    ∧ _initialized lc = true
    ∧ _pool (pool_of lc) = seq 0 n
    ∧ _clients (pool_of lc) = seq 0 n
    ∧ (∀ j, (j < n)%nat →
            _client_created_times (pool_of lc) !! j = Some (stamp j))
    ∧ total_connections (metrics (pool_of lc)) = Z.of_nat n
    ∧ _active_clients (pool_of lc) = ∅
    ∧ _circuit_breaker_open (pool_of lc) = false
    ∧ pool_inv (pool_of lc)
    ∧ initialize lc stamp' = Some lc.
Proof. apply initialize_spec. Qed.

Lemma initialize_fills_the_pool_witness :
  ∃ lc,
    initialize (Lifecycle (__init__ 3 5 3600 0) false) (λ i, Z.of_nat i)
    = Some lc
    ∧ _pool (pool_of lc) = [0; 1; 2]%nat
    ∧ _client_created_times (pool_of lc) !! 2%nat = Some 2.
Proof.
  destruct (initialize_fills_the_pool 3 5 3600 0 (λ i, Z.of_nat i)
              (λ i, Z.of_nat i))
    as (lc & Hinit & _ & Hpool & _ & Hstamp & _).
  exists lc. split; [exact Hinit|]. split; [exact Hpool|].
  apply (Hstamp 2%nat). vm_compute. lia.
Defined.





Lemma drop_clients_spec (l : list Client) (s : t) :
  let s' := foldl drop_client s l in
  _pool s' = _pool s
  ∧ _active_clients s' = _active_clients s
  ∧ next_client s' = next_client s
  ∧ max_connections s' = max_connections s
  ∧ breaker_view s' = breaker_view s
  ∧ (∀ c, _client_created_times s' !! c
          = if bool_decide (c ∈ l) then None
            else _client_created_times s !! c)
  ∧ total_connections (metrics s')
    = total_connections (metrics s) - Z.of_nat (length l)
  ∧ (∀ c, c ∈ _clients s' → c ∈ _clients s).
Proof.
  revert s. induction l as [|x l IH]; intros s; simpl.
  - repeat split; try done. lia.
  - destruct (IH (drop_client s x)) as (Hp & Ha & Hn & Hm & Hb & Hct & Ht & Hc).
    simpl in *. rewrite Hp, Ha, Hn, Hm, Hb, Ht.
    repeat split; try done.
    + intros c. rewrite Hct.
      destruct (decide (c = x)) as [->|Hne].
      * rewrite lookup_delete_eq.
        rewrite (bool_decide_eq_true_2 (x ∈ x :: l)) by (by left).
        by case_bool_decide.
      * rewrite lookup_delete_ne by done.
        destruct (bool_decide (c ∈ l)) eqn:E.
        -- apply bool_decide_eq_true_1 in E.
           by rewrite bool_decide_eq_true_2 by (by right).
        -- apply bool_decide_eq_false_1 in E.
           rewrite bool_decide_eq_false_2; [done|].
           rewrite elem_of_cons. tauto.
    + lia.
    + intros c Hin. apply Hc in Hin.
      destruct (list_mem x (_clients s)); [|done].
      by apply list_remove_subset in Hin.
Qed.

(** The periodic cleanup drops the creation stamp of exactly those clients
    that are older than [recycle_interval] and not checked out, takes that
    many off [total_connections], and adds no client.  It never touches
    the queue, the set of checked-out clients or the breaker: a client it
    dropped stays queued and can still be handed out. *)
Theorem cleanup_stale_connections_exact (s : t) (now : Z) :
  let s' := _cleanup_stale_connections s now in
  (∀ c, _client_created_times s' !! c
        = match _client_created_times s !! c with
          | Some created =>
              if bool_decide (now - created > recycle_interval s
                              ∧ c ∉ _active_clients s)
              then None else Some created
          | None => None
          end)
  ∧ total_connections (metrics s')
    = total_connections (metrics s)
      - Z.of_nat (length (stale_clients s now))
  ∧ (∀ c, c ∈ _clients s' → c ∈ _clients s)
  ∧ _pool s' = _pool s
  ∧ _active_clients s' = _active_clients s
  ∧ breaker_view s' = breaker_view s.
Proof.
  intros s'. subst s'. unfold _cleanup_stale_connections.
  destruct (drop_clients_spec (stale_clients s now) s)
    as (Hp & Ha & Hn & Hm & Hb & Hct & Ht & Hc).
  split; [|done].
  intros c. rewrite Hct. unfold stale_clients.
  destruct (_client_created_times s !! c) as [created|] eqn:Hk.
  - destruct (decide (now - created > recycle_interval s
                      ∧ c ∉ _active_clients s)) as [Hst|Hst].
    + rewrite (bool_decide_eq_true_2 _ Hst).
      rewrite bool_decide_eq_true_2; [done|].
      apply list_elem_of_fmap. exists (c, created). split; [done|].
      apply elem_of_map_to_list, map_lookup_filter_Some. done.
    + rewrite (bool_decide_eq_false_2 _ Hst).
      rewrite bool_decide_eq_false_2; [done|].
      intros ([c' created'] & Hid & Hin)%list_elem_of_fmap. simpl in Hid.
      subst c'.
      apply elem_of_map_to_list, map_lookup_filter_Some in Hin as [Hin Hold].
      simpl in Hold. rewrite Hk in Hin. injection Hin as <-. done.
  - rewrite bool_decide_eq_false_2; [done|].
    intros ([c' created'] & Hid & Hin)%list_elem_of_fmap. simpl in Hid.
    subst c'.
    apply elem_of_map_to_list, map_lookup_filter_Some in Hin as [Hin _].
    congruence.
Qed.


(** The first use of the pool through [get_supabase_client] initialises it.
    With [max_connections] at least 1 the caller is handed the first client
    of the start-up batch; with [max_connections] zero or negative there is
    no client to hand out and none may be created, so the call raises the
    pool-exhausted error (and counts as a failure for the breaker). *)
Theorem first_use_initializes_the_pool (max_connections timeout
    recycle_interval now : Z) (stamp : nat → Z) (clk : clock) (b : body) :
  ∃ r lc,
    get_supabase_client
      (Lifecycle (__init__ max_connections timeout recycle_interval now) false)
      stamp clk b = Some (r, lc)
    ∧ _initialized lc = true
    ∧ (1 <= max_connections → yield r = Wrapped 0%nat ∧ out r = body_outcome b)
    ∧ (max_connections <= 0 →
       yield r = Nothing
       ∧ out r = Raised ("Connection pool exhausted ("
                         ++ Py.str_of_int max_connections ++ " connections)")
       ∧ _failed_operations_count (pool_of lc) = 1).
Proof.
  destruct (initialize_spec max_connections timeout recycle_interval now
              stamp stamp)
    as (lc & Hinit & Hi & Hp & Hc & _ & _ & _ & Ho & _ & _).
  unfold get_supabase_client. rewrite Hinit.
  eexists _, _. split; [reflexivity|]. cbn [_initialized pool_of].
  split; [done|].
  assert (Hmaxc : SupabaseConnectionPool.max_connections (pool_of lc)
                  = max_connections
                  ∧ _failed_operations_count (pool_of lc) = 0
                  ∧ _circuit_breaker_threshold (pool_of lc) = 10).
  { clear -Hinit. unfold initialize in Hinit. simpl in Hinit.
    destruct (initialize_loop stamp
                (Z.to_nat (Z.min 10 max_connections)) 0
                (__init__ max_connections timeout recycle_interval now))
      as (s' & Hrep & _ & _ & _ & Hm & _ & _ & Hb & _); try done.
    { destruct (decide (Z.to_nat (Z.min 10 max_connections) = 0%nat));
        [by left | right]. simpl. lia. }
    rewrite Hrep in Hinit. injection Hinit as <-. simpl.
    unfold breaker_view in Hb. injection Hb as -> _ _ -> _. done. }
  destruct Hmaxc as (Hm & Hcnt & Hthr).
  unfold get_client. rewrite (gate_closed _ _ Ho). unfold acquire.
  rewrite Hp, Hc. split; intros Hmax.
  - destruct (Z.to_nat (Z.min 10 max_connections)) as [|n] eqn:Hn; [lia|].
    simpl. destruct (release _ _ clk) as [s4 rel]. simpl. done.
  - replace (Z.to_nat (Z.min 10 max_connections)) with 0%nat by lia.
    simpl. rewrite Hm. change (Z.of_nat 0) with 0.
    destruct (Z.ltb_spec 0 max_connections); [lia|]. simpl.
    split; [done|]. split.
    + unfold pool_exhausted_message. by rewrite Hm.
    + unfold on_failure. simpl. rewrite Hcnt, Hthr. done.
Qed.

Lemma first_use_initializes_the_pool_witness :
  ∃ r lc,
    get_supabase_client (Lifecycle (__init__ 0 5 3600 0) false)
      (λ _, 0) (call_at 1) BodyReturns = Some (r, lc)
    ∧ yield r = Nothing
    ∧ out r = Raised "Connection pool exhausted (0 connections)".
Proof.
  destruct (first_use_initializes_the_pool 0 5 3600 0 (λ _, 0) (call_at 1)
              BodyReturns) as (r & lc & Hget & _ & _ & Hzero).
  exists r, lc. split; [exact Hget|].
  destruct Hzero as (Hy & Ho & _); [vm_compute; discriminate|].
  split; [exact Hy | exact Ho].
Defined.

End PoolMore.
